(** * Representacao de figuras por computador: the projection and drawing core

    A shallow embedding of the Go sources

      - pkg/types/types.go               (Point3D, Point2D, Line, Camera, Figure,
                                          DefaultCamera)
      - internal/core/loader.go          (LoadFigureFromYAML, validateFigure)
      - internal/renderer/config.go      (DefaultRenderConfig, ConfigFromFigure,
                                          namedColors, parseColor,
                                          parseHexComponent)
      - internal/renderer/renderer.go    (New, SetCamera, ProjectPoint,
                                          RenderFigure, RenderFigureWithConfig,
                                          SaveImage, GetImage, AddGrid,
                                          generatePNG)

    Modelling conventions.

      - Go [int] is [Z] within the range of [int]; [len] of a slice is
        [Z.of_nat (length _)].  Where an [int] addition can leave the range,
        as the counter of the loops of [AddGrid] can, its wrap-around is
        written out ([wrapInt]).
      - Go [float64] is a type [F] with the operations of the class [Arith];
        the program is written once, over any [Arith].  The instance
        [binary64] is IEEE 754 double precision as the kernel's [SpecFloat]
        computes it (round to nearest even, signed zeros, infinities, NaN),
        each operation rounded on its own.
      - Go strings are byte strings ([string]).  [strings.ToLower] and
        [strings.TrimSpace] are the two functions of the class [Strings]:
        what is known of them is what they do on 7-bit ASCII text, where they
        work byte by byte ([lowerASCII], [trimASCII]); of a text with other
        bytes nothing is assumed.  A [range] over a string decodes UTF-8
        ([runeTail]) and yields U+FFFD for a byte that starts no rune.
      - A Go result pair [(T, error)] is a pair [T * option error]; [None] is
        the nil error.  A pointer that may be nil is an [option].
      - [os.ReadFile], [yaml.Unmarshal], [gg.SavePNG], and whether
        [gg.NewContext] returns or panics for a canvas size, are parameters.
      - The drawing surface [*gg.Context] is external; it is modelled by the
        sequence of calls it receives.  Whether a call of the surface returns
        is not modelled (a disc at an infinite coordinate may keep the library
        busy for ever): statements about a render say that no panic is raised
        and what holds of a render that returns.  A run-time panic (slice
        index out of range, nil dereference, a panic of the library) is an
        explicit outcome.
      - A loop that may not end takes fuel: [None] is a run that has not
        ended within the fuel. *)

From Stdlib Require Import ZArith QArith Lqa String Ascii List Bool Lia DecimalString.
From Stdlib Require Import Floats.SpecFloat.
From stdpp Require Import gmap strings list.
Import ListNotations.

#[local] Open Scope string_scope.
#[local] Open Scope Z_scope.

(** ** float64 arithmetic *)

(** The operations the sources use on [float64]. *)
Class Arith (F : Type) : Type := {
  fadd : F -> F -> F;          (* x + y *)
  fsub : F -> F -> F;          (* x - y *)
  fmul : F -> F -> F;          (* x * y *)
  fdiv : F -> F -> F;          (* x / y *)
  feqb : F -> F -> bool;       (* x == y *)
  fltb : F -> F -> bool;       (* x < y *)
  fleb : F -> F -> bool;       (* x <= y *)
  of_int : Z -> F;             (* float64(n) *)
  lit : Q -> F;                (* a decimal constant of the program text *)
  Round : F -> F               (* math.Round: nearest integer, halves away from zero *)
}.

Declare Scope float_scope.
Delimit Scope float_scope with flt.
Infix "+" := fadd : float_scope.
Infix "-" := fsub : float_scope.
Infix "*" := fmul : float_scope.
Infix "/" := fdiv : float_scope.
Infix "==?" := feqb (at level 70) : float_scope.
Infix "<?" := fltb : float_scope.
Infix "<=?" := fleb : float_scope.

(** *** IEEE 754 binary64 *)

Module B64.

Definition prec : Z := 53.
Definition emax : Z := 1024.

Definition float64 : Type := spec_float.

(** [float64(n)] for an integer [n]: the nearest double. *)
Definition of_Z (n : Z) : float64 := binary_normalize prec emax n 0 false.

(** A constant [num/den] of the program text is converted to the nearest
    double; the correctly rounded quotient of two exactly representable
    integers is that double. *)
Definition of_Q (q : Q) : float64 :=
  SFdiv prec emax (of_Z (Qnum q)) (of_Z (Zpos (Qden q))).

(** [math.Round]: zeros, infinities and NaN are returned as they are; a
    finite value is rounded to the nearest integer, halves away from zero,
    keeping the sign (so that [Round(-0.2)] is [-0]). *)
Definition round (x : float64) : float64 :=
  match x with
  | S754_finite s m e =>
      if 0 <=? e then x
      else
        let k := - e in
        let q := Z.shiftr (Zpos m) k in
        let n := if Z.testbit (Zpos m) (k - 1) then q + 1 else q in
        if n =? 0 then S754_zero s
        else binary_normalize prec emax (if s then - n else n) 0 false
  | _ => x
  end.

(** The exact value of a finite double, as a rational. *)
Definition to_Q (x : float64) : option Q :=
  match x with
  | S754_zero _ => Some 0%Q
  | S754_finite s m e =>
      let v := if 0 <=? e then inject_Z (Zpos m * 2 ^ e)
               else (Zpos m # Pos.shiftl 1 (Z.to_N (- e)))%Q in
      Some (if s then Qopp v else v)
  | _ => None
  end.

(** The integer a finite integral double denotes ([int(x)], truncating). *)
Definition to_Z (x : float64) : option Z :=
  match x with
  | S754_zero _ => Some 0
  | S754_finite s m e =>
      let v := if 0 <=? e then Zpos m * 2 ^ e else Z.shiftr (Zpos m) (- e) in
      Some (if s then - v else v)
  | _ => None
  end.

End B64.

#[export] Instance binary64 : Arith B64.float64 := {
  fadd := SFadd B64.prec B64.emax;
  fsub := SFsub B64.prec B64.emax;
  fmul := SFmul B64.prec B64.emax;
  fdiv := SFdiv B64.prec B64.emax;
  feqb := SFeqb;
  fltb := SFltb;
  fleb := SFleb;
  of_int := B64.of_Z;
  lit := B64.of_Q;
  Round := B64.round
}.

(** ** Errors and strings *)

(** Go [error] values: [fmt.Errorf] with a plain message, [fmt.Errorf] wrapping
    a cause with [%w], and [*strconv.NumError] (syntax or range). *)
Inductive error : Type :=
| Errorf (msg : string)
| Wrapf (msg : string) (cause : error)
| NumError (func num : string) (syntax : bool).

(** The largest [int], and the result of an [int] addition: the sum modulo
    2^64, in the range of [int]. *)
Definition maxInt : Z := 9223372036854775807.

Definition wrapInt (z : Z) : Z := (z + 2 ^ 63) mod 2 ^ 64 - 2 ^ 63.

(** [%d] of an [int]. *)
Definition itoa (n : Z) : string := NilZero.string_of_int (Z.to_int n).

Definition byte_in (lo hi : nat) (c : ascii) : bool :=
  (lo <=? nat_of_ascii c)%nat && (nat_of_ascii c <=? hi)%nat.

(** Lower case on ASCII text: [A]-[Z] become [a]-[z], byte by byte. *)
Definition lowerByte (c : ascii) : ascii :=
  if byte_in 65 90 c then ascii_of_nat (nat_of_ascii c + 32) else c.

Fixpoint lowerASCII (s : string) : string :=
  match s with
  | EmptyString => EmptyString
  | String c s' => String (lowerByte c) (lowerASCII s')
  end.

(** The ASCII white space: tab, LF, VT, FF, CR, space. *)
Definition isSpace (c : ascii) : bool :=
  byte_in 9 13 c || (nat_of_ascii c =? 32)%nat.

Fixpoint trimLeft (s : string) : string :=
  match s with
  | EmptyString => EmptyString
  | String c s' => if isSpace c then trimLeft s' else s
  end.

Fixpoint trimRight (s : string) : string :=
  match s with
  | EmptyString => EmptyString
  | String c s' =>
      match trimRight s' with
      | EmptyString => if isSpace c then EmptyString else String c EmptyString
      | t => String c t
      end
  end.

Definition trimASCII (s : string) : string := trimRight (trimLeft s).

(** [len(s)] *)
Definition len (s : string) : Z := Z.of_nat (String.length s).

(** The text is 7-bit ASCII. *)
Fixpoint isASCII (s : string) : bool :=
  match s with
  | EmptyString => true
  | String c s' => (nat_of_ascii c <? 128)%nat && isASCII s'
  end.

(** *** strings.ToLower and strings.TrimSpace *)

(** The two functions of the Go library.  Their Unicode tables are not
    reproduced: the library is a parameter of the program.  What is known of
    it is its behaviour on ASCII text, where both functions work byte by
    byte: [ToLower] turns [A]-[Z] into [a]-[z], and [TrimSpace] removes the
    leading and the trailing tab, LF, VT, FF, CR and space. *)
Class Strings : Type := {
  ToLower : string -> string;
  TrimSpace : string -> string;
  ToLower_ascii : forall s, isASCII s = true -> ToLower s = lowerASCII s;
  TrimSpace_ascii : forall s, isASCII s = true -> TrimSpace s = trimASCII s
}.

(** The library restricted to what is known of it; on ASCII text it is the
    Go library. *)
Definition asciiStrings : Strings := {|
  ToLower := lowerASCII;
  TrimSpace := trimASCII;
  ToLower_ascii := fun s _ => eq_refl;
  TrimSpace_ascii := fun s _ => eq_refl
|}.

(** *** Ranging over a string *)

(** [for _, ch := range v] decodes UTF-8 as [utf8.DecodeRuneInString] does.
    [runeTail b rest] is the number of continuation bytes of the encoded
    rune that starts with the byte [b] and goes on in [rest]; [None] when
    the bytes are not a valid encoding (a stray or missing continuation
    byte, an overlong form, a surrogate, a value beyond U+10FFFF), where the
    loop yields U+FFFD and advances by one byte. *)
Definition isContinuation (c : ascii) : bool := byte_in 128 191 c.

Definition runeTail (b : ascii) (rest : string) : option nat :=
  if byte_in 0 127 b then Some 0%nat
  else if byte_in 194 223 b then
    match rest with
    | String b1 _ => if isContinuation b1 then Some 1%nat else None
    | _ => None
    end
  else if byte_in 224 239 b then
    match rest with
    | String b1 (String b2 _) =>
        if byte_in (if (nat_of_ascii b =? 224)%nat then 160 else 128)
                   (if (nat_of_ascii b =? 237)%nat then 159 else 191) b1
           && isContinuation b2
        then Some 2%nat else None
    | _ => None
    end
  else if byte_in 240 244 b then
    match rest with
    | String b1 (String b2 (String b3 _)) =>
        if byte_in (if (nat_of_ascii b =? 240)%nat then 144 else 128)
                   (if (nat_of_ascii b =? 244)%nat then 143 else 191) b1
           && isContinuation b2 && isContinuation b3
        then Some 3%nat else None
    | _ => None
    end
  else None.

(** U+FFFD as [WriteRune] encodes it: EF BF BD. *)
Definition runeError : string :=
  String (ascii_of_nat 239) (String (ascii_of_nat 191) (String (ascii_of_nat 189) "")).

(** *** strconv.ParseUint(s, 16, 8) *)

(** The digit value of a byte, as in the loop of [ParseUint]: decimal digits,
    then letters of either case from 10 on. *)
Definition digitVal (c : ascii) : option Z :=
  if byte_in 48 57 c then Some (Z.of_nat (nat_of_ascii c) - 48)
  else if byte_in 97 122 c then Some (Z.of_nat (nat_of_ascii c) - 97 + 10)
  else if byte_in 65 90 c then Some (Z.of_nat (nat_of_ascii c) - 65 + 10)
  else None.

(** The loop of [ParseUint] for base 16 and 8 bits: a byte that is not a digit
    of the base is a syntax error, a value above 255 a range error. *)
Fixpoint parseUintLoop (s0 : string) (n : Z) (s : string) : Z * option error :=
  match s with
  | EmptyString => (n, None)
  | String c s' =>
      match digitVal c with
      | None => (0, Some (NumError "ParseUint" s0 true))
      | Some d =>
          if 16 <=? d then (0, Some (NumError "ParseUint" s0 true))
          else
            let n1 := n * 16 + d in
            if 255 <? n1 then (255, Some (NumError "ParseUint" s0 false))
            else parseUintLoop s0 n1 s'
      end
  end.

Definition ParseUint_16_8 (s : string) : Z * option error :=
  match s with
  | EmptyString => (0, Some (NumError "ParseUint" s true))
  | _ => parseUintLoop s 0 s
  end.

(** ** The program, over any arithmetic *)

Section Program.

Context {F : Type} {arith : Arith F} {lib : Strings}.
#[local] Open Scope float_scope.

(** *** pkg/types *)

(** The coordinate fields [X], [Y], [Z] of [Point3D] are [pX], [pY], [pZ];
    the fields [X], [Y] of [Point2D] are [sX], [sY]. *)
Record Point3D : Type := { pX : F; pY : F; pZ : F; Nome : string }.

Record Point2D : Type := { sX : F; sY : F }.

Record Line : Type := { P1 : Z; P2 : Z }.

(** The fields of [RenderSettings] carry the prefix [rs]. *)
Record RenderSettings : Type := {
  rsCanvasWidth : Z;
  rsCanvasHeight : Z;
  rsBackground : string;
  rsLineColor : string;
  rsVertexColor : string;
  rsLineWidth : F;
  rsShowVertices : option bool;
  rsShowLabels : option bool
}.

Record Camera : Type := {
  Observer : Point3D;
  Distance : F;
  Width : F;
  Height : F
}.

(** The fields [Nome] and [Camera] of [Figure] are [figNome], [figCamera]. *)
Record Figure : Type := {
  figNome : string;
  Pontos : list Point3D;
  Linhas : list Line;
  figCamera : Camera;
  Render : option RenderSettings
}.

Definition DefaultCamera : Camera :=
  {| Observer := {| pX := lit 0; pY := lit 0; pZ := lit 0; Nome := "" |};
     Distance := lit 10;
     Width := lit (128 # 10);
     Height := lit (96 # 10) |}.

(** *** internal/renderer: the projector *)

(** [New] is the renderer that [renderer.New] returns.  It returns when
    [gg.NewContext] does; the caller [generatePNG] carries the other case. *)

Inductive DrawOp : Type :=
| SetRGB (r g b : F)
| Clear
| SetLineWidth (w : F)
| MoveTo (x y : F)
| LineTo (x y : F)
| Stroke
| DrawCircle (x y r : F)
| Fill
| DrawString (s : string) (x y : F).

(** [*gg.Context]: the calls received so far, oldest first. *)
Definition ggContext : Type := list DrawOp.

Record Renderer3D : Type := {
  context : ggContext;
  width : Z;
  height : Z;
  camera : Camera;
  centerX : F;
  centerY : F
}.

(** The zero value of [types.Camera], the field [camera] right after [New]. *)
Definition zeroCamera : Camera :=
  {| Observer := {| pX := lit 0; pY := lit 0; pZ := lit 0; Nome := "" |};
     Distance := lit 0;
     Width := lit 0;
     Height := lit 0 |}.

Definition New (width height : Z) : Renderer3D :=
  {| context := [SetRGB (lit 1) (lit 1) (lit 1); Clear;
                 SetRGB (lit 0) (lit 0) (lit 0); SetLineWidth (lit 1)];
     width := width;
     height := height;
     camera := zeroCamera;
     centerX := of_int width / lit 2;
     centerY := of_int height / lit 2 |}.

Definition SetCamera (r : Renderer3D) (c : Camera) : Renderer3D :=
  {| context := r.(context);
     width := r.(width);
     height := r.(height);
     camera := c;
     centerX := r.(centerX);
     centerY := r.(centerY) |}.

Definition ProjectPoint (r : Renderer3D) (p : Point3D) : Point2D :=
  let px := p.(pX) - r.(camera).(Observer).(pX) in
  let py := p.(pZ) - r.(camera).(Observer).(pZ) in
  let pz := p.(pY) - r.(camera).(Observer).(pY) in
  let pz := if pz <=? lit (1 # 10) then lit (1 # 10) else pz in
  let projX := px * r.(camera).(Distance) / pz in
  let projY := py * r.(camera).(Distance) / pz in
  let scaleX := of_int r.(width) / r.(camera).(Width) in
  let scaleY := of_int r.(height) / r.(camera).(Height) in
  let screenX := r.(centerX) + (projX * scaleX) in
  let screenY := r.(centerY) - (projY * scaleY) in
  {| sX := screenX; sY := screenY |}.

(** *** internal/renderer: visual configuration *)

Record colorRGB : Type := { R : F; G : F; B : F }.

Record RenderConfig : Type := {
  Background : colorRGB;
  LineColor : colorRGB;
  LineWidth : F;
  VertexColor : colorRGB;
  ShowVertices : bool;
  ShowLabels : bool
}.

Definition DefaultRenderConfig : RenderConfig :=
  {| Background := {| R := lit 1; G := lit 1; B := lit 1 |};
     LineColor := {| R := lit 0; G := lit 0; B := lit 0 |};
     LineWidth := lit 1;
     VertexColor := {| R := lit (8 # 10); G := lit 0; B := lit 0 |};
     ShowVertices := false;
     ShowLabels := false |}.

(** The zero value [colorRGB{}] that accompanies an error. *)
Definition zeroColor : colorRGB := {| R := lit 0; G := lit 0; B := lit 0 |}.

Definition gray (q : Q) : colorRGB := {| R := lit q; G := lit q; B := lit q |}.

Definition namedColors : gmap string colorRGB :=
  list_to_map
    [ ("white", gray 1);
      ("black", gray 0);
      ("gray", gray (5 # 10));
      ("grey", gray (5 # 10));
      ("lightgray", gray (82 # 100));
      ("lightgrey", gray (82 # 100));
      ("darkgray", gray (25 # 100));
      ("darkgrey", gray (25 # 100)) ].

Definition parseHexComponent (component : string) : F * option error :=
  match ParseUint_16_8 component with
  | (_, Some err) => (lit 0, Some err)
  | (v, None) => (Round ((of_int v / lit 255) * lit 1000) / lit 1000, None)
  end.

(** [for _, ch := range v { sb.WriteRune(ch); sb.WriteRune(ch) }]: every
    rune of [v] is written twice.  A valid rune is written as the bytes it was
    read from; bytes that are no valid encoding are read one at a time as
    U+FFFD and written as such.  [skip] counts the bytes of [v] that belong to
    the rune written last. *)
Fixpoint duplicateRunes (skip : nat) (v : string) : string :=
  match v with
  | EmptyString => EmptyString
  | String b rest =>
      match skip with
      | S k => duplicateRunes k rest
      | O =>
          match runeTail b rest with
          | Some k =>
              let ch := String b (substring 0 k rest) in
              ch ++ ch ++ duplicateRunes k rest
          | None => runeError ++ runeError ++ duplicateRunes 0 rest
          end
      end
  end.

Definition duplicateEach (v : string) : string := duplicateRunes 0 v.

(** The slices [v[0:2]], [v[2:4]], [v[4:6]] are taken when [len(v) == 6]
    only, hence within bounds. *)
Definition parseColor (value : string) : colorRGB * option error :=
  let v := TrimSpace (ToLower value) in
  if String.eqb v "" then (zeroColor, Some (Errorf "valor vazio"))
  else
    match namedColors !! v with
    | Some col => (col, None)
    | None =>
        let v := match v with
                 | String "#" rest => rest
                 | _ => v
                 end in
        let v := if (len v =? 3)%Z then duplicateEach v else v in
        if negb (len v =? 6)%Z
        then (zeroColor, Some (Errorf ("formato de cor inválido: " ++ value)))
        else
          match parseHexComponent (substring 0 2 v) with
          | (_, Some err) => (zeroColor, Some err)
          | (r, None) =>
              match parseHexComponent (substring 2 2 v) with
              | (_, Some err) => (zeroColor, Some err)
              | (g, None) =>
                  match parseHexComponent (substring 4 2 v) with
                  | (_, Some err) => (zeroColor, Some err)
                  | (b, None) => ({| R := r; G := g; B := b |}, None)
                  end
              end
          end
    end.

Definition withBackground (cfg : RenderConfig) (col : colorRGB) : RenderConfig :=
  {| Background := col; LineColor := cfg.(LineColor); LineWidth := cfg.(LineWidth);
     VertexColor := cfg.(VertexColor); ShowVertices := cfg.(ShowVertices);
     ShowLabels := cfg.(ShowLabels) |}.

Definition withLineColor (cfg : RenderConfig) (col : colorRGB) : RenderConfig :=
  {| Background := cfg.(Background); LineColor := col; LineWidth := cfg.(LineWidth);
     VertexColor := cfg.(VertexColor); ShowVertices := cfg.(ShowVertices);
     ShowLabels := cfg.(ShowLabels) |}.

Definition withVertexColor (cfg : RenderConfig) (col : colorRGB) : RenderConfig :=
  {| Background := cfg.(Background); LineColor := cfg.(LineColor);
     LineWidth := cfg.(LineWidth); VertexColor := col;
     ShowVertices := cfg.(ShowVertices); ShowLabels := cfg.(ShowLabels) |}.

Definition withLineWidth (cfg : RenderConfig) (w : F) : RenderConfig :=
  {| Background := cfg.(Background); LineColor := cfg.(LineColor); LineWidth := w;
     VertexColor := cfg.(VertexColor); ShowVertices := cfg.(ShowVertices);
     ShowLabels := cfg.(ShowLabels) |}.

Definition withShowVertices (cfg : RenderConfig) (b : bool) : RenderConfig :=
  {| Background := cfg.(Background); LineColor := cfg.(LineColor);
     LineWidth := cfg.(LineWidth); VertexColor := cfg.(VertexColor);
     ShowVertices := b; ShowLabels := cfg.(ShowLabels) |}.

Definition withShowLabels (cfg : RenderConfig) (b : bool) : RenderConfig :=
  {| Background := cfg.(Background); LineColor := cfg.(LineColor);
     LineWidth := cfg.(LineWidth); VertexColor := cfg.(VertexColor);
     ShowVertices := cfg.(ShowVertices); ShowLabels := b |}.

(** One colour block of [ConfigFromFigure]: an empty setting is skipped, a
    colour that does not parse ends the function with the configuration
    built so far and the wrapped error. *)
Definition colorStep (setting : string) (msg : string)
    (assign : RenderConfig -> colorRGB -> RenderConfig)
    (cfg : RenderConfig)
    (next : RenderConfig -> RenderConfig * option error)
    : RenderConfig * option error :=
  if String.eqb setting "" then next cfg
  else
    match parseColor setting with
    | (_, Some err) => (cfg, Some (Wrapf msg err))
    | (col, None) => next (assign cfg col)
    end.

Definition ConfigFromFigure (fig : option Figure) : RenderConfig * option error :=
  let cfg := DefaultRenderConfig in
  match fig with
  | None => (cfg, None)
  | Some fig =>
      match fig.(Render) with
      | None => (cfg, None)
      | Some settings =>
          colorStep settings.(rsBackground) "cor de fundo inválida: " withBackground cfg
            (fun cfg =>
          colorStep settings.(rsLineColor) "cor da linha inválida: " withLineColor cfg
            (fun cfg =>
          colorStep settings.(rsVertexColor) "cor dos vértices inválida: "
            withVertexColor cfg
            (fun cfg =>
          let cfg := if lit 0 <? settings.(rsLineWidth)
                     then withLineWidth cfg settings.(rsLineWidth) else cfg in
          let cfg := match settings.(rsShowVertices) with
                     | Some b => withShowVertices cfg b
                     | None => cfg
                     end in
          let cfg := match settings.(rsShowLabels) with
                     | Some b => withShowLabels cfg b
                     | None => cfg
                     end in
          (cfg, None))))
      end
  end.

(** *** internal/core: loading and validation *)

(** The loop of [validateFigure] over [figure.Linhas]; [n] is
    [len(figure.Pontos)] and [i] the index of the first line of [linhas]. *)
Fixpoint validateLinhas (n : Z) (i : Z) (linhas : list Line) : option error :=
  match linhas with
  | [] => None
  | linha :: rest =>
      if (linha.(P1) <? 0)%Z || (linha.(P1) >=? n)%Z
      then Some (Errorf ("linha " ++ itoa i ++ " referencia ponto P1 inválido: "
                         ++ itoa linha.(P1) ++ " (deve estar entre 0 e "
                         ++ itoa (n - 1) ++ ")"))
      else if (linha.(P2) <? 0)%Z || (linha.(P2) >=? n)%Z
      then Some (Errorf ("linha " ++ itoa i ++ " referencia ponto P2 inválido: "
                         ++ itoa linha.(P2) ++ " (deve estar entre 0 e "
                         ++ itoa (n - 1) ++ ")"))
      else validateLinhas n (i + 1) rest
  end.

Definition validateFigure (figure : Figure) : option error :=
  if (Z.of_nat (length figure.(Pontos)) =? 0)%Z
  then Some (Errorf "figura deve ter pelo menos um ponto")
  else if (Z.of_nat (length figure.(Linhas)) =? 0)%Z
  then Some (Errorf "figura deve ter pelo menos uma linha")
  else validateLinhas (Z.of_nat (length figure.(Pontos))) 0 figure.(Linhas).

Definition withCamera (figure : Figure) (c : Camera) : Figure :=
  {| figNome := figure.(figNome); Pontos := figure.(Pontos);
     Linhas := figure.(Linhas); figCamera := c; Render := figure.(Render) |}.

Section Loader.

(** The two external steps of loading: [os.ReadFile], and
    [yaml.Unmarshal] into a fresh [types.Figure]. *)
Variable ReadFile : string -> string * option error.
Variable Unmarshal : string -> Figure * option error.

Definition LoadFigureFromYAML (filename : string) : option Figure * option error :=
  match ReadFile filename with
  | (_, Some err) => (None, Some (Wrapf "erro ao ler arquivo: " err))
  | (data, None) =>
      match Unmarshal data with
      | (_, Some err) => (None, Some (Wrapf "erro ao parsear YAML: " err))
      | (figure, None) =>
          let figure :=
            if figure.(figCamera).(Distance) ==? lit 0
            then withCamera figure DefaultCamera
            else figure in
          match validateFigure figure with
          | Some err => (None, Some (Wrapf "figura inválida: " err))
          | None => (Some figure, None)
          end
      end
  end.

End Loader.

(** *** internal/renderer: the draw pipeline *)

Inductive panic : Type :=
| IndexOutOfRange (i n : Z)
| NilDereference
| LibraryPanic (origin : string).

(** How a call that draws ends: it returns a value, or it panics; either way
    the surface holds the calls made up to that point. *)
Inductive outcome (A : Type) : Type :=
| Returned (a : A) (ctx : ggContext)
| Panicked (p : panic) (ctx : ggContext).
#[global] Arguments Returned {A} a ctx.
#[global] Arguments Panicked {A} p ctx.

Definition Draw (A : Type) : Type := ggContext -> outcome A.

Definition ret {A : Type} (a : A) : Draw A := fun ctx => Returned a ctx.

Definition bind {A B : Type} (m : Draw A) (k : A -> Draw B) : Draw B :=
  fun ctx =>
    match m ctx with
    | Returned a ctx' => k a ctx'
    | Panicked p ctx' => Panicked p ctx'
    end.

Definition raise {A : Type} (p : panic) : Draw A := fun ctx => Panicked p ctx.

(** A method call on the surface. *)
Definition call (op : DrawOp) : Draw unit := fun ctx => Returned tt (ctx ++ [op])%list.

#[local] Notation "x <- m ;; k" := (bind m (fun x => k))
  (at level 100, m at next level, right associativity).
#[local] Notation "m ;;; k" := (bind m (fun _ => k))
  (at level 100, right associativity).

(** [s[i]] with the bounds check of the Go run time. *)
Definition index {A : Type} (s : list A) (i : Z) : Draw A :=
  if (i <? 0)%Z then raise (IndexOutOfRange i (Z.of_nat (length s)))
  else
    match s !! Z.to_nat i with
    | Some x => ret x
    | None => raise (IndexOutOfRange i (Z.of_nat (length s)))
    end.

Fixpoint forEach {A : Type} (s : list A) (body : A -> Draw unit) : Draw unit :=
  match s with
  | [] => ret tt
  | x :: rest => body x ;;; forEach rest body
  end.

(** [for i, x := range s] *)
Fixpoint enumerate {A : Type} (i : Z) (s : list A) : list (Z * A) :=
  match s with
  | [] => []
  | x :: rest => (i, x) :: enumerate (i + 1) rest
  end.

Definition setColor (c : colorRGB) : Draw unit :=
  call (SetRGB c.(R) c.(G) c.(B)).

Definition drawEdge (pontos2D : list Point2D) (linha : Line) : Draw unit :=
  if (linha.(P1) >=? Z.of_nat (length pontos2D))%Z
     || (linha.(P2) >=? Z.of_nat (length pontos2D))%Z
  then ret tt
  else
    p1 <- index pontos2D linha.(P1) ;;
    p2 <- index pontos2D linha.(P2) ;;
    call (MoveTo p1.(sX) p1.(sY)) ;;;
    call (LineTo p2.(sX) p2.(sY)) ;;;
    call Stroke.

Definition drawVertex (figure : Figure) (cfg : RenderConfig)
    (ip : Z * Point2D) : Draw unit :=
  let (i, p2D) := ip in
  call (DrawCircle p2D.(sX) p2D.(sY) (lit 2)) ;;;
  call Fill ;;;
  if cfg.(ShowLabels)
  then
    ponto <- index figure.(Pontos) i ;;
    if negb (String.eqb ponto.(Nome) "")
    then
      setColor cfg.(LineColor) ;;;
      call (DrawString ponto.(Nome) (p2D.(sX) + lit 5) (p2D.(sY) - lit 5)) ;;;
      setColor cfg.(VertexColor)
    else ret tt
  else ret tt.

Definition drawLabel (figure : Figure) (cfg : RenderConfig)
    (ip : Z * Point2D) : Draw unit :=
  let (i, p2D) := ip in
  ponto <- index figure.(Pontos) i ;;
  if String.eqb ponto.(Nome) "" then ret tt
  else
    setColor cfg.(LineColor) ;;;
    call (DrawString ponto.(Nome) (p2D.(sX) + lit 5) (p2D.(sY) - lit 5)).

Definition renderBody (r : Renderer3D) (figure : Figure) (cfg : RenderConfig)
    : Draw (option error) :=
  if (Z.of_nat (length figure.(Pontos)) =? 0)%Z
  then ret (Some (Errorf "figura não possui pontos"))
  else
    setColor cfg.(Background) ;;;
    call Clear ;;;
    setColor cfg.(LineColor) ;;;
    call (SetLineWidth cfg.(LineWidth)) ;;;
    let pontos2D := map (ProjectPoint r) figure.(Pontos) in
    forEach figure.(Linhas) (drawEdge pontos2D) ;;;
    (if cfg.(ShowVertices)
     then
       setColor cfg.(VertexColor) ;;;
       forEach (enumerate 0 pontos2D) (drawVertex figure cfg) ;;;
       setColor cfg.(LineColor)
     else if cfg.(ShowLabels)
     then
       forEach (enumerate 0 pontos2D) (drawLabel figure cfg) ;;;
       setColor cfg.(LineColor)
     else ret tt) ;;;
    ret None.

Definition RenderFigureWithConfig (r : Renderer3D) (figure : option Figure)
    (cfg : RenderConfig) : outcome (option error) :=
  match figure with
  | None => Panicked NilDereference r.(context)
  | Some figure => renderBody r figure cfg r.(context)
  end.

Definition RenderFigure (r : Renderer3D) (figure : option Figure)
    : outcome (option error) :=
  RenderFigureWithConfig r figure DefaultRenderConfig.

(** *** internal/renderer: the reference grid *)

(** [for x := start; x < limit; x += 50 { body(x) }].  The counter is an
    [int], and [x += 50] wraps around.  The loop need not end, so it runs on
    fuel: the result is [None] when the fuel is used up before the loop has
    ended. *)
Fixpoint forStep50 (fuel : nat) (x limit : Z) (body : Z -> Draw unit)
    (ctx : ggContext) : option (outcome unit) :=
  match fuel with
  | O => None
  | S fuel' =>
      if (x <? limit)%Z
      then
        match body x ctx with
        | Returned _ ctx' => forStep50 fuel' (wrapInt (x + 50)) limit body ctx'
        | Panicked p ctx' => Some (Panicked p ctx')
        end
      else Some (Returned tt ctx)
  end.

Definition AddGrid (fuel : nat) (r : Renderer3D) : option (outcome unit) :=
  match (call (SetRGB (lit (9 # 10)) (lit (9 # 10)) (lit (9 # 10))) ;;;
         call (SetLineWidth (lit (5 # 10)))) r.(context) with
  | Panicked p ctx => Some (Panicked p ctx)
  | Returned _ ctx =>
      match forStep50 fuel 0 r.(width)
              (fun x =>
                 call (MoveTo (of_int x) (lit 0)) ;;;
                 call (LineTo (of_int x) (of_int r.(height))) ;;;
                 call Stroke) ctx with
      | None => None
      | Some (Panicked p ctx) => Some (Panicked p ctx)
      | Some (Returned _ ctx) =>
          match forStep50 fuel 0 r.(height)
                  (fun y =>
                     call (MoveTo (lit 0) (of_int y)) ;;;
                     call (LineTo (of_int r.(width)) (of_int y)) ;;;
                     call Stroke) ctx with
          | None => None
          | Some (Panicked p ctx) => Some (Panicked p ctx)
          | Some (Returned _ ctx) =>
              Some ((call (SetRGB (lit 0) (lit 0) (lit 0)) ;;;
                     call (SetLineWidth (lit 1))) ctx)
          end
      end
  end.

(** *** cmd/figuras3d: generating a PNG *)

(** The canvas of [generatePNG] (and of the viewer): 800 x 600, each
    dimension replaced by the one of the render settings when that is
    positive. *)
Definition canvasSize (figura : Figure) : Z * Z :=
  let width := 800%Z in
  let height := 600%Z in
  match figura.(Render) with
  | None => (width, height)
  | Some settings =>
      let width := if (settings.(rsCanvasWidth) >? 0)%Z
                   then settings.(rsCanvasWidth) else width in
      let height := if (settings.(rsCanvasHeight) >? 0)%Z
                    then settings.(rsCanvasHeight) else height in
      (width, height)
  end.

(** How [generatePNG] ends: it returns after the image was saved, or
    [log.Fatalf] ends the process with a message prefix and an error, or a
    panic does.  Each carries the lines printed so far. *)
Inductive pngRun : Type :=
| Saved (stdout : list string) (outputFile : string) (image : ggContext)
| Fatal (stdout : list string) (msg : string) (err : error)
| Crashed (stdout : list string) (p : panic).

Section GeneratePNG.

(** The external steps: reading and parsing the file, [gg.NewContext], and
    [SavePNG] of the drawing surface.  [gg.NewContext] allocates the pixels
    of the canvas and panics when it cannot, as for a canvas whose number of
    bytes overflows; [NewContext width height] tells whether it returns. *)
Variable ReadFile : string -> string * option error.
Variable Unmarshal : string -> Figure * option error.
Variable NewContext : Z -> Z -> bool.
Variable SavePNG : ggContext -> string -> option error.

Definition generatePNG (yamlFile : string) : pngRun :=
  let out := ["Gerando PNG para: " ++ yamlFile] in
  match LoadFigureFromYAML ReadFile Unmarshal yamlFile with
  | (_, Some err) => Fatal out "Erro ao carregar arquivo YAML: " err
  | (None, None) => Crashed out NilDereference
  | (Some figura, None) =>
      let out :=
        app out
          [("Renderizando figura: " ++ figura.(figNome))%string;
           ("Pontos 3D: " ++ itoa (Z.of_nat (length figura.(Pontos))))%string;
           ("Linhas: " ++ itoa (Z.of_nat (length figura.(Linhas))))%string] in
      let (width, height) := canvasSize figura in
      match ConfigFromFigure (Some figura) with
      | (_, Some err) => Fatal out "Erro na configuração de renderização: " err
      | (renderCfg, None) =>
          if negb (NewContext width height)
          then Crashed out (LibraryPanic "gg.NewContext")
          else
          let r := New width height in
          let r := SetCamera r figura.(figCamera) in
          match RenderFigureWithConfig r (Some figura) renderCfg with
          | Panicked p _ => Crashed out p
          | Returned (Some err) _ => Fatal out "Erro ao renderizar figura: " err
          | Returned None image =>
              let outputFile := "output/" ++ figura.(figNome) ++ ".png" in
              match SavePNG image outputFile with
              | Some err => Fatal out "Erro ao salvar imagem: " err
              | None =>
                  Saved
                    (app out
                       [("Imagem salva: " ++ outputFile)%string;
                        "Dica: Use 'figuras3d view' para visualizar interativo!"])
                    outputFile image
              end
          end
      end
  end.

End GeneratePNG.

End Program.

Arguments Point3D F : clear implicits.
Arguments Point2D F : clear implicits.
Arguments RenderSettings F : clear implicits.
Arguments Camera F : clear implicits.
Arguments Figure F : clear implicits.
Arguments DrawOp F : clear implicits.
Arguments ggContext F : clear implicits.
Arguments Renderer3D F : clear implicits.
Arguments colorRGB F : clear implicits.
Arguments RenderConfig F : clear implicits.
Arguments outcome F A : clear implicits.
Arguments Draw F A : clear implicits.
Arguments pngRun F : clear implicits.

(** ** Vocabulary of the statements *)

(** The position of a byte in a text, counted from [i]. *)
Fixpoint positionIn (c : ascii) (s : string) (i : Z) : option Z :=
  match s with
  | EmptyString => None
  | String d s' => if Ascii.eqb c d then Some i else positionIn c s' (i + 1)
  end.

(** The value of a hexadecimal digit, of either case: its position among the
    sixteen digits. *)
Definition hexDigitValue (c : ascii) : option Z :=
  match positionIn c "0123456789abcdef" 0 with
  | Some d => Some d
  | None => positionIn c "0123456789ABCDEF" 0
  end.

(** The byte two hexadecimal digits denote. *)
Definition hexByte (hi lo : ascii) : option Z :=
  match hexDigitValue hi, hexDigitValue lo with
  | Some x, Some y => Some (16 * x + y)
  | _, _ => None
  end.

Fixpoint allHex (s : string) : bool :=
  match s with
  | EmptyString => true
  | String c s' =>
      match hexDigitValue c with
      | Some _ => allHex s'
      | None => false
      end
  end.

(** A normalised colour text without its leading [#], if it has one. *)
Definition stripHash (v : string) : string :=
  match v with
  | String "#" rest => rest
  | _ => v
  end.

(** A text with each of its characters written twice, and the expansion of
    a 3-character form, as the specification words it. *)
Fixpoint doubled (v : string) : string :=
  match v with
  | EmptyString => EmptyString
  | String c v' => String c (String c (doubled v'))
  end.

Definition expandShort (v : string) : string :=
  if (len v =? 3)%Z then doubled v else v.

(** The hexadecimal form [parseColor] computes from a normalised colour text:
    the [#] stripped, then a form of three bytes expanded by the loop of the
    source, which writes each of its runes twice. *)
Definition hexForm (v : string) : string :=
  let v := stripHash v in
  if (len v =? 3)%Z then duplicateEach v else v.

Section Vocabulary.

Context {F : Type} {arith : Arith F}.
#[local] Open Scope float_scope.

(** The camera [c] with its distance replaced. *)
Definition withDistance (c : Camera F) (d : F) : Camera F :=
  {| Observer := c.(Observer); Distance := d;
     Width := c.(Width); Height := c.(Height) |}.

(** The depth [pz] of [ProjectPoint], after the clamp at 0.1. *)
Definition clampedDepth (r : Renderer3D F) (p : Point3D F) : F :=
  let pz := p.(pY) - r.(camera).(Observer).(pY) in
  if pz <=? lit (1 # 10) then lit (1 # 10) else pz.

(** A projected and scaled coordinate, [coord * distance / pz * scale]. *)
Definition scaledOffset (coord distance pz scale : F) : F :=
  coord * distance / pz * scale.

(** The terms [projX * scaleX] and [projY * scaleY] that [ProjectPoint] adds
    to and subtracts from the centre. *)
Definition offsetX (r : Renderer3D F) (p : Point3D F) : F :=
  scaledOffset (p.(pX) - r.(camera).(Observer).(pX)) r.(camera).(Distance)
    (clampedDepth r p) (of_int r.(width) / r.(camera).(Width)).

Definition offsetY (r : Renderer3D F) (p : Point3D F) : F :=
  scaledOffset (p.(pZ) - r.(camera).(Observer).(pZ)) r.(camera).(Distance)
    (clampedDepth r p) (of_int r.(height) / r.(camera).(Height)).

(** The override a tri-state flag asks for: a nil pointer keeps the default. *)
Definition triState (flag : option bool) (default : bool) : bool :=
  match flag with
  | Some b => b
  | None => default
  end.

(** The render settings a figure pointer leads to, if any. *)
Definition settingsOf (fig : option (Figure F)) : option (RenderSettings F) :=
  match fig with
  | Some f => f.(Render)
  | None => None
  end.

(** Two configurations that differ in colours at most. *)
Definition sameStrokes (cfg cfg' : RenderConfig F) : Prop :=
  cfg'.(LineWidth) = cfg.(LineWidth)
  /\ cfg'.(ShowVertices) = cfg.(ShowVertices)
  /\ cfg'.(ShowLabels) = cfg.(ShowLabels).

(** An edge index that names a point of a list of [n] points. *)
Definition inRange (n : Z) (i : Z) : Prop := (0 <= i <= n - 1)%Z.

Definition validLine (n : Z) (linha : Line) : Prop :=
  inRange n linha.(P1) /\ inRange n linha.(P2).

(** The message of [validateFigure] for line [i], whose field [field] holds
    the index [idx], in a figure of [n] points. *)
Definition invalidIndexMessage (i : Z) (field : string) (idx n : Z) : string :=
  "linha " ++ itoa i ++ " referencia ponto " ++ field ++ " inválido: "
  ++ itoa idx ++ " (deve estar entre 0 e " ++ itoa (n - 1) ++ ")".

(** The strokes of one edge over the projected points: a segment between
    its two points when both indices are in range, nothing otherwise. *)
Definition edgeStrokes (pontos2D : list (Point2D F)) (linha : Line)
    : list (DrawOp F) :=
  match pontos2D !! Z.to_nat linha.(P1), pontos2D !! Z.to_nat linha.(P2) with
  | Some p1, Some p2 =>
      if (0 <=? linha.(P1))%Z && (0 <=? linha.(P2))%Z
      then [MoveTo p1.(sX) p1.(sY); LineTo p2.(sX) p2.(sY); Stroke]
      else []
  | _, _ => []
  end.

(** The disc of a vertex, with its label when labels are on and the point
    has a name. *)
Definition vertexMarker (cfg : RenderConfig F) (pp : Point3D F * Point2D F)
    : list (DrawOp F) :=
  let (ponto, p2D) := pp in
  [DrawCircle p2D.(sX) p2D.(sY) (lit 2); Fill]
  ++ (if cfg.(ShowLabels) && negb (String.eqb ponto.(Nome) "")
      then [SetRGB cfg.(LineColor).(R) cfg.(LineColor).(G) cfg.(LineColor).(B);
            DrawString ponto.(Nome) (p2D.(sX) + lit 5) (p2D.(sY) - lit 5);
            SetRGB cfg.(VertexColor).(R) cfg.(VertexColor).(G) cfg.(VertexColor).(B)]
      else []).

(** The label of a named point, without disc. *)
Definition labelMarker (cfg : RenderConfig F) (pp : Point3D F * Point2D F)
    : list (DrawOp F) :=
  let (ponto, p2D) := pp in
  if String.eqb ponto.(Nome) "" then []
  else [SetRGB cfg.(LineColor).(R) cfg.(LineColor).(G) cfg.(LineColor).(B);
        DrawString ponto.(Nome) (p2D.(sX) + lit 5) (p2D.(sY) - lit 5)].

(** The background and line style every render starts with. *)
Definition preamble (cfg : RenderConfig F) : list (DrawOp F) :=
  [SetRGB cfg.(Background).(R) cfg.(Background).(G) cfg.(Background).(B);
   Clear;
   SetRGB cfg.(LineColor).(R) cfg.(LineColor).(G) cfg.(LineColor).(B);
   SetLineWidth cfg.(LineWidth)].

(** The markers the configuration asks for: discs, with labels when both
    flags are on; labels alone; or nothing. *)
Definition markers (r : Renderer3D F) (figure : Figure F) (cfg : RenderConfig F)
    : list (DrawOp F) :=
  let pontos2D := map (ProjectPoint r) figure.(Pontos) in
  if cfg.(ShowVertices)
  then [SetRGB cfg.(VertexColor).(R) cfg.(VertexColor).(G) cfg.(VertexColor).(B)]
       ++ flat_map (vertexMarker cfg) (combine figure.(Pontos) pontos2D)
       ++ [SetRGB cfg.(LineColor).(R) cfg.(LineColor).(G) cfg.(LineColor).(B)]
  else if cfg.(ShowLabels)
  then flat_map (labelMarker cfg) (combine figure.(Pontos) pontos2D)
       ++ [SetRGB cfg.(LineColor).(R) cfg.(LineColor).(G) cfg.(LineColor).(B)]
  else [].

(** What a render adds to the surface: the preamble, the strokes of the edges
    in range, then the markers. *)
Definition drawing (r : Renderer3D F) (figure : Figure F) (cfg : RenderConfig F)
    : list (DrawOp F) :=
  preamble cfg
  ++ flat_map (edgeStrokes (map (ProjectPoint r) figure.(Pontos))) figure.(Linhas)
  ++ markers r figure cfg.

(** No index of the line is negative. *)
Definition nonNegative (linha : Line) : Prop :=
  (0 <= linha.(P1))%Z /\ (0 <= linha.(P2))%Z.

(** The lines a render of [n] points gets past: an index at or beyond [n]
    makes the guard skip the line, and otherwise no index may be negative. *)
Definition tolerated (n : Z) (linha : Line) : Prop :=
  (n <= linha.(P1))%Z \/ (n <= linha.(P2))%Z \/ nonNegative linha.

(** The normalised component [parseHexComponent] computes for a byte. *)
Definition normalized (v : Z) : F :=
  Round ((of_int v / lit 255) * lit 1000) / lit 1000.

End Vocabulary.

(** In binary64: scaling the component [x] back to 0..255 and rounding gives
    an integer within 1 of the byte [v]. *)
Definition rescalesTo (x : B64.float64) (v : Z) : Prop :=
  exists n : Z,
    B64.to_Z (Round (fmul x (lit 255))) = Some n /\ (Z.abs (n - v) <= 1)%Z.

Definition rescalesTob (x : B64.float64) (v : Z) : bool :=
  match B64.to_Z (Round (fmul x (lit 255))) with
  | Some n => (Z.abs (n - v) <=? 1)%Z
  | None => false
  end.

(** In binary64: the exact offsets of two screen coordinates [s1], [s2] from
    the centre [center] are finite and the second is twice the first. *)
Definition offsetDoubles (center s1 s2 : B64.float64) : Prop :=
  exists c x1 x2 : Q,
    B64.to_Q center = Some c /\ B64.to_Q s1 = Some x1 /\ B64.to_Q s2 = Some x2 /\
    (x2 - c == 2 * (x1 - c))%Q.

(** The double of a finite binary64 number, by its exponent. *)
Definition dbl (x : B64.float64) : B64.float64 :=
  match x with
  | S754_finite s m e => S754_finite s m (e + 1)
  | _ => x
  end.

(** The same, with the overflow to infinity at the top of the range. *)
Definition lift1 (z : B64.float64) : B64.float64 :=
  match z with
  | S754_finite s m e =>
      if (e + 1 <=? B64.emax - B64.prec)%Z then S754_finite s m (e + 1)
      else S754_infinity s
  | _ => z
  end.

(** A result that can be doubled without overflow. *)
Definition room (z : B64.float64) : Prop :=
  match z with
  | S754_finite _ _ e => (e < B64.emax - B64.prec)%Z
  | _ => True
  end.

(** The product of [x] and [y] is rounded in the normal range, above the
    subnormal numbers, and can be doubled. *)
Definition steadyMul (x y : B64.float64) : Prop :=
  match x, y with
  | S754_finite _ mx ex, S754_finite _ my ey =>
      (emin B64.prec B64.emax
       <= Zdigits2 (Zpos (mx * my)) + (ex + ey) - B64.prec)%Z
  | _, _ => True
  end /\ room (fmul x y).

(** The quotient of [x] by [y] is rounded in the normal range and can be
    doubled. *)
Definition steadyDiv (x y : B64.float64) : Prop :=
  match x, y with
  | S754_finite _ mx ex, S754_finite _ my ey =>
      (emin B64.prec B64.emax
       <= Zdigits2 (Zpos mx) + ex - (Zdigits2 (Zpos my) + ey) - B64.prec)%Z
      /\ (let '(q, e', _) :=
            SFdiv_core_binary B64.prec B64.emax (Zpos mx) ex (Zpos my) ey in
          (emin B64.prec B64.emax <= Zdigits2 q + e' - B64.prec)%Z)
  | _, _ => True
  end /\ room (fdiv x y).

(** The three operations of a scaled offset are steady. *)
Definition steadyOffset (coord distance pz scale : B64.float64) : Prop :=
  steadyMul coord distance
  /\ steadyDiv (fmul coord distance) pz
  /\ steadyMul (fdiv (fmul coord distance) pz) scale.

(** *** Sample inputs, in binary64 *)

Definition point64 (x y z : Q) (nome : string) : Point3D B64.float64 :=
  {| pX := lit x; pY := lit y; pZ := lit z; Nome := nome |}.

(** An 800 x 600 renderer with the default camera. *)
Definition renderer800 : Renderer3D B64.float64 :=
  SetCamera (New 800 600) DefaultCamera.

(** The same renderer with the camera distance doubled, from 10 to 20. *)
Definition renderer800_doubled : Renderer3D B64.float64 :=
  SetCamera (New 800 600)
    (withDistance DefaultCamera (fmul (lit 2) (Distance DefaultCamera))).

(** The default camera moved away to the distance 1e308, whose double is
    beyond the largest float64, and a point a thousandth off the axis. *)
Definition cameraRemote : Camera B64.float64 :=
  withDistance DefaultCamera (lit (inject_Z (10 ^ 308))).

Definition pointNearAxis : Point3D B64.float64 :=
  point64 (1 # 1000) 7 (1 # 1000) "".

(** One point and one edge whose first index is -1. *)
Definition figureNegativeP1 : Figure B64.float64 :=
  {| figNome := "negative_p1";
     Pontos := [point64 0 5 0 ""];
     Linhas := [ {| P1 := -1; P2 := 0 |} ];
     figCamera := DefaultCamera;
     Render := None |}.

(** Two points, a valid edge, and an edge whose second index is -1. *)
Definition figureNegativeP2 : Figure B64.float64 :=
  {| figNome := "negative_p2";
     Pontos := [point64 0 5 0 ""; point64 1 5 1 ""];
     Linhas := [ {| P1 := 0; P2 := 1 |}; {| P1 := 0; P2 := -1 |} ];
     figCamera := DefaultCamera;
     Render := None |}.

(** One point and one edge whose second index, 5, is beyond the points. *)
Definition figureInvalidLine : Figure B64.float64 :=
  {| figNome := "invalid_line";
     Pontos := [point64 0 5 0 ""];
     Linhas := [ {| P1 := 0; P2 := 5 |} ];
     figCamera := DefaultCamera;
     Render := None |}.

(** A single point and a loop edge, with the camera left unset. *)
Definition figureNoCamera : Figure B64.float64 :=
  {| figNome := "simple_test";
     Pontos := [point64 0 5 0 ""];
     Linhas := [ {| P1 := 0; P2 := 0 |} ];
     figCamera := zeroCamera;
     Render := None |}.

(** A file system and a parser that deliver [figureNoCamera]. *)
Definition sampleReadFile (filename : string) : string * option error :=
  ("nome: simple_test", None).

Definition sampleUnmarshal (data : string) : Figure B64.float64 * option error :=
  (figureNoCamera, None).



(** A square with two named corners, and an edge to a point that is missing. *)
Definition figureSquare : Figure B64.float64 :=
  {| figNome := "square";
     Pontos := [point64 (-1) 5 (-1) "A"; point64 1 5 (-1) "";
                point64 1 5 1 "C"; point64 (-1) 5 1 ""];
     Linhas := [ {| P1 := 0; P2 := 1 |}; {| P1 := 1; P2 := 2 |};
                 {| P1 := 2; P2 := 3 |}; {| P1 := 3; P2 := 0 |};
                 {| P1 := 0; P2 := 4 |} ];
     figCamera := DefaultCamera;
     Render := None |}.

(** The default configuration with vertices and labels on. *)
Definition configWithMarkers : RenderConfig B64.float64 :=
  withShowLabels (withShowVertices DefaultRenderConfig true) true.

(** A figure with render settings: colours, a line width of 2.5, vertices on
    and labels explicitly off. *)
Definition figureWithSettings : Figure B64.float64 :=
  {| figNome := "test";
     Pontos := [];
     Linhas := [];
     figCamera := zeroCamera;
     Render := Some {| rsCanvasWidth := 0; rsCanvasHeight := 0;
                       rsBackground := "black"; rsLineColor := "#ff0000";
                       rsVertexColor := "#0000ff"; rsLineWidth := lit (25 # 10);
                       rsShowVertices := Some true; rsShowLabels := Some false |} |}.

(** *** Vocabulary of the further properties *)

Section Observations.

Context {F : Type} {arith : Arith F} {lib : Strings}.

Definition isStroke (op : DrawOp F) : bool :=
  match op with Stroke => true | _ => false end.

Definition isCircle (op : DrawOp F) : bool :=
  match op with DrawCircle _ _ _ => true | _ => false end.

Definition isText (op : DrawOp F) : bool :=
  match op with DrawString _ _ _ => true | _ => false end.

(** How many calls of a kind a sequence holds. *)
Definition countOp (kind : DrawOp F -> bool) (ops : list (DrawOp F)) : nat :=
  length (List.filter kind ops).

Definition setsColor (op : DrawOp F) : bool :=
  match op with SetRGB _ _ _ => true | _ => false end.

Definition setsLineWidth (op : DrawOp F) : bool :=
  match op with SetLineWidth _ => true | _ => false end.

(** The colour and the line width in force after a sequence of calls, from
    those in force before it: those of the last [SetRGB] and of the last
    [SetLineWidth]. *)
Definition colorAfter (start : option (F * F * F)) (ops : list (DrawOp F))
    : option (F * F * F) :=
  fold_left (fun acc op => match op with
                           | SetRGB r g b => Some (r, g, b)
                           | _ => acc
                           end) ops start.

Definition lineWidthAfter (start : option F) (ops : list (DrawOp F)) : option F :=
  fold_left (fun acc op => match op with
                           | SetLineWidth w => Some w
                           | _ => acc
                           end) ops start.

(** The colour and the line width a surface is left with. *)
Definition currentColor (ctx : ggContext F) : option (F * F * F) :=
  colorAfter None ctx.

Definition currentLineWidth (ctx : ggContext F) : option F :=
  lineWidthAfter None ctx.

(** The colour a colour setting asks for: the default when the setting is
    empty, what [parseColor] makes of it otherwise. *)
Definition colorOr (setting : string) (default : colorRGB F) : colorRGB F :=
  if String.eqb setting "" then default else fst (parseColor setting).

(** The points of a figure that carry a name. *)
Definition namedPoints (figure : Figure F) : list (Point3D F) :=
  List.filter (fun ponto => negb (String.eqb ponto.(Nome) "")) figure.(Pontos).

(** The multiples of 50 from 0 up to, and without, [limit]. *)
Definition gridPositions (limit : Z) : list Z :=
  map (fun k => (50 * Z.of_nat k)%Z) (seq 0 (Z.to_nat ((limit + 49) / 50))).

(** The vertical grid line at [x] and the horizontal one at [y]. *)
Definition verticalLine (r : Renderer3D F) (x : Z) : list (DrawOp F) :=
  [MoveTo (of_int x) (lit 0); LineTo (of_int x) (of_int r.(height)); Stroke].

Definition horizontalLine (r : Renderer3D F) (y : Z) : list (DrawOp F) :=
  [MoveTo (lit 0) (of_int y); LineTo (of_int r.(width)) (of_int y); Stroke].

End Observations.

(** [v/255] to three decimals: the nearest multiple of 1/1000. *)
Definition threeDecimals (v : Z) : Q := ((2000 * v + 255) / 510) # 1000.

(** Two doubles that are the same datum. *)
Definition sameFloat (x y : B64.float64) : bool :=
  match x, y with
  | S754_zero s, S754_zero t => Bool.eqb s t
  | S754_infinity s, S754_infinity t => Bool.eqb s t
  | S754_nan, S754_nan => true
  | S754_finite s m e, S754_finite t n f =>
      Bool.eqb s t && Pos.eqb m n && Z.eqb e f
  | _, _ => false
  end.

(** A double between 0 and 1, ends included. *)
Definition inUnitRange (x : B64.float64) : bool :=
  fleb (lit 0) x && fleb x (lit 1).

(** A double that is a number: not NaN. *)
Definition isNumber (x : B64.float64) : bool :=
  match x with S754_nan => false | _ => true end.

(** A double that is zero or finite. *)
Definition isFinite (x : B64.float64) : bool :=
  match x with S754_zero _ | S754_finite _ _ _ => true | _ => false end.

(** *** The exact value of a double and the unit in its last place *)

(** 2^e, as a rational. *)
Definition pow2 (e : Z) : Q :=
  if (0 <=? e)%Z then inject_Z (2 ^ e) else 1 # Pos.shiftl 1 (Z.to_N (- e)).

(** The exact value of a finite double, mantissa times 2^exponent; [B64.to_Q]
    is this number. *)
Definition exactValue (x : B64.float64) : Q :=
  match x with
  | S754_finite s m e => inject_Z (cond_Zopp s (Zpos m)) * pow2 e
  | _ => 0
  end.

(** The unit in the last place of a double: the weight of the last bit of
    its mantissa, and the smallest positive double for a zero. *)
Definition ulp (x : B64.float64) : Q :=
  match x with
  | S754_finite _ _ e => pow2 e
  | _ => pow2 (emin B64.prec B64.emax)
  end.

(** The double [z] is within half a unit in its last place of [q]. *)
Definition nearest (q : Q) (z : B64.float64) : Prop :=
  (- ulp z <= 2 * (exactValue z - q) <= ulp z)%Q.

(** A distance that doubles without rounding: a zero, or a normal number
    below the largest binade. *)
Definition normalNumber (x : B64.float64) : Prop :=
  match x with
  | S754_zero _ => True
  | S754_finite _ m e =>
      Zpos (digits2_pos m) = B64.prec
      /\ (emin B64.prec B64.emax <= e < B64.emax - B64.prec)%Z
  | _ => False
  end.

(** In binary64: the screen coordinates [s1] and [s2] and the centre are
    finite, and the offset of [s2] from the centre is twice the offset of [s1]
    up to the rounding of the two coordinates: the difference is at most one
    unit in the last place of [s1] plus half a unit in the last place of
    [s2]. *)
Definition doublesWithin (center s1 s2 : B64.float64) : Prop :=
  exists c x1 x2 : Q,
    B64.to_Q center = Some c /\ B64.to_Q s1 = Some x1 /\ B64.to_Q s2 = Some x2 /\
    (- (ulp s1 + (1 # 2) * ulp s2) <= (x2 - c) - 2 * (x1 - c)
     <= ulp s1 + (1 # 2) * ulp s2)%Q.

(** What the right shifts of [shr] keep of the integer [m] after [k] steps:
    the quotient by 2^k, with the remainder summarised by the round and
    sticky bits. *)
Definition shifted (m k : Z) (mrs : shr_record) : Prop :=
  (0 <= shr_m mrs)%Z /\
  exists rem : Z,
    (m = shr_m mrs * 2 ^ k + rem)%Z /\ (0 <= rem < 2 ^ k)%Z /\
    match shr_r mrs, shr_s mrs with
    | false, false => rem = 0%Z
    | false, true => (0 < 2 * rem < 2 ^ k)%Z
    | true, false => (2 * rem = 2 ^ k)%Z
    | true, true => (2 ^ k < 2 * rem)%Z
    end.

(** What [binary_round_aux] returns for the exact integer [m] at the
    exponent [e]: the same sign, an exponent not below [e], and a mantissa
    within half a unit of [m] at that exponent. *)
Definition roundedFrom (s : bool) (m e : Z) (z : B64.float64) : Prop :=
  match z with
  | S754_finite s' m' e' =>
      s' = s /\ (e <= e')%Z
      /\ (2 * (Zpos m' * 2 ^ (e' - e) - m) <= 2 ^ (e' - e))%Z
      /\ (2 * (m - Zpos m' * 2 ^ (e' - e)) <= 2 ^ (e' - e))%Z
  | S754_zero s' =>
      s' = s /\ (e <= emin B64.prec B64.emax)%Z
      /\ (2 * m <= 2 ^ (emin B64.prec B64.emax - e))%Z
  | _ => True
  end.

(** Render settings whose line colour does not parse; the background does. *)
Definition figureBadLineColor : Figure B64.float64 :=
  {| figNome := "bad_line_color";
     Pontos := [point64 0 5 0 ""];
     Linhas := [ {| P1 := 0; P2 := 0 |} ];
     figCamera := DefaultCamera;
     Render := Some {| rsCanvasWidth := 0; rsCanvasHeight := 0;
                       rsBackground := "black"; rsLineColor := "#12345";
                       rsVertexColor := "red"; rsLineWidth := lit 3;
                       rsShowVertices := Some true; rsShowLabels := Some true |} |}.

(** * Properties *)

Section Properties.

Context {F : Type} {arith : Arith F} {lib : Strings}.
#[local] Open Scope float_scope.

(** ** The projector *)

(** C1. For every point, camera and screen size, [ProjectPoint] on the
    renderer made by [New] and [SetCamera] is the conic-perspective point:
    [px = p.X - observer.X], [py = p.Z - observer.Z] (world Z is the vertical
    axis), [pz = p.Y - observer.Y] (world Y is depth) replaced by 0.1 when
    [pz <= 0.1], [projX = px * Distance / pz], [projY = py * Distance / pz],
    and the result is [(w/2 + projX * (w / Width), h/2 - projY * (h / Height))]
    (screen Y flipped).  It holds in every arithmetic, binary64 included. *)
Theorem ProjectPoint_conic_perspective (p : Point3D F) (c : Camera F) (w h : Z) :
  let px := p.(pX) - c.(Observer).(pX) in
  let py := p.(pZ) - c.(Observer).(pZ) in
  let depth := p.(pY) - c.(Observer).(pY) in
  let pz := if depth <=? lit (1 # 10) then lit (1 # 10) else depth in
  let projX := px * c.(Distance) / pz in
  let projY := py * c.(Distance) / pz in
  ProjectPoint (SetCamera (New w h) c) p =
    {| sX := of_int w / lit 2 + projX * (of_int w / c.(Width));
       sY := of_int h / lit 2 - projY * (of_int h / c.(Height)) |}.
Proof. reflexivity. Qed.

(** World Z never reaches the horizontal screen coordinate, and world X never
    reaches the vertical one. *)
Lemma ProjectPoint_axes (r : Renderer3D F) (x y z x' z' : F) (n n' : string) :
  sX (ProjectPoint r {| pX := x; pY := y; pZ := z; Nome := n |}) =
  sX (ProjectPoint r {| pX := x; pY := y; pZ := z'; Nome := n' |})
  /\ sY (ProjectPoint r {| pX := x; pY := y; pZ := z; Nome := n |}) =
     sY (ProjectPoint r {| pX := x'; pY := y; pZ := z; Nome := n' |}).
Proof. split; reflexivity. Qed.

(** The projected point is the centre plus and minus the scaled offsets. *)
Lemma ProjectPoint_offsets (r : Renderer3D F) (p : Point3D F) :
  ProjectPoint r p = {| sX := r.(centerX) + offsetX r p;
                        sY := r.(centerY) - offsetY r p |}.
Proof. reflexivity. Qed.

(** ** The configuration builder *)

Lemma colorStep_ok setting msg assign cfg next cfg' :
  (forall c col, sameStrokes c (assign c col)) ->
  colorStep setting msg assign cfg next = (cfg', None) ->
  exists cfg1, sameStrokes cfg cfg1 /\ next cfg1 = (cfg', None).
Proof.
  intros Hassign. unfold colorStep. destruct (String.eqb setting "").
  - intros H. exists cfg. repeat split; assumption.
  - destruct (parseColor setting) as [col [err|]]; [discriminate |].
    intros H. exists (assign cfg col). split; [apply Hassign | assumption].
Qed.

(** C5. Whatever [ConfigFromFigure] returns: without render settings (a nil
    figure or a nil [Render]) it is the defaults, unchanged and without
    error: white background, black lines, line width 1.0, vertex colour
    (0.8, 0, 0), no vertices, no labels.  With settings, and no colour
    error, the line width is the supplied one when it is positive and the
    default 1.0 otherwise, and each of the two flags is the supplied
    boolean, true or false, when the pointer is set and the default [false]
    when it is nil. *)
Theorem ConfigFromFigure_defaults_and_overrides
    (fig : option (Figure F)) (cfg : RenderConfig F) (err : option error)
    (Hrun : ConfigFromFigure fig = (cfg, err)) :
  match settingsOf fig with
  | None =>
      err = None /\
      cfg = {| Background := {| R := lit 1; G := lit 1; B := lit 1 |};
               LineColor := {| R := lit 0; G := lit 0; B := lit 0 |};
               LineWidth := lit 1;
               VertexColor := {| R := lit (8 # 10); G := lit 0; B := lit 0 |};
               ShowVertices := false;
               ShowLabels := false |}
  | Some settings =>
      err = None ->
      cfg.(LineWidth) = (if lit 0 <? settings.(rsLineWidth)
                         then settings.(rsLineWidth) else lit 1)
      /\ cfg.(ShowVertices) = triState settings.(rsShowVertices) false
      /\ cfg.(ShowLabels) = triState settings.(rsShowLabels) false
  end.
Proof.
  destruct fig as [f|]; simpl.
  2:{ inversion Hrun. split; reflexivity. }
  unfold ConfigFromFigure in Hrun.
  destruct (Render f) as [settings|].
  2:{ inversion Hrun. split; reflexivity. }
  intros ->.
apply colorStep_ok in Hrun as (c1 & (W1 & V1 & L1) & Hrun);
    [| intros; repeat split].
  apply colorStep_ok in Hrun as (c2 & (W2 & V2 & L2) & Hrun);
    [| intros; repeat split].
  apply colorStep_ok in Hrun as (c3 & (W3 & V3 & L3) & Hrun);
    [| intros; repeat split].
  inversion Hrun; subst cfg; clear Hrun.
  assert (HW : LineWidth c3 = lit 1) by (rewrite W3, W2, W1; reflexivity).
  assert (HV : ShowVertices c3 = false) by (rewrite V3, V2, V1; reflexivity).
  assert (HL : ShowLabels c3 = false) by (rewrite L3, L2, L1; reflexivity).
  destruct (rsShowLabels settings), (rsShowVertices settings),
    (lit 0 <? rsLineWidth settings); simpl; auto.
Qed.

(** ** Loading and validation *)

Lemma len_cons_nonzero {A : Type} (x : A) (l : list A) :
  (Z.of_nat (length (x :: l)) =? 0)%Z = false.
Proof. apply Z.eqb_neq. simpl length. lia. Qed.

Lemma validLine_dec (n : Z) (linha : Line) :
  {validLine n linha} + {~ validLine n linha}.
Proof.
  unfold validLine, inRange.
  destruct (Z_le_dec 0 (P1 linha)), (Z_le_dec (P1 linha) (n - 1)),
    (Z_le_dec 0 (P2 linha)), (Z_le_dec (P2 linha) (n - 1));
    try (left; lia); right; lia.
Qed.

(** The loop stops at the first line with an index out of range and reports
    that line, the field, the index and the range; it returns nil when every
    line is valid. *)
Lemma validateLinhas_spec (n : Z) (linhas : list Line) (i : Z) :
  match validateLinhas n i linhas with
  | None => Forall (validLine n) linhas
  | Some err =>
      exists (k : nat) (linha : Line),
        linhas !! k = Some linha
        /\ Forall (validLine n) (take k linhas)
        /\ ((~ inRange n linha.(P1)
             /\ err = Errorf (invalidIndexMessage (i + Z.of_nat k) "P1" linha.(P1) n))
            \/ (inRange n linha.(P1) /\ ~ inRange n linha.(P2)
                /\ err = Errorf (invalidIndexMessage (i + Z.of_nat k) "P2" linha.(P2) n)))
  end.
Proof.
  revert i. induction linhas as [|linha rest IH]; intros i; simpl.
  - constructor.
  - destruct ((P1 linha <? 0)%Z || (P1 linha >=? n)%Z) eqn:E1.
    { exists 0%nat, linha. split; [reflexivity|]. split; [constructor|].
      left. split.
      - unfold inRange. apply orb_true_iff in E1 as [E|E]; lia.
      - rewrite Z.add_0_r. reflexivity. }
    destruct ((P2 linha <? 0)%Z || (P2 linha >=? n)%Z) eqn:E2.
    { exists 0%nat, linha. split; [reflexivity|]. split; [constructor|].
      right. apply orb_false_iff in E1 as [E1a E1b]. split; [|split].
      - unfold inRange. lia.
      - unfold inRange. apply orb_true_iff in E2 as [E|E]; lia.
      - rewrite Z.add_0_r. reflexivity. }
    apply orb_false_iff in E1 as [E1a E1b].
    apply orb_false_iff in E2 as [E2a E2b].
    assert (Hv : validLine n linha) by (unfold validLine, inRange; lia).
    specialize (IH (i + 1)%Z).
    destruct (validateLinhas n (i + 1) rest) as [err|].
    + destruct IH as (k & l & Hk & Hpre & Herr).
      exists (S k), l. split; [exact Hk|]. split; [constructor; assumption|].
      replace (i + Z.of_nat (S k))%Z with (i + 1 + Z.of_nat k)%Z by lia.
      exact Herr.
    + constructor; assumption.
Qed.

Lemma validateFigure_withCamera (figure : Figure F) (c : Camera F) :
  validateFigure (withCamera figure c) = validateFigure figure.
Proof. reflexivity. Qed.

(** What loading does once the file is read and parsed into [figure]: the
    camera is defaulted when its distance is zero, and the figure is
    validated. *)
Lemma LoadFigureFromYAML_parsed ReadFile Unmarshal filename data
    (figure : Figure F) :
  ReadFile filename = (data, None) ->
  Unmarshal data = (figure, None) ->
  LoadFigureFromYAML ReadFile Unmarshal filename =
    match validateFigure figure with
    | Some err => (None, Some (Wrapf "figura inválida: " err))
    | None =>
        (Some (withCamera figure
                 (if figure.(figCamera).(Distance) ==? lit 0
                  then DefaultCamera else figure.(figCamera))), None)
    end.
Proof.
  intros Hread Hparse. unfold LoadFigureFromYAML. rewrite Hread, Hparse.
  destruct (Distance (figCamera figure) ==? lit 0).
  - rewrite validateFigure_withCamera.
    destruct (validateFigure figure); reflexivity.
  - destruct (validateFigure figure); [reflexivity|].
    destruct figure; reflexivity.
Qed.

(** C3. [validateFigure] returns an error exactly when the figure has no
    point, or no line, or a line with an index outside [0, pointCount-1].
    With points and lines present, the error it returns is for the first
    such line and its message gives the line, the field, the offending index
    and the range [0 .. pointCount-1].  Nothing is repaired: when validation
    fails loading returns the wrapped error and no figure, and when it
    passes the loaded figure has the points and lines that were parsed. *)
Theorem validateFigure_error_iff (figure : Figure F) :
  let n := Z.of_nat (length figure.(Pontos)) in
  (validateFigure figure <> None <->
     figure.(Pontos) = [] \/ figure.(Linhas) = []
     \/ Exists (fun linha => ~ validLine n linha) figure.(Linhas))
  /\ (forall err,
        figure.(Pontos) <> [] -> figure.(Linhas) <> [] ->
        validateFigure figure = Some err ->
        exists (k : nat) (linha : Line),
          figure.(Linhas) !! k = Some linha
          /\ Forall (validLine n) (take k figure.(Linhas))
          /\ ((~ inRange n linha.(P1)
               /\ err = Errorf (invalidIndexMessage (Z.of_nat k) "P1" linha.(P1) n))
              \/ (inRange n linha.(P1) /\ ~ inRange n linha.(P2)
                  /\ err = Errorf (invalidIndexMessage (Z.of_nat k) "P2" linha.(P2) n))))
  /\ (forall ReadFile Unmarshal filename data,
        ReadFile filename = (data, None) ->
        Unmarshal data = (figure, None) ->
        match validateFigure figure with
        | Some err =>
            LoadFigureFromYAML ReadFile Unmarshal filename =
              (None, Some (Wrapf "figura inválida: " err))
        | None =>
            exists loaded,
              LoadFigureFromYAML ReadFile Unmarshal filename = (Some loaded, None)
              /\ loaded.(Pontos) = figure.(Pontos)
              /\ loaded.(Linhas) = figure.(Linhas)
        end).
Proof.
  intros n. subst n. split; [|split].
  - unfold validateFigure.
    destruct (Pontos figure) as [|p ps] eqn:EP.
    { simpl. split; [auto | discriminate]. }
    destruct (Linhas figure) as [|l ls] eqn:EL.
    { simpl. split; [auto | discriminate]. }
    rewrite (len_cons_nonzero p ps), (len_cons_nonzero l ls).
    pose proof (validateLinhas_spec (Z.of_nat (length (p :: ps))) (l :: ls) 0) as Hspec.
    destruct (validateLinhas (Z.of_nat (length (p :: ps))) 0 (l :: ls)) as [err|].
    + split; [|intros _; congruence]. intros _. right; right.
      destruct Hspec as (k & linha & Hk & _ & Hbad).
      apply Exists_exists. exists linha. split.
      * eapply list_elem_of_lookup_2; eassumption.
      * unfold validLine. destruct Hbad as [[H _]|(_ & H & _)]; tauto.
    + split; [congruence|]. intros [H|[H|H]]; try discriminate.
      apply Exists_exists in H as (linha & Hin & Hbad).
      rewrite Forall_forall in Hspec. exfalso. apply Hbad, Hspec.
      exact Hin.
  - intros err HP HL. unfold validateFigure.
    destruct (Pontos figure) as [|p ps]; [congruence|].
    destruct (Linhas figure) as [|l ls]; [congruence|].
    rewrite (len_cons_nonzero p ps), (len_cons_nonzero l ls).
    pose proof (validateLinhas_spec (Z.of_nat (length (p :: ps))) (l :: ls) 0) as Hspec.
    intros Herr. rewrite Herr in Hspec. exact Hspec.
  - intros ReadFile Unmarshal filename data Hread Hparse.
    rewrite (LoadFigureFromYAML_parsed _ _ _ _ _ Hread Hparse).
    destruct (validateFigure figure); [reflexivity|].
    eexists. split; [reflexivity|]. split; reflexivity.
Qed.

(** C9. When loading succeeds on a parsed figure, the loaded camera is the
    default camera as a whole (observer (0, 0, 0) without a name, distance
    10, width 12.8, height 9.6) if the parsed distance equals 0, and the
    parsed camera, unchanged, for every other distance. *)
Theorem LoadFigureFromYAML_default_camera ReadFile Unmarshal filename data
    (figure loaded : Figure F)
    (Hread : ReadFile filename = (data, None))
    (Hparse : Unmarshal data = (figure, None))
    (Hload : LoadFigureFromYAML ReadFile Unmarshal filename = (Some loaded, None)) :
  loaded.(figCamera) =
    if figure.(figCamera).(Distance) ==? lit 0
    then {| Observer := {| pX := lit 0; pY := lit 0; pZ := lit 0; Nome := "" |};
            Distance := lit 10;
            Width := lit (128 # 10);
            Height := lit (96 # 10) |}
    else figure.(figCamera).
Proof.
  rewrite (LoadFigureFromYAML_parsed _ _ _ _ _ Hread Hparse) in Hload.
  destruct (validateFigure figure); [discriminate|].
  inversion Hload; subst loaded; clear Hload. simpl.
  destruct (Distance (figCamera figure) ==? lit 0); reflexivity.
Qed.

End Properties.

(** ** Linearity in the camera distance *)

(** *** Doubling the distance doubles the scaled offsets *)

Lemma shr_nonpos (mrs : shr_record) (e n : Z) :
  (n <= 0)%Z -> shr mrs e n = (mrs, e).
Proof. destruct n; [reflexivity | lia | reflexivity]. Qed.

Lemma shr_pos (mrs : shr_record) (e n : Z) :
  (0 < n)%Z -> shr mrs e n = (fst (shr mrs 0 n), (e + n)%Z).
Proof. destruct n; [lia | reflexivity | lia]. Qed.

Lemma shr_shift (mrs : shr_record) (e n : Z) :
  shr mrs (e + 1) n = (fst (shr mrs e n), (snd (shr mrs e n) + 1)%Z).
Proof. destruct n; simpl; f_equal; lia. Qed.

Lemma lift1_leb (s : bool) (p : positive) (e : Z) :
  (if (e + 1 <=? B64.emax - B64.prec)%Z then S754_finite s p (e + 1)
   else S754_infinity s)
  = lift1 (if (e <=? B64.emax - B64.prec)%Z then S754_finite s p e
           else S754_infinity s).
Proof.
  destruct (Z.leb_spec e (B64.emax - B64.prec)); simpl.
  - reflexivity.
  - destruct (Z.leb_spec (e + 1) (B64.emax - B64.prec)); [lia | reflexivity].
Qed.

Lemma lift1_room (z : B64.float64) : room z -> lift1 z = dbl z.
Proof.
  destruct z as [| | |s m e]; simpl; try reflexivity.
  intros H. destruct (Z.leb_spec (e + 1) (B64.emax - B64.prec)); [reflexivity | lia].
Qed.

(** Above the subnormal range, rounding commutes with a shift of the exponent
    by one: the two shifts of [binary_round_aux] are by the same amounts. *)
Lemma binary_round_aux_shift (s : bool) (m e : Z) (l : location) :
  (emin B64.prec B64.emax <= Zdigits2 m + e - B64.prec)%Z ->
  binary_round_aux B64.prec B64.emax s m (e + 1) l =
  lift1 (binary_round_aux B64.prec B64.emax s m e l).
Proof.
  intros H1. unfold binary_round_aux, shr_fexp.
  replace (fexp B64.prec B64.emax (Zdigits2 m + (e + 1)) - (e + 1))%Z
    with (fexp B64.prec B64.emax (Zdigits2 m + e) - e)%Z by (unfold fexp; lia).
  rewrite shr_shift.
  destruct (shr (shr_record_of_loc m l) e
              (fexp B64.prec B64.emax (Zdigits2 m + e) - e)) as [mrs' e'] eqn:E1.
  cbn [fst snd].
  assert (He' : (emin B64.prec B64.emax <= e')%Z).
  { destruct (Z_le_dec (fexp B64.prec B64.emax (Zdigits2 m + e) - e) 0) as [Hn|Hn].
    - rewrite shr_nonpos in E1 by assumption. injection E1 as _ <-.
      unfold fexp in Hn. lia.
    - rewrite shr_pos in E1 by lia. injection E1 as _ <-. unfold fexp. lia. }
  set (m1 := round_nearest_even (shr_m mrs') (loc_of_shr_record mrs')).
  set (rec1 := shr_record_of_loc m1 loc_Exact).
  destruct (Z_le_dec (Zdigits2 m1) B64.prec) as [Hd|Hd].
  - rewrite (shr_nonpos rec1 (e' + 1)) by (unfold fexp; lia).
    rewrite (shr_nonpos rec1 e') by (unfold fexp; lia).
    destruct (shr_m rec1); try reflexivity. apply lift1_leb.
  - replace (fexp B64.prec B64.emax (Zdigits2 m1 + (e' + 1)) - (e' + 1))%Z
      with (fexp B64.prec B64.emax (Zdigits2 m1 + e') - e')%Z by (unfold fexp; lia).
    rewrite shr_shift.
    destruct (shr rec1 e' (fexp B64.prec B64.emax (Zdigits2 m1 + e') - e'))
      as [mrs'' e''].
    cbn [fst snd]. destruct (shr_m mrs''); try reflexivity. apply lift1_leb.
Qed.

Lemma fmul_dbl_r (x y : B64.float64) :
  steadyMul x y -> fmul x (dbl y) = dbl (fmul x y).
Proof.
  intros [H Hroom]. rewrite <- (lift1_room _ Hroom).
  destruct x as [| | |sx mx ex], y as [| | |sy my ey]; try reflexivity.
  simpl. replace (ex + (ey + 1))%Z with (ex + ey + 1)%Z by lia.
  apply binary_round_aux_shift. exact H.
Qed.

Lemma fmul_dbl_l (x y : B64.float64) :
  steadyMul x y -> fmul (dbl x) y = dbl (fmul x y).
Proof.
  intros [H Hroom]. rewrite <- (lift1_room _ Hroom).
  destruct x as [| | |sx mx ex], y as [| | |sy my ey]; try reflexivity.
  simpl. replace (ex + 1 + ey)%Z with (ex + ey + 1)%Z by lia.
  apply binary_round_aux_shift. exact H.
Qed.

Lemma SFdiv_core_binary_shift (m1 e1 m2 e2 : Z) :
  (emin B64.prec B64.emax <= Zdigits2 m1 + e1 - (Zdigits2 m2 + e2) - B64.prec)%Z ->
  SFdiv_core_binary B64.prec B64.emax m1 (e1 + 1) m2 e2 =
    let '(q, e', l) := SFdiv_core_binary B64.prec B64.emax m1 e1 m2 e2 in
    (q, (e' + 1)%Z, l).
Proof.
  intros H. unfold SFdiv_core_binary.
  replace (Z.min (fexp B64.prec B64.emax (Zdigits2 m1 + (e1 + 1) - (Zdigits2 m2 + e2)))
             (e1 + 1 - e2))
    with (Z.min (fexp B64.prec B64.emax (Zdigits2 m1 + e1 - (Zdigits2 m2 + e2)))
            (e1 - e2) + 1)%Z by (unfold fexp; lia).
  set (e' := Z.min (fexp B64.prec B64.emax (Zdigits2 m1 + e1 - (Zdigits2 m2 + e2)))
               (e1 - e2)).
  replace (e1 + 1 - e2 - (e' + 1))%Z with (e1 - e2 - e')%Z by lia.
  destruct (Z.div_eucl _ m2). reflexivity.
Qed.

Lemma fdiv_dbl_l (x y : B64.float64) :
  steadyDiv x y -> fdiv (dbl x) y = dbl (fdiv x y).
Proof.
  intros [H Hroom]. rewrite <- (lift1_room _ Hroom).
  destruct x as [| | |sx mx ex], y as [| | |sy my ey]; try reflexivity.
  destruct H as [H1 H2]. simpl.
  rewrite (SFdiv_core_binary_shift _ _ _ _ H1).
  destruct (SFdiv_core_binary B64.prec B64.emax (Zpos mx) ex (Zpos my) ey)
    as [[q e'] l].
  apply binary_round_aux_shift. exact H2.
Qed.

Lemma scaledOffset_dbl (coord distance pz scale : B64.float64) :
  steadyOffset coord distance pz scale ->
  scaledOffset coord (dbl distance) pz scale
  = dbl (scaledOffset coord distance pz scale).
Proof.
  intros (H1 & H2 & H3). unfold scaledOffset.
  rewrite (fmul_dbl_r _ _ H1), (fdiv_dbl_l _ _ H2), (fmul_dbl_l _ _ H3).
  reflexivity.
Qed.

Lemma shiftl_one_succ (n : N) :
  Pos.shiftl 1 (N.succ n) = ((Pos.shiftl 1 n)~0)%positive.
Proof. destruct n as [|k]; [reflexivity|]. simpl. apply Pos.iter_succ. Qed.

(** In binary64, when the products and the quotient behind the two offsets
    are steady, doubling the camera distance doubles both scaled offsets
    exactly: the projected point is the centre plus and minus the doubled
    offsets, and only this last addition and subtraction round. *)
Lemma ProjectPoint_offsets_double_binary64 (r : Renderer3D B64.float64)
    (c : Camera B64.float64) (p : Point3D B64.float64) :
  steadyOffset (fsub p.(pX) c.(Observer).(pX)) c.(Distance)
    (clampedDepth (SetCamera r c) p) (fdiv (of_int r.(width)) c.(Width)) ->
  steadyOffset (fsub p.(pZ) c.(Observer).(pZ)) c.(Distance)
    (clampedDepth (SetCamera r c) p) (fdiv (of_int r.(height)) c.(Height)) ->
  ProjectPoint (SetCamera r (withDistance c (dbl c.(Distance)))) p =
    {| sX := fadd r.(centerX) (dbl (offsetX (SetCamera r c) p));
       sY := fsub r.(centerY) (dbl (offsetY (SetCamera r c) p)) |}.
Proof.
  intros HX HY. rewrite ProjectPoint_offsets.
  unfold offsetX, offsetY.
  cbn [SetCamera camera width height centerX centerY withDistance
       Distance Observer Width Height].
  change (clampedDepth (SetCamera r (withDistance c (dbl (Distance c)))) p)
    with (clampedDepth (SetCamera r c) p).
  rewrite (scaledOffset_dbl _ _ _ _ HX), (scaledOffset_dbl _ _ _ _ HY).
  reflexivity.
Qed.

(** *** The last addition and subtraction *)

(** The shifts of [shr] divide by a power of two and keep what the rounding
    needs of the remainder. *)
Lemma shifted_start (m : Z) : (0 <= m)%Z -> shifted m 0 (shr_record_of_loc m loc_Exact).
Proof.
  intros Hm. split; [exact Hm|]. exists 0%Z. cbn. repeat split; lia.
Qed.

Lemma shifted_step (m k : Z) (mrs : shr_record) :
  (0 <= k)%Z -> shifted m k mrs -> shifted m (k + 1) (shr_1 mrs).
Proof.
  intros Hk [Hq (rem & Hm & Hrem & Hloc)]. unfold shifted.
  rewrite Z.pow_add_r, Z.pow_1_r by lia.
  assert (HP : (0 < 2 ^ k)%Z) by (apply Z.pow_pos_nonneg; lia).
  set (P := (2 ^ k)%Z) in *. clearbody P.
  destruct mrs as [q r s]. cbn [shr_m shr_r shr_s] in *.
  destruct q as [|[q|q|]|q]; try lia; cbn [shr_1 shr_m shr_r shr_s].
  - split; [lia|]. exists rem.
    split; [lia|]. split; [lia|].
    destruct r, s; cbn [orb]; lia.
  - split; [lia|]. exists (P + rem)%Z.
    rewrite Pos2Z.inj_xI in Hm.
    split; [lia|]. split; [lia|].
    destruct r, s; cbn [orb]; lia.
  - split; [lia|]. exists rem.
    rewrite Pos2Z.inj_xO in Hm.
    split; [lia|]. split; [lia|].
    destruct r, s; cbn [orb]; lia.
  - split; [lia|]. exists (P + rem)%Z.
    split; [lia|]. split; [lia|].
    destruct r, s; cbn [orb]; lia.
Qed.

Lemma shifted_iter (m : Z) (p : positive) :
  forall (k : Z) (mrs : shr_record),
    (0 <= k)%Z -> shifted m k mrs -> shifted m (k + Zpos p) (SpecFloat.iter_pos shr_1 p mrs).
Proof.
  induction p as [p IH|p IH|]; intros k mrs Hk H; cbn [SpecFloat.iter_pos].
  - replace (k + Zpos p~1)%Z with (k + 1 + Zpos p + Zpos p)%Z by lia.
    apply IH; [lia|]. apply IH; [lia|]. apply shifted_step; assumption.
  - replace (k + Zpos p~0)%Z with (k + Zpos p + Zpos p)%Z by lia.
    apply IH; [lia|]. apply IH; assumption.
  - apply shifted_step; assumption.
Qed.

(** Rounding to nearest after a shift by [n] bits. *)
Lemma shifted_round (m n : Z) (mrs : shr_record) :
  (0 <= n)%Z -> shifted m n mrs ->
  let m1 := round_nearest_even (shr_m mrs) (loc_of_shr_record mrs) in
  (shr_m mrs <= m1 <= shr_m mrs + 1)%Z
  /\ (2 * (m1 * 2 ^ n - m) <= 2 ^ n)%Z /\ (2 * (m - m1 * 2 ^ n) <= 2 ^ n)%Z
  /\ (m1 = 0 -> 2 * m <= 2 ^ n)%Z.
Proof.
  intros Hn [Hq (rem & Hm & Hrem & Hloc)] m1. subst m1.
  assert (HP : (0 < 2 ^ n)%Z) by (apply Z.pow_pos_nonneg; lia).
  set (P := (2 ^ n)%Z) in *. clearbody P.
  destruct mrs as [q r s]. cbn [shr_m shr_r shr_s loc_of_shr_record] in *.
  destruct r, s; cbn [round_nearest_even].
  - repeat split; nia.
  - destruct (Z.even q) eqn:He; repeat split; try nia.
  - repeat split; nia.
  - repeat split; nia.
Qed.

(** [digits2_pos] is the number of binary digits. *)
Lemma digits2_bounds (m : positive) :
  (2 ^ (Zpos (digits2_pos m) - 1) <= Zpos m < 2 ^ Zpos (digits2_pos m))%Z.
Proof.
  induction m as [m IH|m IH|]; cbn [digits2_pos]; [| |cbn; lia].
  - rewrite Pos2Z.inj_succ, (Pos2Z.inj_xI m).
    replace (Z.succ (Zpos (digits2_pos m)) - 1)%Z
      with (Z.succ (Zpos (digits2_pos m) - 1)) by lia.
    rewrite !Z.pow_succ_r by lia.
    revert IH. generalize (2 ^ (Zpos (digits2_pos m) - 1))%Z.
    generalize (2 ^ Zpos (digits2_pos m))%Z. intros A B IH. lia.
  - rewrite Pos2Z.inj_succ, (Pos2Z.inj_xO m).
    replace (Z.succ (Zpos (digits2_pos m)) - 1)%Z
      with (Z.succ (Zpos (digits2_pos m) - 1)) by lia.
    rewrite !Z.pow_succ_r by lia.
    revert IH. generalize (2 ^ (Zpos (digits2_pos m) - 1))%Z.
    generalize (2 ^ Zpos (digits2_pos m))%Z. intros A B IH. lia.
Qed.

(** Rounding an exact integer mantissa moves it by half a unit of the result
    at most. *)
Lemma binary_round_aux_error (s : bool) (m : positive) (e : Z) :
  roundedFrom s (Zpos m) e
    (binary_round_aux B64.prec B64.emax s (Zpos m) e loc_Exact).
Proof.
  unfold binary_round_aux, shr_fexp.
  pose proof (digits2_bounds m) as Hd.
  change (Zdigits2 (Zpos m)) with (Zpos (digits2_pos m)).
  set (d := Zpos (digits2_pos m)) in *.
  set (n := (fexp B64.prec B64.emax (d + e) - e)%Z).
  destruct (Z_le_dec n 0) as [Hn|Hn].
  - rewrite (shr_nonpos _ _ _ Hn). cbn [shr_record_of_loc shr_m loc_of_shr_record
      round_nearest_even].
    change (Zdigits2 (Zpos m)) with d. fold n.
    rewrite (shr_nonpos _ _ _ Hn). cbn [shr_m].
    destruct (e <=? B64.emax - B64.prec)%Z; [|exact I].
    cbn [roundedFrom]. rewrite Z.sub_diag. cbn. repeat split; lia.
  - assert (Hpos : exists pn, n = Zpos pn) by (destruct n; try lia; eauto).
    destruct Hpos as [pn Hpn]. rewrite Hpn. cbn [shr].
    pose proof (shifted_iter (Zpos m) pn 0 _ ltac:(lia) (shifted_start (Zpos m) ltac:(lia)))
      as Hinv.
    rewrite Z.add_0_l, <- Hpn in Hinv.
    set (mrs := SpecFloat.iter_pos shr_1 pn (shr_record_of_loc (Zpos m) loc_Exact)) in *.
    destruct (shifted_round (Zpos m) n mrs ltac:(lia) Hinv) as (Hq & Hup & Hdown & Hzero).
    destruct Hinv as [Hq0 (rem & Hm & Hrem & _)].
    set (m1 := round_nearest_even (shr_m mrs) (loc_of_shr_record mrs)) in *.
    rewrite <- Hpn.
    assert (He' : (e + n = fexp B64.prec B64.emax (d + e))%Z) by (unfold n; lia).
    assert (Hemin : (emin B64.prec B64.emax <= e + n)%Z)
      by (rewrite He'; unfold fexp; lia).
    assert (Hn53 : (d - 53 <= n)%Z)
      by (unfold n, fexp, B64.prec; lia).
    assert (HP : (0 < 2 ^ n)%Z) by (apply Z.pow_pos_nonneg; lia).
    assert (Hm1 : (m1 <= 2 ^ 53)%Z).
    { assert (H1 : (2 ^ d <= 2 ^ (n + 53))%Z) by (apply Z.pow_le_mono_r; lia).
      rewrite Z.pow_add_r in H1 by lia.
      assert (shr_m mrs < 2 ^ 53)%Z by nia. lia. }
    destruct m1 as [|p1|p1] eqn:Em1; [| |lia].
    + (* rounded to zero *)
      change (Zdigits2 0) with 0%Z.
      rewrite shr_nonpos by (unfold fexp, emin, B64.prec, B64.emax in *; lia).
      cbn [shr_record_of_loc shr_m roundedFrom].
      specialize (Hzero eq_refl).
      assert (Hdn : (d <= n)%Z).
      { apply (Z.pow_le_mono_r_iff 2); [lia | lia |].
        replace d with (Z.succ (d - 1)) by lia.
        rewrite Z.pow_succ_r by (unfold d; lia). lia. }
      assert (Hen : (e + n = emin B64.prec B64.emax)%Z)
        by (unfold fexp, emin, B64.prec, B64.emax in *; lia).
      replace (emin B64.prec B64.emax - e)%Z with n by lia.
      repeat split; lia.
    + change (Zdigits2 (Zpos p1)) with (Zpos (digits2_pos p1)).
      pose proof (digits2_bounds p1) as Hd1.
      set (d1 := Zpos (digits2_pos p1)) in *.
      destruct (Z_le_dec d1 53) as [H53|H53].
      * rewrite shr_nonpos by (unfold fexp, emin, B64.prec, B64.emax in *; lia).
        cbn [shr_record_of_loc shr_m].
        destruct (e + n <=? B64.emax - B64.prec)%Z; [|exact I].
        cbn [roundedFrom]. replace (e + n - e)%Z with n by lia.
        repeat split; lia.
      * assert (Hp1 : Zpos p1 = (2 ^ 53)%Z).
        { assert (2 ^ 53 <= 2 ^ (d1 - 1))%Z by (apply Z.pow_le_mono_r; lia). lia. }
        assert (Hp : p1 = 9007199254740992%positive) by (vm_compute in Hp1; lia).
        subst p1.
        replace (fexp B64.prec B64.emax (d1 + (e + n)) - (e + n))%Z with 1%Z
          by (subst d1; cbn [digits2_pos Pos.succ];
              unfold fexp, emin, B64.prec, B64.emax in *; lia).
        cbn [shr shr_record_of_loc SpecFloat.iter_pos shr_1 shr_m].
        destruct (e + n + 1 <=? B64.emax - B64.prec)%Z; [|exact I].
        cbn [roundedFrom]. replace (e + n + 1 - e)%Z with (n + 1)%Z by lia.
        rewrite Z.pow_add_r, Z.pow_1_r by lia.
        repeat split; lia.
Qed.

Lemma pow2_pos (e : Z) : (0 < pow2 e)%Q.
Proof.
  unfold pow2. destruct (Z.leb_spec 0 e) as [He|He].
  - rewrite <- (Zlt_Qlt 0). apply Z.pow_pos_nonneg; lia.
  - reflexivity.
Qed.

Lemma pow2_succ (e : Z) : (pow2 (e + 1) == 2 * pow2 e)%Q.
Proof.
  unfold pow2. destruct (Z.leb_spec 0 e) as [He|He].
  - replace (0 <=? e + 1)%Z with true by (symmetry; apply Z.leb_le; lia).
    replace (2 ^ (e + 1))%Z with (2 * 2 ^ e)%Z
      by (rewrite <- Z.pow_succ_r by assumption; reflexivity).
    rewrite inject_Z_mult. reflexivity.
  - destruct (Z.leb_spec 0 (e + 1)) as [He1|He1].
    + assert (e = -1)%Z by lia. subst e. reflexivity.
    + replace (Z.to_N (- e)) with (N.succ (Z.to_N (- (e + 1)))) by lia.
      rewrite shiftl_one_succ. unfold Qeq. cbn [Qnum Qden Qmult].
      rewrite Pos.mul_1_l, Pos2Z.inj_xO. ring.
Qed.

Lemma pow2_add (e k : Z) :
  (0 <= k)%Z -> (pow2 (e + k) == inject_Z (2 ^ k) * pow2 e)%Q.
Proof.
  intros Hk. revert k Hk. apply natlike_ind.
  - rewrite Z.add_0_r. change (inject_Z (2 ^ 0)) with 1%Q. ring.
  - intros k Hk IH.
    replace (e + Z.succ k)%Z with (e + k + 1)%Z by lia.
    rewrite pow2_succ, IH, Z.pow_succ_r, inject_Z_mult by assumption.
    change (inject_Z 2) with 2%Q. ring.
Qed.

(** [B64.to_Q] of a finite double is its [exactValue]. *)
Lemma to_Q_value (x : B64.float64) :
  isFinite x = true -> exists q, B64.to_Q x = Some q /\ (q == exactValue x)%Q.
Proof.
  destruct x as [s| | |s m e]; try discriminate; intros _; cbn [B64.to_Q exactValue].
  - exists 0%Q. split; reflexivity.
  - eexists. split; [reflexivity|]. unfold pow2.
    assert (Hv : ((if (0 <=? e)%Z then inject_Z (Z.pos m * 2 ^ e)
                   else Z.pos m # Pos.shiftl 1 (Z.to_N (- e)))
                  == inject_Z (Zpos m)
                     * (if (0 <=? e)%Z then inject_Z (2 ^ e)
                        else 1 # Pos.shiftl 1 (Z.to_N (- e))))%Q).
    { destruct (0 <=? e)%Z.
      - rewrite inject_Z_mult. reflexivity.
      - unfold Qeq. cbn [Qnum Qden Qmult inject_Z]. rewrite Pos.mul_1_l. ring. }
    destruct s; cbn [cond_Zopp].
    + rewrite Hv. change (- Z.pos m)%Z with (Z.opp (Zpos m)).
      rewrite inject_Z_opp. ring.
    + exact Hv.
Qed.

Lemma value_dbl (x : B64.float64) : (exactValue (dbl x) == 2 * exactValue x)%Q.
Proof.
  destruct x as [s| | |s m e]; cbn [dbl exactValue]; try ring.
  rewrite pow2_succ. ring.
Qed.

(** The exact integer [a] at the exponent [e + k] is [a * 2^k] at [e]. *)
Lemma grid (a e k : Z) :
  (0 <= k)%Z -> (inject_Z a * pow2 (e + k) == inject_Z (a * 2 ^ k) * pow2 e)%Q.
Proof. intros Hk. rewrite (pow2_add e k Hk), inject_Z_mult. ring. Qed.

Lemma iter_xO (d m : positive) :
  Zpos (Pos.iter xO m d) = (Zpos m * 2 ^ Zpos d)%Z.
Proof.
  induction d as [|d IH] using Pos.peano_ind.
  - cbn [Pos.iter]. rewrite Pos2Z.inj_xO. change (2 ^ 1)%Z with 2%Z. lia.
  - rewrite Pos.iter_succ, Pos2Z.inj_xO, IH, Pos2Z.inj_succ, Z.pow_succ_r by lia.
    lia.
Qed.

(** Aligning a mantissa to a smaller exponent keeps the value. *)
Lemma shl_align_spec (mx : positive) (ex e' : Z) :
  let res := shl_align mx ex e' in
  (snd res <= ex)%Z /\ (snd res <= Z.max e' (snd res))%Z
  /\ Zpos (fst res) = (Zpos mx * 2 ^ (ex - snd res))%Z.
Proof.
  unfold shl_align. destruct (e' - ex)%Z as [|d|d] eqn:E; cbn [fst snd].
  - rewrite Z.sub_diag. lia.
  - rewrite Z.sub_diag. lia.
  - rewrite iter_xO. replace (ex - e')%Z with (Zpos d) by lia. lia.
Qed.

Lemma shl_align_min (mx : positive) (ex ez : Z) :
  (ez <= ex)%Z ->
  Zpos (fst (shl_align mx ex ez)) = (Zpos mx * 2 ^ (ex - ez))%Z.
Proof.
  intros H. unfold shl_align. destruct (ez - ex)%Z as [|d|d] eqn:E; cbn [fst].
  - replace (ex - ez)%Z with 0%Z by lia. lia.
  - lia.
  - rewrite iter_xO. replace (ex - ez)%Z with (Zpos d) by lia. lia.
Qed.

(** The same bounds, on the exact values. *)
Lemma roundedFrom_nearest (s : bool) (m : positive) (e : Z) (z : B64.float64) :
  roundedFrom s (Zpos m) e z -> isFinite z = true ->
  nearest (inject_Z (cond_Zopp s (Zpos m)) * pow2 e) z.
Proof.
  destruct z as [s'| | |s' m' e']; try discriminate; intros H _;
    unfold nearest; cbn [roundedFrom exactValue ulp] in *.
  - destruct H as (-> & He & Hm).
    set (k := (emin B64.prec B64.emax - e)%Z) in *.
    replace (emin B64.prec B64.emax) with (e + k)%Z by (unfold k; lia).
    rewrite (pow2_add e k) by lia.
    pose proof (pow2_pos e) as HP.
    assert (H1 : (inject_Z (2 * Zpos m) <= inject_Z (2 ^ k))%Q)
      by (rewrite <- Zle_Qle; exact Hm).
    rewrite inject_Z_mult in H1. change (inject_Z 2) with 2%Q in H1.
    assert (H0 : (0 < inject_Z (Zpos m))%Q) by (rewrite <- (Zlt_Qlt 0); lia).
    destruct s; cbn [cond_Zopp].
    + change (- Z.pos m)%Z with (Z.opp (Zpos m)). rewrite inject_Z_opp.
      split; nra.
    + split; nra.
  - destruct H as (-> & He & Hup & Hdown).
    set (k := (e' - e)%Z) in *.
    replace e' with (e + k)%Z by (unfold k; lia).
    rewrite (pow2_add e k) by lia.
    pose proof (pow2_pos e) as HP.
    assert (H1 : (inject_Z (2 * (Z.pos m' * 2 ^ k - Z.pos m)) <= inject_Z (2 ^ k))%Q)
      by (rewrite <- Zle_Qle; exact Hup).
    assert (H2 : (inject_Z (2 * (Z.pos m - Z.pos m' * 2 ^ k)) <= inject_Z (2 ^ k))%Q)
      by (rewrite <- Zle_Qle; exact Hdown).
    rewrite inject_Z_mult, <- Z.add_opp_r, inject_Z_plus, inject_Z_opp,
      ?inject_Z_mult in H1, H2.
    change (inject_Z 2) with 2%Q in H1, H2.
    destruct s; cbn [cond_Zopp].
    + change (- Z.pos m')%Z with (Z.opp (Zpos m')).
      change (- Z.pos m)%Z with (Z.opp (Zpos m)).
      rewrite !inject_Z_opp. split; nra.
    + split; nra.
Qed.

Lemma binary_round_nearest (s : bool) (m : positive) (e : Z) :
  isFinite (binary_round B64.prec B64.emax s m e) = true ->
  nearest (inject_Z (cond_Zopp s (Zpos m)) * pow2 e)
    (binary_round B64.prec B64.emax s m e).
Proof.
  unfold binary_round.
  pose proof (shl_align_spec m e
                (fexp B64.prec B64.emax (Zpos (digits2_pos m) + e))) as Hs.
  destruct (shl_align m e (fexp B64.prec B64.emax (Zpos (digits2_pos m) + e)))
    as [mz ez].
  cbn [fst snd] in Hs. destruct Hs as (Hle & _ & Hmz).
  intros Hfin.
  pose proof (roundedFrom_nearest s mz ez _ (binary_round_aux_error s mz ez) Hfin)
    as Hn.
  unfold nearest in *.
  assert (Hex : (inject_Z (cond_Zopp s (Z.pos m)) * pow2 e
                 == inject_Z (cond_Zopp s (Z.pos mz)) * pow2 ez)%Q).
  { replace e with (ez + (e - ez))%Z at 1 by lia.
    rewrite grid by lia. destruct s; cbn [cond_Zopp]; rewrite Hmz.
    - replace (- Z.pos m * 2 ^ (e - ez))%Z with (- (Z.pos m * 2 ^ (e - ez)))%Z by lia.
      reflexivity.
    - reflexivity. }
  rewrite Hex. exact Hn.
Qed.

Lemma nearest_self (x : B64.float64) (q : Q) :
  (q == exactValue x)%Q -> nearest q x.
Proof.
  intros H. unfold nearest. rewrite H.
  assert (0 < ulp x)%Q by (destruct x; apply pow2_pos). split; lra.
Qed.

Lemma binary_normalize_nearest (n e : Z) :
  isFinite (binary_normalize B64.prec B64.emax n e false) = true ->
  nearest (inject_Z n * pow2 e) (binary_normalize B64.prec B64.emax n e false).
Proof.
  destruct n as [|m|m]; cbn [binary_normalize].
  - intros _. apply nearest_self. cbn [exactValue].
    change (inject_Z 0) with 0%Q. ring.
  - apply (binary_round_nearest false).
  - apply (binary_round_nearest true).
Qed.

(** An addition with a finite result has finite operands and returns the
    double nearest to their exact sum. *)
Lemma fadd_nearest (x y : B64.float64) :
  isFinite (fadd x y) = true ->
  isFinite x = true /\ isFinite y = true
  /\ nearest (exactValue x + exactValue y) (fadd x y).
Proof.
  destruct x as [sx|sx| |sx mx ex], y as [sy|sy| |sy my ey]; intros Hfin;
    cbn [fadd binary64 SFadd isFinite] in Hfin; try discriminate Hfin;
    try (destruct sx, sy; discriminate Hfin);
    do 2 (split; [reflexivity|]).
  - apply nearest_self. destruct sx, sy; cbn; ring.
  - apply nearest_self. cbn [fadd binary64 SFadd exactValue]. ring.
  - apply nearest_self. cbn [fadd binary64 SFadd exactValue]. ring.
  - cbn [fadd binary64 SFadd] in *.
    set (ez := Z.min ex ey) in *.
    pose proof (binary_normalize_nearest _ _ Hfin) as Hn.
    rewrite (shl_align_min mx ex ez), (shl_align_min my ey ez) in * by (unfold ez; lia).
    assert (Hex : (exactValue (S754_finite sx mx ex) + exactValue (S754_finite sy my ey)
                   == inject_Z (cond_Zopp sx (Z.pos mx * 2 ^ (ex - ez))
                                + cond_Zopp sy (Z.pos my * 2 ^ (ey - ez)))
                      * pow2 ez)%Q).
    { cbn [exactValue].
      replace ex with (ez + (ex - ez))%Z at 1 by lia.
      replace ey with (ez + (ey - ez))%Z at 1 by lia.
      rewrite !grid by (unfold ez; lia). rewrite inject_Z_plus.
      destruct sx, sy; cbn [cond_Zopp];
        rewrite ?Z.mul_opp_l; ring. }
    unfold nearest in *. rewrite Hex. exact Hn.
Qed.

Lemma digits2_unique (m : positive) (d : Z) :
  (2 ^ (d - 1) <= Zpos m < 2 ^ d)%Z -> Zpos (digits2_pos m) = d.
Proof.
  intros [Hlo Hhi]. pose proof (digits2_bounds m) as [Blo Bhi].
  set (k := Zpos (digits2_pos m)) in *.
  assert (0 < d)%Z.
  { destruct (Z_lt_le_dec 0 d); [assumption|].
    assert (2 ^ d <= 2 ^ 0)%Z by (apply Z.pow_le_mono_r; lia).
    change (2 ^ 0)%Z with 1%Z in *. lia. }
  assert (k - 1 < d)%Z by (apply (Z.pow_lt_mono_r_iff 2); lia).
  assert (d - 1 < k)%Z by (apply (Z.pow_lt_mono_r_iff 2); lia).
  lia.
Qed.

(** A multiple of 2^k is shifted by [k] bits without remainder. *)
Lemma shr_exact (m : positive) (k : positive) :
  SpecFloat.iter_pos shr_1 k (shr_record_of_loc (Zpos m * 2 ^ Zpos k) loc_Exact)
  = shr_record_of_loc (Zpos m) loc_Exact.
Proof.
  assert (H0 : (0 <= Zpos m * 2 ^ Zpos k)%Z) by lia.
  pose proof (shifted_iter (Zpos m * 2 ^ Zpos k) k 0 _ ltac:(lia) (shifted_start _ H0)) as Hinv.
  rewrite Z.add_0_l in Hinv.
  destruct (SpecFloat.iter_pos shr_1 k (shr_record_of_loc (Z.pos m * 2 ^ Z.pos k) loc_Exact))
    as [q r s].
  destruct Hinv as [Hq (rem & Hm & Hrem & Hflags)]. cbn [shr_m shr_r shr_s] in *.
  assert (HP : (0 < 2 ^ Zpos k)%Z) by (apply Z.pow_pos_nonneg; lia).
  assert (Hqm : q = Zpos m) by nia.
  subst q. assert (rem = 0)%Z by lia. subst rem.
  destruct r, s; try lia. reflexivity.
Qed.

(** Twice a normal number is the number with its exponent raised by one:
    the product by 2 is exact. *)
Lemma fmul_two (x : B64.float64) :
  normalNumber x -> fmul (lit 2) x = dbl x.
Proof.
  destruct x as [s| | |s m e]; cbn [normalNumber]; try contradiction.
  - intros _. reflexivity.
  - intros (Hd & He1 & He2).
    change (fmul (lit 2) (S754_finite s m e))
      with (binary_round_aux B64.prec B64.emax s
              (Zpos (4503599627370496 * m)) (-51 + e) loc_Exact).
    cbn [dbl]. unfold binary_round_aux, shr_fexp.
    pose proof (digits2_bounds m) as Hb. rewrite Hd in Hb.
    assert (Hm : Zpos (4503599627370496 * m) = (Zpos m * 2 ^ 52)%Z)
      by (rewrite Pos2Z.inj_mul; change (2 ^ 52)%Z with 4503599627370496%Z; lia).
    assert (Hdig : Zdigits2 (Zpos (4503599627370496 * m)) = 105%Z).
    { cbn [Zdigits2]. apply digits2_unique. rewrite Hm.
      unfold B64.prec in Hb.
      change (2 ^ (105 - 1))%Z with (2 ^ 52 * 2 ^ 52)%Z.
      change (2 ^ 105)%Z with (2 ^ 53 * 2 ^ 52)%Z.
      change (2 ^ (53 - 1))%Z with (2 ^ 52)%Z in Hb. nia. }
    rewrite Hdig.
    replace (fexp B64.prec B64.emax (105 + (-51 + e)) - (-51 + e))%Z with 52%Z
      by (unfold fexp, emin, B64.prec, B64.emax in *; lia).
    cbn [shr]. rewrite Hm. rewrite (shr_exact m 52).
    cbn [shr_record_of_loc shr_m loc_of_shr_record round_nearest_even].
    cbn [Zdigits2]. rewrite Hd.
    replace (fexp B64.prec B64.emax (B64.prec + (-51 + e + 52)) - (-51 + e + 52))%Z
      with 0%Z by (unfold fexp, emin, B64.prec, B64.emax in *; lia).
    cbn [shr shr_m].
    replace (-51 + e + 52)%Z with (e + 1)%Z by lia.
    replace (e + 1 <=? B64.emax - B64.prec)%Z with true
      by (symmetry; apply Z.leb_le; lia).
    reflexivity.
Qed.

(** A subtraction is the addition of the opposite. *)
Lemma fsub_fadd (x y : B64.float64) : fsub x y = fadd x (SFopp y).
Proof.
  destruct x as [sx|sx| |sx mx ex], y as [sy|sy| |sy my ey];
    try reflexivity; destruct sx, sy; reflexivity.
Qed.

Lemma dbl_opp (x : B64.float64) : dbl (SFopp x) = SFopp (dbl x).
Proof. destruct x; reflexivity. Qed.

(** The centre plus an offset and the centre plus twice the offset: the
    second sum is as far from the centre as twice the first, up to the two
    roundings. *)
Lemma fadd_dbl_within (c o : B64.float64) :
  isFinite (fadd c o) = true -> isFinite (fadd c (dbl o)) = true ->
  doublesWithin c (fadd c o) (fadd c (dbl o)).
Proof.
  intros H1 H2.
  destruct (fadd_nearest _ _ H1) as (Hc & Ho & N1).
  destruct (fadd_nearest _ _ H2) as (_ & _ & N2).
  destruct (to_Q_value _ Hc) as (qc & Ec & Vc).
  destruct (to_Q_value _ H1) as (q1 & E1 & V1).
  destruct (to_Q_value _ H2) as (q2 & E2 & V2).
  exists qc, q1, q2. do 3 (split; [assumption|]).
  unfold nearest in N1, N2. rewrite value_dbl in N2.
  rewrite Vc, V1, V2. split; lra.
Qed.

Lemma fsub_dbl_within (c o : B64.float64) :
  isFinite (fsub c o) = true -> isFinite (fsub c (dbl o)) = true ->
  doublesWithin c (fsub c o) (fsub c (dbl o)).
Proof.
  rewrite !fsub_fadd, <- dbl_opp. apply fadd_dbl_within.
Qed.

(** C8, amended.  Projection is linear in the camera distance, in binary64,
    up to the rounding of the screen coordinates and as long as the
    arithmetic stays in range.  For every screen size, camera and point: let
    the camera distance be doubled, the point and the observer being the
    same, so that the clamped depth is the same.  When the distance is a
    normal number, the products and the quotient behind the two offsets
    neither underflow nor overflow, and the four screen coordinates are
    finite, then the offset of the projected point from the screen centre
    [(float64(w)/2, float64(h)/2)] at the doubled distance is twice the offset
    at the distance, in both coordinates, within the tolerance of
    [doublesWithin]: one unit in the last place of the coordinate at the
    distance plus half a unit in the last place of the coordinate at the
    doubled distance. *)
Theorem ProjectPoint_linear_in_distance (w h : Z) (c : Camera B64.float64)
    (p : Point3D B64.float64) :
  let near := SetCamera (New w h) c in
  let far := SetCamera (New w h) (withDistance c (fmul (lit 2) c.(Distance))) in
  normalNumber c.(Distance) ->
  steadyOffset (fsub p.(pX) c.(Observer).(pX)) c.(Distance)
    (clampedDepth near p) (fdiv (of_int w) c.(Width)) ->
  steadyOffset (fsub p.(pZ) c.(Observer).(pZ)) c.(Distance)
    (clampedDepth near p) (fdiv (of_int h) c.(Height)) ->
  isFinite (ProjectPoint near p).(sX) = true ->
  isFinite (ProjectPoint near p).(sY) = true ->
  isFinite (ProjectPoint far p).(sX) = true ->
  isFinite (ProjectPoint far p).(sY) = true ->
  far.(camera).(Observer) = near.(camera).(Observer)
  /\ clampedDepth far p = clampedDepth near p
  /\ doublesWithin (fdiv (of_int w) (lit 2))
       (ProjectPoint near p).(sX) (ProjectPoint far p).(sX)
  /\ doublesWithin (fdiv (of_int h) (lit 2))
       (ProjectPoint near p).(sY) (ProjectPoint far p).(sY).
Proof.
  intros near far Hd HX HY. subst near far.
  rewrite (fmul_two _ Hd).
  rewrite (ProjectPoint_offsets_double_binary64 (New w h) c p HX HY).
  rewrite (ProjectPoint_offsets (SetCamera (New w h) c) p).
  cbn [sX sY SetCamera New centerX centerY camera withDistance Observer].
  intros F1 F2 F3 F4. do 2 (split; [reflexivity|]). split.
  - apply fadd_dbl_within; assumption.
  - apply fsub_dbl_within; assumption.
Qed.

(** The default camera, an 800 x 600 screen and the point (1, 7, 1): the
    distance 10 is doubled to 20. *)
Lemma ProjectPoint_linear_in_distance_witness :
  normalNumber DefaultCamera.(Distance)
  /\ steadyOffset (fsub (pX (point64 1 7 1 "")) DefaultCamera.(Observer).(pX))
       DefaultCamera.(Distance) (clampedDepth renderer800 (point64 1 7 1 ""))
       (fdiv (of_int 800) DefaultCamera.(Width))
  /\ steadyOffset (fsub (pZ (point64 1 7 1 "")) DefaultCamera.(Observer).(pZ))
       DefaultCamera.(Distance) (clampedDepth renderer800 (point64 1 7 1 ""))
       (fdiv (of_int 600) DefaultCamera.(Height))
  /\ isFinite (ProjectPoint renderer800 (point64 1 7 1 "")).(sX) = true
  /\ isFinite (ProjectPoint renderer800 (point64 1 7 1 "")).(sY) = true
  /\ isFinite (ProjectPoint renderer800_doubled (point64 1 7 1 "")).(sX) = true
  /\ isFinite (ProjectPoint renderer800_doubled (point64 1 7 1 "")).(sY) = true
  /\ doublesWithin (fdiv (of_int 800) (lit 2))
       (ProjectPoint renderer800 (point64 1 7 1 "")).(sX)
       (ProjectPoint renderer800_doubled (point64 1 7 1 "")).(sX)
  /\ doublesWithin (fdiv (of_int 600) (lit 2))
       (ProjectPoint renderer800 (point64 1 7 1 "")).(sY)
       (ProjectPoint renderer800_doubled (point64 1 7 1 "")).(sY).
Proof.
  split; [vm_compute; split; [reflexivity | split; [discriminate | reflexivity]]|].
  do 2 (split; [vm_compute; repeat split; congruence|]).
  do 4 (split; [reflexivity|]).
  apply (ProjectPoint_linear_in_distance 800 600 DefaultCamera (point64 1 7 1 ""));
    try reflexivity; vm_compute; repeat split; congruence.
Defined.

(** C8, as stated for every point and camera, fails in binary64 whatever the
    tolerance: a float64 distance can be too large to be doubled.  For the
    default camera at the distance 1e308, an 800 x 600 screen and the point
    (0.001, 7, 0.001), the projected point is finite, (8.9e305, -8.9e305);
    the doubled distance is +Inf, and so are the screen coordinates, up to
    the sign: the offset from the centre is not a number any more, let alone
    twice the offset at the distance. *)
Lemma ProjectPoint_distance_doubling_overflow :
  let near := ProjectPoint (SetCamera (New 800 600) cameraRemote) pointNearAxis in
  let far :=
    ProjectPoint
      (SetCamera (New 800 600)
         (withDistance cameraRemote (fmul (lit 2) cameraRemote.(Distance))))
      pointNearAxis in
  fmul (lit 2) cameraRemote.(Distance) = S754_infinity false
  /\ isFinite near.(sX) = true /\ isFinite near.(sY) = true
  /\ far.(sX) = S754_infinity false /\ far.(sY) = S754_infinity true
  /\ ~ doublesWithin (fdiv (of_int 800) (lit 2)) near.(sX) far.(sX)
  /\ ~ doublesWithin (fdiv (of_int 600) (lit 2)) near.(sY) far.(sY).
Proof.
  cbv zeta. do 5 (split; [vm_compute; reflexivity|]).
  split; intros (c & x1 & x2 & _ & _ & H2 & _); vm_compute in H2; discriminate H2.
Qed.

(** Within the range, the tolerance cannot be dropped.  At the sample point the vertical
    screen coordinate is 210.71428571428572 at distance 10 and
    121.42857142857142 at distance 20, and the centre is 300: the offset at
    distance 20, -178.57142857142858, differs from twice the offset at
    distance 10, which is -178.57142857142856, in the last place, both as
    exact values of the computed doubles and when the offsets are themselves
    computed in binary64. *)
Lemma ProjectPoint_distance_doubling_binary64 :
  ~ offsetDoubles renderer800.(centerY)
      (ProjectPoint renderer800 (point64 1 7 1 "")).(sY)
      (ProjectPoint renderer800_doubled (point64 1 7 1 "")).(sY)
  /\ fsub (ProjectPoint renderer800_doubled (point64 1 7 1 "")).(sY)
          renderer800.(centerY)
     <> fmul (lit 2)
          (fsub (ProjectPoint renderer800 (point64 1 7 1 "")).(sY)
                renderer800.(centerY)).
Proof.
  split.
  - intros (cy & y1 & y2 & Hc & H1 & H2 & Heq).
    vm_compute in Hc, H1, H2.
    injection Hc as <-. injection H1 as <-. injection H2 as <-.
    vm_compute in Heq. discriminate Heq.
  - vm_compute. discriminate.
Qed.

(** At the sample point the offsets are steady and the doubled distance is
    [dbl] of the distance: the offsets double exactly there, and what keeps
    the screen point from doubling its distance to the centre is the last
    subtraction alone. *)
Example offsets_double_at_sample :
  renderer800_doubled
  = SetCamera (New 800 600) (withDistance DefaultCamera (dbl (Distance DefaultCamera)))
  /\ ProjectPoint
       (SetCamera (New 800 600)
          (withDistance DefaultCamera (dbl (Distance DefaultCamera))))
       (point64 1 7 1 "")
     = {| sX := fadd (New 800 600).(centerX)
                  (dbl (offsetX (SetCamera (New 800 600) DefaultCamera)
                          (point64 1 7 1 "")));
          sY := fsub (New 800 600).(centerY)
                  (dbl (offsetY (SetCamera (New 800 600) DefaultCamera)
                          (point64 1 7 1 ""))) |}.
Proof.
  split; [vm_compute; reflexivity|].
  pose proof (ProjectPoint_offsets_double_binary64 (New 800 600) DefaultCamera
                (point64 1 7 1 "")) as Hdouble.
  apply Hdouble; vm_compute; repeat split; congruence.
Qed.

(** ** Colours *)

Section ColorProperties.

Context {F : Type} {arith : Arith F} {lib : Strings}.
#[local] Open Scope float_scope.

(** On ASCII text the library is [asciiStrings]. *)
Lemma lowerByte_ascii (c : ascii) :
  (nat_of_ascii c <? 128)%nat = true ->
  (nat_of_ascii (lowerByte c) <? 128)%nat = true.
Proof.
  destruct c as [[] [] [] [] [] [] [] []]; intros H; try discriminate H; reflexivity.
Qed.

Lemma isASCII_lowerASCII (s : string) :
  isASCII s = true -> isASCII (lowerASCII s) = true.
Proof.
  induction s as [|c s IH]; [reflexivity|]. cbn [isASCII lowerASCII].
  intros H. apply andb_prop in H as [Hc Hs].
  rewrite (lowerByte_ascii _ Hc), (IH Hs). reflexivity.
Qed.

Lemma normalForm_ascii (s : string) :
  isASCII s = true -> TrimSpace (ToLower s) = trimASCII (lowerASCII s).
Proof.
  intros Hs. rewrite (ToLower_ascii s Hs).
  apply TrimSpace_ascii, isASCII_lowerASCII, Hs.
Qed.

Lemma parseColor_ascii (value : string) :
  isASCII value = true ->
  parseColor value = parseColor (lib := asciiStrings) value.
Proof.
  intros Hascii. unfold parseColor. rewrite (normalForm_ascii _ Hascii). reflexivity.
Qed.

(** The digits [ParseUint] accepts in base 16 are the hexadecimal digits. *)
Lemma digitVal_hex (c : ascii) :
  match digitVal c with
  | Some d => if (16 <=? d)%Z then None else Some d
  | None => None
  end = hexDigitValue c.
Proof. destruct c as [[] [] [] [] [] [] [] []]; reflexivity. Qed.

Lemma hexDigitValue_range (c : ascii) (d : Z) :
  hexDigitValue c = Some d -> (0 <= d <= 15)%Z.
Proof.
  destruct c as [[] [] [] [] [] [] [] []]; simpl; intros H;
    try discriminate H; injection H as <-; lia.
Qed.

Lemma ParseUint_two (a b : ascii) :
  ParseUint_16_8 (String a (String b "")) =
    match hexByte a b with
    | Some v => (v, None)
    | None => (0%Z, Some (NumError "ParseUint" (String a (String b "")) true))
    end.
Proof.
  unfold ParseUint_16_8, hexByte. simpl.
  pose proof (digitVal_hex a) as Ha. pose proof (digitVal_hex b) as Hb.
  pose proof (hexDigitValue_range a) as Ra.
  pose proof (hexDigitValue_range b) as Rb.
  destruct (digitVal a) as [x|]; [|rewrite <- Ha; reflexivity].
  destruct (16 <=? x)%Z eqn:Ex; [rewrite <- Ha; reflexivity|].
  rewrite <- Ha in *. specialize (Ra x eq_refl).
  replace (255 <? 0 * 16 + x)%Z with false by (symmetry; apply Z.ltb_ge; lia).
  destruct (digitVal b) as [y|]; [|rewrite <- Hb; reflexivity].
  destruct (16 <=? y)%Z eqn:Ey; [rewrite <- Hb; reflexivity|].
  rewrite <- Hb in *. specialize (Rb y eq_refl).
  replace (255 <? (0 * 16 + x) * 16 + y)%Z with false
    by (symmetry; apply Z.ltb_ge; lia).
  f_equal. lia.
Qed.

Lemma parseHexComponent_two (a b : ascii) :
  parseHexComponent (String a (String b "")) =
    match hexByte a b with
    | Some v => (normalized v, None)
    | None => (lit 0, Some (NumError "ParseUint" (String a (String b "")) true))
    end.
Proof.
  unfold parseHexComponent. rewrite ParseUint_two.
  destruct (hexByte a b); reflexivity.
Qed.

(** [parseColor], step by step, in terms of the normalised text and its
    hexadecimal form. *)
Lemma parseColor_steps (value : string) :
  parseColor value =
    let v := TrimSpace (ToLower value) in
    if String.eqb v "" then (zeroColor, Some (Errorf "valor vazio"))
    else
      match namedColors !! v with
      | Some col => (col, None)
      | None =>
          let h := hexForm v in
          if negb (len h =? 6)%Z
          then (zeroColor, Some (Errorf ("formato de cor inválido: " ++ value)))
          else
            match parseHexComponent (substring 0 2 h) with
            | (_, Some err) => (zeroColor, Some err)
            | (r, None) =>
                match parseHexComponent (substring 2 2 h) with
                | (_, Some err) => (zeroColor, Some err)
                | (g, None) =>
                    match parseHexComponent (substring 4 2 h) with
                    | (_, Some err) => (zeroColor, Some err)
                    | (b, None) => ({| R := r; G := g; B := b |}, None)
                    end
                end
            end
      end.
Proof. reflexivity. Qed.

Lemma len_six (h : string) :
  len h = 6%Z ->
  exists a b c d e f,
    h = String a (String b (String c (String d (String e (String f ""))))).
Proof.
  unfold len. intros H.
  do 6 (destruct h as [|? h]; [simpl in H; lia|]).
  destruct h; [|simpl in H; lia].
  repeat eexists.
Qed.

Lemma allHex_six (a b c d e f : ascii) :
  allHex (String a (String b (String c (String d (String e (String f "")))))) =
    match hexByte a b, hexByte c d, hexByte e f with
    | Some _, Some _, Some _ => true
    | _, _, _ => false
    end.
Proof.
  unfold hexByte. simpl.
  destruct (hexDigitValue a), (hexDigitValue b), (hexDigitValue c),
    (hexDigitValue d), (hexDigitValue e), (hexDigitValue f); reflexivity.
Qed.

(** The hexadecimal branch on a six-character form. *)
Lemma parseColor_six (value : string) (a b c d e f : ascii) :
  TrimSpace (ToLower value) <> "" ->
  namedColors (F := F) !! TrimSpace (ToLower value) = None ->
  hexForm (TrimSpace (ToLower value)) =
    String a (String b (String c (String d (String e (String f ""))))) ->
  match hexByte a b, hexByte c d, hexByte e f with
  | Some r, Some g, Some bl =>
      parseColor value =
        ({| R := normalized r; G := normalized g; B := normalized bl |}, None)
  | _, _, _ => exists err, parseColor value = (zeroColor, Some err)
  end.
Proof.
  intros Hne Hnamed Hform. rewrite parseColor_steps. cbv zeta.
  apply String.eqb_neq in Hne. rewrite Hne, Hnamed, Hform.
  change (len _ =? 6)%Z with true. cbv beta iota delta [negb].
  change (substring 0 2 _) with (String a (String b "")).
  change (substring 2 2 _) with (String c (String d "")).
  change (substring 4 2 _) with (String e (String f "")).
  rewrite !parseHexComponent_two.
  destruct (hexByte a b), (hexByte c d), (hexByte e f); eauto.
Qed.

(** The errors of [parseColor], by the normalised text [v] and the
    hexadecimal form [h] the function computes from it. *)
Lemma parseColor_errors_by_form (value : string) :
  let v := TrimSpace (ToLower value) in
  let h := hexForm v in
  (v = "" -> parseColor value = (zeroColor, Some (Errorf "valor vazio")))
  /\ (v <> "" -> namedColors (F := F) !! v = None -> len h <> 6%Z ->
      parseColor value =
        (zeroColor, Some (Errorf ("formato de cor inválido: " ++ value))))
  /\ (v <> "" -> namedColors (F := F) !! v = None -> len h = 6%Z ->
      allHex h = false ->
      exists err, parseColor value = (zeroColor, Some err))
  /\ (snd (parseColor value) <> None ->
      fst (parseColor value) = zeroColor
      /\ (v = "" \/ (namedColors (F := F) !! v = None
                     /\ (len h <> 6%Z \/ allHex h = false)))).
Proof.
  intros v h. subst v h.
  split; [|split; [|split]].
  - intros Hv. rewrite parseColor_steps. cbv zeta. rewrite Hv. reflexivity.
  - intros Hv Hnamed Hlen. rewrite parseColor_steps. cbv zeta.
    apply String.eqb_neq in Hv. rewrite Hv, Hnamed.
    apply Z.eqb_neq in Hlen. rewrite Hlen. reflexivity.
  - intros Hv Hnamed Hlen Hhex.
    destruct (len_six _ Hlen) as (a & b & c & d & e & f & Hform).
    pose proof (parseColor_six value a b c d e f Hv Hnamed Hform) as Hsix.
    rewrite Hform, allHex_six in Hhex.
    destruct (hexByte a b), (hexByte c d), (hexByte e f);
      try discriminate Hhex; exact Hsix.
  - destruct (string_dec (TrimSpace (ToLower value)) "") as [Hv|Hv].
    { intros _. rewrite parseColor_steps. cbv zeta. rewrite Hv. simpl. auto. }
    destruct (namedColors (F := F) !! TrimSpace (ToLower value)) as [col|] eqn:Hnamed.
    { rewrite parseColor_steps. cbv zeta.
      rewrite (proj2 (String.eqb_neq _ _) Hv), Hnamed. simpl. congruence. }
    destruct (Z.eq_dec (len (hexForm (TrimSpace (ToLower value)))) 6) as [Hlen|Hlen].
    2:{ intros _. rewrite parseColor_steps. cbv zeta.
        rewrite (proj2 (String.eqb_neq _ _) Hv), Hnamed.
        rewrite (proj2 (Z.eqb_neq _ _) Hlen). simpl. auto. }
    destruct (len_six _ Hlen) as (a & b & c & d & e & f & Hform).
    pose proof (parseColor_six value a b c d e f Hv Hnamed Hform) as Hsix.
    rewrite Hform, allHex_six.
    destruct (hexByte a b), (hexByte c d), (hexByte e f);
      first [ rewrite Hsix; simpl; congruence
            | destruct Hsix as [err Herr]; rewrite Herr; simpl; intros _;
              split; [reflexivity | right; split; [reflexivity | right; reflexivity]] ].
Qed.

(** The eight names of [namedColors]. *)
Lemma namedColors_domain (n : string) (col : colorRGB F) :
  namedColors !! n = Some col ->
  (n, col) ∈ [ ("white", gray 1); ("black", gray 0);
               ("gray", gray (5 # 10)); ("grey", gray (5 # 10));
               ("lightgray", gray (82 # 100)); ("lightgrey", gray (82 # 100));
               ("darkgray", gray (25 # 100)); ("darkgrey", gray (25 # 100)) ].
Proof. intros H. apply elem_of_list_to_map_2 in H. exact H. Qed.

(** No colour name starts with [#]. *)
Lemma namedColors_hash (s : string) :
  namedColors (F := F) !! String "#" s = None.
Proof.
  apply not_elem_of_list_to_map_1. simpl. intros Hin.
  repeat (apply elem_of_cons in Hin as [Hin|Hin]; [discriminate Hin|]).
  inversion Hin.
Qed.

(** C10. The name lookup comes before the [#] is stripped: every name [n]
    of [namedColors] (white, black, gray, grey, lightgray, lightgrey,
    darkgray, darkgrey) parses to its fixed colour, and [#] followed by [n]
    is an error with the zero colour, not the colour of [n]. *)
Theorem parseColor_name_before_hash (n : string) (col : colorRGB F)
    (Hn : namedColors !! n = Some col) :
  parseColor n = (col, None)
  /\ exists err, parseColor (String "#" n) = (zeroColor, Some err).
Proof.
  apply namedColors_domain in Hn.
  repeat (apply elem_of_cons in Hn as [Hn|Hn];
          [injection Hn as -> ->;
           split; [|eexists]; rewrite parseColor_ascii by reflexivity;
           vm_compute; reflexivity|]).
  inversion Hn.
Qed.

End ColorProperties.

(** ** The hexadecimal round trip, in binary64 *)

Lemma hexDigitValue_lowerByte (c : ascii) :
  hexDigitValue (lowerByte c) = hexDigitValue c.
Proof. destruct c as [[] [] [] [] [] [] [] []]; reflexivity. Qed.

Lemma hex_not_space (c : ascii) (d : Z) :
  hexDigitValue c = Some d -> isSpace (lowerByte c) = false.
Proof.
  destruct c as [[] [] [] [] [] [] [] []]; simpl; intros H;
    try discriminate H; reflexivity.
Qed.

Lemma hex_ascii (c : ascii) (d : Z) :
  hexDigitValue c = Some d -> (nat_of_ascii c <? 128)%nat = true.
Proof.
  destruct c as [[] [] [] [] [] [] [] []]; simpl; intros H;
    try discriminate H; reflexivity.
Qed.

Lemma hexByte_lowerByte (a b : ascii) :
  hexByte (lowerByte a) (lowerByte b) = hexByte a b.
Proof. unfold hexByte. rewrite !hexDigitValue_lowerByte. reflexivity. Qed.

Lemma hexByte_digits (a b : ascii) (v : Z) :
  hexByte a b = Some v ->
  (0 <= v <= 255)%Z
  /\ (exists x, hexDigitValue a = Some x) /\ (exists y, hexDigitValue b = Some y).
Proof.
  unfold hexByte. intros H.
  destruct (hexDigitValue a) as [x|] eqn:Ha; [|discriminate H].
  destruct (hexDigitValue b) as [y|] eqn:Hb; [|discriminate H].
  injection H as <-.
  apply hexDigitValue_range in Ha. apply hexDigitValue_range in Hb.
  split; [lia|]. split; eexists; reflexivity.
Qed.

Lemma trimRight_single (c : ascii) :
  isSpace c = false -> trimRight (String c "") = String c "".
Proof. intros H. simpl. rewrite H. reflexivity. Qed.

Lemma trimRight_cons (c : ascii) (s : string) :
  s <> "" -> trimRight s = s -> trimRight (String c s) = String c s.
Proof.
  intros Hne Hs. simpl. rewrite Hs. destruct s; [congruence | reflexivity].
Qed.

(** Every byte survives the trip through [parseHexComponent] and back. *)
Lemma normalized_rescales (v : Z) :
  (0 <= v <= 255)%Z -> rescalesTo (normalized v) v.
Proof.
  intros Hv.
  assert (Hall : forallb (fun v => rescalesTob (normalized v) v)
                   (map Z.of_nat (seq 0 256)) = true)
    by (vm_compute; reflexivity).
  rewrite forallb_forall in Hall.
  assert (Hin : In v (map Z.of_nat (seq 0 256))).
  { replace v with (Z.of_nat (Z.to_nat v)) by lia.
    apply in_map, in_seq. lia. }
  specialize (Hall v Hin). unfold rescalesTob in Hall. unfold rescalesTo.
  destruct (B64.to_Z (Round (fmul (normalized v) (lit 255)))) as [n|];
    [|discriminate Hall].
  exists n. split; [reflexivity|]. apply Z.leb_le. exact Hall.
Qed.

(** C6. For six hexadecimal digits, of either case, [parseColor] of [#]
    followed by them succeeds, and each component of the colour, multiplied by
    255 and rounded, is within 1 of the byte its two digits denote. *)
Theorem parseColor_hex_round_trip {lib : Strings}
    (c1 c2 c3 c4 c5 c6 : ascii) (r g b : Z)
    (Hr : hexByte c1 c2 = Some r)
    (Hg : hexByte c3 c4 = Some g)
    (Hb : hexByte c5 c6 = Some b) :
  exists col : colorRGB B64.float64,
    parseColor
      (String "#" (String c1 (String c2 (String c3 (String c4
         (String c5 (String c6 "")))))))
    = (col, None)
    /\ rescalesTo col.(R) r /\ rescalesTo col.(G) g /\ rescalesTo col.(B) b.
Proof.
  destruct (hexByte_digits _ _ _ Hr) as (Rr & [x1 H1] & [x2 H2]).
  destruct (hexByte_digits _ _ _ Hg) as (Rg & [x3 H3] & [x4 H4]).
  destruct (hexByte_digits _ _ _ Hb) as (Rb & [x5 H5] & [x6 H6]).
  assert (Hascii :
    isASCII (String "#" (String c1 (String c2 (String c3 (String c4
               (String c5 (String c6 ""))))))) = true).
  { cbn [isASCII].
    rewrite (hex_ascii _ _ H1), (hex_ascii _ _ H2), (hex_ascii _ _ H3),
      (hex_ascii _ _ H4), (hex_ascii _ _ H5), (hex_ascii _ _ H6). reflexivity. }
  apply hex_not_space in H1, H2, H3, H4, H5, H6.
  set (value := String "#" (String c1 (String c2 (String c3 (String c4
                  (String c5 (String c6 ""))))))) in *.
  assert (Hnorm : TrimSpace (ToLower value) =
                  String "#" (String (lowerByte c1) (String (lowerByte c2)
                    (String (lowerByte c3) (String (lowerByte c4)
                      (String (lowerByte c5) (String (lowerByte c6) ""))))))).
  { rewrite (normalForm_ascii _ Hascii). unfold value, trimASCII. cbn [lowerASCII].
    change (lowerByte "#") with "#"%char.
    change (trimLeft (String "#" ?s)) with (String "#" s).
    repeat (apply trimRight_cons; [discriminate|]).
    apply trimRight_single. assumption. }
  pose proof (parseColor_six (F := B64.float64) value
                (lowerByte c1) (lowerByte c2) (lowerByte c3)
                (lowerByte c4) (lowerByte c5) (lowerByte c6)) as Hsix.
  rewrite Hnorm in Hsix.
  rewrite !hexByte_lowerByte, Hr, Hg, Hb in Hsix.
  eexists. split.
  - apply Hsix; [discriminate | apply namedColors_hash | reflexivity].
  - simpl. repeat split; apply normalized_rescales; assumption.
Qed.

(** ** The draw pipeline *)

Section RenderProperties.

Context {F : Type} {arith : Arith F}.
#[local] Open Scope list_scope.

Lemma bind_call {A : Type} (op : DrawOp F) (k : unit -> Draw F A) (ctx : ggContext F) :
  bind (call op) k ctx = k tt (ctx ++ [op]).
Proof. reflexivity. Qed.

Lemma index_in_range {A : Type} (s : list A) (i : Z) (x : A) (ctx : ggContext F) :
  (0 <= i)%Z -> s !! Z.to_nat i = Some x -> index s i ctx = Returned x ctx.
Proof.
  intros Hi Hx. unfold index.
  destruct (Z.ltb_spec i 0); [lia|]. rewrite Hx. reflexivity.
Qed.

Lemma index_negative {A : Type} (s : list A) (i : Z) (ctx : ggContext F) :
  (i < 0)%Z ->
  index s i ctx = Panicked (IndexOutOfRange i (Z.of_nat (length s))) ctx.
Proof.
  intros Hi. unfold index. destruct (Z.ltb_spec i 0); [reflexivity | lia].
Qed.

(** One tolerated edge: it is skipped when an index is at or beyond the
    points, and stroked otherwise. *)
Lemma drawEdge_tolerated (pontos2D : list (Point2D F)) (linha : Line)
    (ctx : ggContext F) :
  tolerated (Z.of_nat (length pontos2D)) linha ->
  drawEdge pontos2D linha ctx = Returned tt (ctx ++ edgeStrokes pontos2D linha).
Proof.
  intros Htol. unfold drawEdge, edgeStrokes.
  destruct (Z.geb_spec (P1 linha) (Z.of_nat (length pontos2D))) as [G1|G1].
  { simpl. rewrite (lookup_ge_None_2 pontos2D (Z.to_nat (P1 linha))) by lia.
    unfold ret. rewrite app_nil_r. reflexivity. }
  destruct (Z.geb_spec (P2 linha) (Z.of_nat (length pontos2D))) as [G2|G2].
  { simpl. rewrite (lookup_ge_None_2 pontos2D (Z.to_nat (P2 linha))) by lia.
    unfold ret. destruct (pontos2D !! Z.to_nat (P1 linha));
      rewrite app_nil_r; reflexivity. }
  assert (H : nonNegative linha) by (destruct Htol as [?|[?|?]]; [lia | lia | assumption]).
  destruct H as [H1 H2]. simpl.
  destruct (lookup_lt_is_Some_2 pontos2D (Z.to_nat (P1 linha))) as [p1 E1]; [lia|].
  destruct (lookup_lt_is_Some_2 pontos2D (Z.to_nat (P2 linha))) as [p2 E2]; [lia|].
  rewrite E1, E2.
  replace (0 <=? P1 linha)%Z with true by (symmetry; apply Z.leb_le; lia).
  replace (0 <=? P2 linha)%Z with true by (symmetry; apply Z.leb_le; lia).
  unfold bind at 1. rewrite (index_in_range _ _ _ _ H1 E1).
  unfold bind at 1. rewrite (index_in_range _ _ _ _ H2 E2).
  rewrite !bind_call. unfold call. simpl. rewrite <- !app_assoc. reflexivity.
Qed.

Lemma forEach_edges (pontos2D : list (Point2D F)) (linhas : list Line) :
  Forall (tolerated (Z.of_nat (length pontos2D))) linhas ->
  forall ctx : ggContext F,
    forEach linhas (drawEdge pontos2D) ctx =
      Returned tt (ctx ++ flat_map (edgeStrokes pontos2D) linhas).
Proof.
  induction 1 as [|linha rest Hl _ IH]; intros ctx; simpl.
  - unfold ret. rewrite app_nil_r. reflexivity.
  - unfold bind. rewrite (drawEdge_tolerated _ _ _ Hl), IH.
    rewrite app_assoc. reflexivity.
Qed.

Lemma forEach_cons {A : Type} (x : A) (rest : list A)
    (body : A -> Draw F unit) (ctx : ggContext F) :
  forEach (x :: rest) body ctx =
    match body x ctx with
    | Returned _ ctx' => forEach rest body ctx'
    | Panicked p ctx' => Panicked p ctx'
    end.
Proof. reflexivity. Qed.

(** A vertex whose index names a point of the figure. *)
Lemma drawVertex_in_range (figure : Figure F) (cfg : RenderConfig F)
    (i : Z) (ponto : Point3D F) (p2D : Point2D F) (ctx : ggContext F) :
  (0 <= i)%Z -> figure.(Pontos) !! Z.to_nat i = Some ponto ->
  drawVertex figure cfg (i, p2D) ctx =
    Returned tt (ctx ++ vertexMarker cfg (ponto, p2D)).
Proof.
  intros Hi Hp. unfold drawVertex, vertexMarker. rewrite !bind_call.
  destruct (ShowLabels cfg); cbn [andb].
  - unfold bind at 1. rewrite (index_in_range _ _ _ _ Hi Hp).
    destruct (String.eqb (Nome ponto) ""); cbn [negb].
    + unfold ret. rewrite <- !app_assoc. reflexivity.
    + unfold setColor. rewrite !bind_call. unfold call.
      rewrite <- !app_assoc. reflexivity.
  - unfold ret. rewrite <- !app_assoc. reflexivity.
Qed.

Lemma drawLabel_in_range (figure : Figure F) (cfg : RenderConfig F)
    (i : Z) (ponto : Point3D F) (p2D : Point2D F) (ctx : ggContext F) :
  (0 <= i)%Z -> figure.(Pontos) !! Z.to_nat i = Some ponto ->
  drawLabel figure cfg (i, p2D) ctx =
    Returned tt (ctx ++ labelMarker cfg (ponto, p2D)).
Proof.
  intros Hi Hp. unfold drawLabel, labelMarker.
  unfold bind at 1. rewrite (index_in_range _ _ _ _ Hi Hp).
  destruct (String.eqb (Nome ponto) "").
  - unfold ret. rewrite app_nil_r. reflexivity.
  - unfold setColor. rewrite !bind_call. unfold call.
    rewrite <- !app_assoc. reflexivity.
Qed.

(** The loops over the vertices never leave the point list. *)
Lemma forEach_markers (figure : Figure F) (cfg : RenderConfig F)
    (body : Z * Point2D F -> Draw F unit)
    (marker : Point3D F * Point2D F -> list (DrawOp F))
    (f : Point3D F -> Point2D F) :
  (forall i ponto p2D ctx,
      (0 <= i)%Z -> figure.(Pontos) !! Z.to_nat i = Some ponto ->
      body (i, p2D) ctx = Returned tt (ctx ++ marker (ponto, p2D))) ->
  forall (suf pre : list (Point3D F)) (ctx : ggContext F),
    figure.(Pontos) = pre ++ suf ->
    forEach (enumerate (Z.of_nat (length pre)) (map f suf)) body ctx =
      Returned tt (ctx ++ flat_map marker (combine suf (map f suf))).
Proof.
  intros Hbody. induction suf as [|ponto suf IH]; intros pre ctx Hfig.
  - cbn. unfold ret. rewrite app_nil_r. reflexivity.
  - cbn [map enumerate combine flat_map]. rewrite forEach_cons.
    rewrite (Hbody _ ponto).
    2: lia.
    2:{ rewrite Nat2Z.id, Hfig. apply list_lookup_middle. reflexivity. }
    specialize (IH (pre ++ [ponto])).
    rewrite length_app, Nat2Z.inj_add in IH.
    change (Z.of_nat (length [ponto])) with 1%Z in IH.
    rewrite IH by (rewrite Hfig, <- app_assoc; reflexivity).
    rewrite <- !app_assoc. reflexivity.
Qed.

(** A render of a figure without points returns the error and draws
    nothing. *)
Lemma render_no_points (r : Renderer3D F) (figure : Figure F)
    (cfg : RenderConfig F) :
  figure.(Pontos) = [] ->
  RenderFigureWithConfig r (Some figure) cfg =
    Returned (Some (Errorf "figura não possui pontos")) r.(context).
Proof.
  intros H. unfold RenderFigureWithConfig, renderBody. rewrite H. reflexivity.
Qed.

(** A render of a figure with a point: the preamble, the loop over the
    edges, and, unless that loop panics, the markers and a nil error. *)
Lemma render_with_points (r : Renderer3D F) (figure : Figure F)
    (cfg : RenderConfig F) :
  figure.(Pontos) <> [] ->
  RenderFigureWithConfig r (Some figure) cfg =
    match forEach figure.(Linhas)
            (drawEdge (map (ProjectPoint r) figure.(Pontos)))
            (r.(context) ++ preamble cfg) with
    | Returned _ ctx => Returned None (ctx ++ markers r figure cfg)
    | Panicked p ctx => Panicked p ctx
    end.
Proof.
  intros Hpts. unfold RenderFigureWithConfig, renderBody, markers, preamble.
  destruct (Pontos figure) as [|p0 ps] eqn:EP; [congruence|].
  rewrite len_cons_nonzero. rewrite <- EP.
  unfold setColor. rewrite !bind_call. rewrite <- !app_assoc. cbn [app].
  unfold bind at 1.
  destruct (forEach (Linhas figure) (drawEdge (map (ProjectPoint r) (Pontos figure))) _)
    as [[] ctx|p ctx]; [|reflexivity].
  unfold bind at 1.
  destruct (ShowVertices cfg).
  - rewrite bind_call. unfold bind at 1.
    rewrite (forEach_markers figure cfg _ (vertexMarker cfg) (ProjectPoint r)
               (drawVertex_in_range figure cfg) (Pontos figure) [] _ eq_refl).
    unfold call, ret. rewrite <- !app_assoc. reflexivity.
  - destruct (ShowLabels cfg).
    + unfold bind at 1.
      rewrite (forEach_markers figure cfg _ (labelMarker cfg) (ProjectPoint r)
                 (drawLabel_in_range figure cfg) (Pontos figure) [] _ eq_refl).
      unfold call, ret. rewrite <- !app_assoc. reflexivity.
    + unfold ret. rewrite app_nil_r. reflexivity.
Qed.

(** A render of a figure with a point whose edges are all tolerated returns
    nil: the edges with an index at or beyond the points are skipped, and the
    surface receives the background, the edges in range and the markers. *)
Lemma render_tolerated (r : Renderer3D F) (figure : Figure F)
    (cfg : RenderConfig F) :
  figure.(Pontos) <> [] ->
  Forall (tolerated (Z.of_nat (length figure.(Pontos)))) figure.(Linhas) ->
  RenderFigureWithConfig r (Some figure) cfg =
    Returned None (r.(context) ++ drawing r figure cfg).
Proof.
  intros Hpts Hedges. rewrite (render_with_points _ _ _ Hpts).
  rewrite forEach_edges by (rewrite length_map; exact Hedges).
  unfold drawing. rewrite <- !app_assoc. reflexivity.
Qed.

(** The error is returned exactly when the point list is empty; with a point
    the call returns nil or panics. *)
Lemma render_error_iff_no_points (r : Renderer3D F) (figure : Figure F)
    (cfg : RenderConfig F) :
  (exists err ctx, RenderFigureWithConfig r (Some figure) cfg = Returned (Some err) ctx)
  <-> figure.(Pontos) = [].
Proof.
  split.
  - intros (err & ctx & H). destruct (Pontos figure) as [|p0 ps] eqn:EP; [reflexivity|].
    rewrite render_with_points in H by (rewrite EP; discriminate).
    destruct (forEach _ _ _); discriminate H.
  - intros H. rewrite (render_no_points _ _ _ H). eauto.
Qed.

Lemma forEach_app {A : Type} (s1 s2 : list A) (body : A -> Draw F unit)
    (ctx : ggContext F) :
  forEach (s1 ++ s2) body ctx =
    match forEach s1 body ctx with
    | Returned _ ctx' => forEach s2 body ctx'
    | Panicked p ctx' => Panicked p ctx'
    end.
Proof.
  revert ctx. induction s1 as [|x s1 IH]; intros ctx.
  - reflexivity.
  - cbn [app]. rewrite !forEach_cons. destruct (body x ctx); [apply IH | reflexivity].
Qed.

(** An edge with a negative index passes the guard when its other index is
    below the number of points, and the slice access panics. *)
Lemma drawEdge_negative (pontos2D : list (Point2D F)) (linha : Line)
    (ctx : ggContext F) :
  (linha.(P1) < Z.of_nat (length pontos2D))%Z ->
  (linha.(P2) < Z.of_nat (length pontos2D))%Z ->
  ~ nonNegative linha ->
  exists i, (i < 0)%Z /\
    drawEdge pontos2D linha ctx =
      Panicked (IndexOutOfRange i (Z.of_nat (length pontos2D))) ctx.
Proof.
  intros G1 G2 Hneg. unfold drawEdge.
  destruct (Z.geb_spec (P1 linha) (Z.of_nat (length pontos2D))); [lia|].
  destruct (Z.geb_spec (P2 linha) (Z.of_nat (length pontos2D))); [lia|].
  cbn [orb]. destruct (Z_lt_dec (P1 linha) 0) as [N1|N1].
  - exists (P1 linha). split; [exact N1|].
    unfold bind at 1. rewrite (index_negative _ _ _ N1). reflexivity.
  - assert (N2 : (P2 linha < 0)%Z) by (unfold nonNegative in Hneg; lia).
    exists (P2 linha). split; [exact N2|].
    destruct (lookup_lt_is_Some_2 pontos2D (Z.to_nat (P1 linha))) as [p1 E1]; [lia|].
    assert (P1ok : (0 <= P1 linha)%Z) by lia.
    unfold bind at 1. rewrite (index_in_range _ _ _ _ P1ok E1).
    unfold bind at 1. rewrite (index_negative _ _ _ N2). reflexivity.
Qed.

(** The first edge that is not tolerated, one with a negative index and both
    indices below the number of points, ends the render with a panic, after
    the background and the edges before it. *)
Lemma render_negative_index (r : Renderer3D F) (figure : Figure F)
    (cfg : RenderConfig F) (before after : list Line) (linha : Line) :
  figure.(Pontos) <> [] ->
  figure.(Linhas) = before ++ linha :: after ->
  Forall (tolerated (Z.of_nat (length figure.(Pontos)))) before ->
  ~ tolerated (Z.of_nat (length figure.(Pontos))) linha ->
  exists i ctx, (i < 0)%Z /\
    RenderFigureWithConfig r (Some figure) cfg =
      Panicked (IndexOutOfRange i (Z.of_nat (length figure.(Pontos)))) ctx.
Proof.
  intros Hpts Hedges Hbefore Hbad.
  assert (G1 : (P1 linha < Z.of_nat (length (Pontos figure)))%Z)
    by (unfold tolerated in Hbad; lia).
  assert (G2 : (P2 linha < Z.of_nat (length (Pontos figure)))%Z)
    by (unfold tolerated in Hbad; lia).
  assert (Hneg : ~ nonNegative linha) by (unfold tolerated in Hbad; tauto).
  unfold RenderFigureWithConfig, renderBody.
  destruct (Pontos figure) as [|p0 ps] eqn:EP; [congruence|].
  rewrite len_cons_nonzero. rewrite <- EP in *.
  unfold setColor. rewrite !bind_call. unfold bind at 1.
  rewrite <- (length_map (ProjectPoint r)) in G1, G2, Hbefore.
  rewrite Hedges, forEach_app, (forEach_edges _ _ Hbefore), forEach_cons.
  destruct (drawEdge_negative (map (ProjectPoint r) (Pontos figure)) linha
              (((((context r ++ [SetRGB (R (Background cfg)) (G (Background cfg))
                                   (B (Background cfg))]) ++ [Clear])
                 ++ [SetRGB (R (LineColor cfg)) (G (LineColor cfg))
                       (B (LineColor cfg))])
                ++ [SetLineWidth (LineWidth cfg)])
               ++ flat_map (edgeStrokes (map (ProjectPoint r) (Pontos figure))) before)
              G1 G2 Hneg) as (i & Hi & Hpanic).
  rewrite Hpanic. rewrite length_map. eauto.
Qed.

End RenderProperties.

(** ** The draw pipeline on edges with a negative index *)

(** C2, the divergence.  On a figure with one point and the single edge
    (-1, 0), whose first index is out of range, the render does not skip the
    edge: it fills the background, sets the line style and then panics on the
    slice access with index -1. *)
Theorem RenderFigureWithConfig_negative_P1_panics :
  RenderFigureWithConfig renderer800 (Some figureNegativeP1) DefaultRenderConfig =
    Panicked (IndexOutOfRange (-1) 1)
      (renderer800.(context)
       ++ [SetRGB (lit 1) (lit 1) (lit 1); Clear;
           SetRGB (lit 0) (lit 0) (lit 0); SetLineWidth (lit 1)])%list.
Proof. vm_compute. reflexivity. Qed.

(** C4, the divergence.  The figure has two points, so its point list is not
    empty, yet the render neither returns an error nor succeeds: after the
    valid edge it panics on the edge (0, -1). *)
Theorem RenderFigureWithConfig_points_but_no_return :
  figureNegativeP2.(Pontos) <> []
  /\ (exists ctx,
        RenderFigureWithConfig renderer800 (Some figureNegativeP2) DefaultRenderConfig
        = Panicked (IndexOutOfRange (-1) 2) ctx)
  /\ (forall result ctx,
        RenderFigureWithConfig renderer800 (Some figureNegativeP2) DefaultRenderConfig
        <> Returned result ctx).
Proof.
  split; [discriminate|]. split.
  - eexists. vm_compute. reflexivity.
  - intros result ctx. vm_compute. discriminate.
Qed.

(** ** The tests of the repository, replayed in binary64 *)

(** The sample inputs are ASCII text: the library is [asciiStrings] there. *)
#[local] Existing Instance asciiStrings.

Example test_ProjectPoint_center :
  ProjectPoint renderer800 (point64 0 5 0 "") = {| sX := lit 400; sY := lit 300 |}.
Proof. vm_compute. reflexivity. Qed.

Example test_ProjectPoint_PerspectiveFormula :
  ProjectPoint renderer800 (point64 2 5 1 "") = {| sX := lit 650; sY := lit 175 |}.
Proof. vm_compute. reflexivity. Qed.

Example test_ProjectPoint_BehindCamera :
  ProjectPoint renderer800 (point64 1 (-1) 1 "")
  = {| sX := lit 6650; sY := lit (-5950) |}.
Proof. vm_compute. reflexivity. Qed.

Example test_ParseHexComponent :
  parseHexComponent (F := B64.float64) "00" = (lit 0, None)
  /\ parseHexComponent (F := B64.float64) "ff" = (lit 1, None)
  /\ parseHexComponent (F := B64.float64) "80" = (lit (502 # 1000), None)
  /\ parseHexComponent (F := B64.float64) "zz"
     = (lit 0, Some (NumError "ParseUint" "zz" true)).
Proof. repeat split; vm_compute; reflexivity. Qed.

Example test_ParseColor :
  parseColor (F := B64.float64) "white" = (gray 1, None)
  /\ parseColor (F := B64.float64) "#ff0000"
     = ({| R := lit 1; G := lit 0; B := lit 0 |}, None)
  /\ parseColor (F := B64.float64) "00ff00"
     = ({| R := lit 0; G := lit 1; B := lit 0 |}, None)
  /\ parseColor (F := B64.float64) "#f0f"
     = ({| R := lit 1; G := lit 0; B := lit 1 |}, None)
  /\ parseColor (F := B64.float64) "WHITE" = (gray 1, None)
  /\ parseColor (F := B64.float64) "f0a" = parseColor (F := B64.float64) "ff00aa".
Proof. repeat split; vm_compute; reflexivity. Qed.

Example test_ValidateFigure :
  validateFigure figureNoCamera = None
  /\ validateFigure figureWithSettings
     = Some (Errorf "figura deve ter pelo menos um ponto")
  /\ validateFigure figureInvalidLine
     = Some (Errorf "linha 0 referencia ponto P2 inválido: 5 (deve estar entre 0 e 0)").
Proof. repeat split; vm_compute; reflexivity. Qed.

Example test_RenderFigure_InvalidLineReference :
  RenderFigure renderer800 (Some figureInvalidLine)
  = Returned None (renderer800.(context) ++ preamble DefaultRenderConfig)%list.
Proof. vm_compute. reflexivity. Qed.

Example test_RenderFigure_EmptyPoints :
  RenderFigure renderer800 (Some figureWithSettings)
  = Returned (Some (Errorf "figura não possui pontos")) renderer800.(context).
Proof. vm_compute. reflexivity. Qed.

(** ** The statements at sample inputs *)

(** C5 at [figureWithSettings]: the width 2.5 is taken, the vertices are on
    and the labels are off. *)
Lemma ConfigFromFigure_defaults_and_overrides_witness :
  ConfigFromFigure (Some figureWithSettings)
    = (fst (ConfigFromFigure (Some figureWithSettings)), None)
  /\ (fst (ConfigFromFigure (Some figureWithSettings))).(LineWidth) = lit (25 # 10)
  /\ (fst (ConfigFromFigure (Some figureWithSettings))).(ShowVertices) = true
  /\ (fst (ConfigFromFigure (Some figureWithSettings))).(ShowLabels) = false.
Proof.
  assert (Hrun : ConfigFromFigure (Some figureWithSettings)
                 = (fst (ConfigFromFigure (Some figureWithSettings)), None))
    by (vm_compute; reflexivity).
  split; [exact Hrun|].
  exact (ConfigFromFigure_defaults_and_overrides
           (Some figureWithSettings) _ None Hrun eq_refl).
Defined.

(** C9 at [figureNoCamera], whose distance is 0: the loaded camera is the
    default one. *)
Lemma LoadFigureFromYAML_default_camera_witness :
  LoadFigureFromYAML sampleReadFile sampleUnmarshal "simple.yaml"
    = (Some (withCamera figureNoCamera DefaultCamera), None)
  /\ (withCamera figureNoCamera DefaultCamera).(figCamera)
     = {| Observer := point64 0 0 0 ""; Distance := lit 10;
          Width := lit (128 # 10); Height := lit (96 # 10) |}.
Proof.
  assert (Hload : LoadFigureFromYAML sampleReadFile sampleUnmarshal "simple.yaml"
                  = (Some (withCamera figureNoCamera DefaultCamera), None))
    by (vm_compute; reflexivity).
  split; [exact Hload|].
  exact (LoadFigureFromYAML_default_camera sampleReadFile sampleUnmarshal
           "simple.yaml" "nome: simple_test" figureNoCamera _ eq_refl eq_refl Hload).
Defined.

(** C10 at the name [white]. *)
Lemma parseColor_name_before_hash_witness :
  namedColors (F := B64.float64) !! "white" = Some (gray 1)
  /\ parseColor (F := B64.float64) "white" = (gray 1, None)
  /\ exists err, parseColor (F := B64.float64) "#white" = (zeroColor, Some err).
Proof.
  assert (Hn : namedColors (F := B64.float64) !! "white" = Some (gray 1))
    by (vm_compute; reflexivity).
  split; [exact Hn|].
  exact (parseColor_name_before_hash "white" (gray 1) Hn).
Defined.

(** C6 at [#80fF00]: the bytes 128, 255 and 0. *)
Lemma parseColor_hex_round_trip_witness :
  hexByte "8" "0" = Some 128%Z /\ hexByte "f" "F" = Some 255%Z
  /\ hexByte "0" "0" = Some 0%Z
  /\ exists col : colorRGB B64.float64,
       parseColor "#80fF00" = (col, None)
       /\ rescalesTo col.(R) 128 /\ rescalesTo col.(G) 255 /\ rescalesTo col.(B) 0.
Proof.
  repeat (split; [reflexivity|]).
  exact (parseColor_hex_round_trip "8" "0" "f" "F" "0" "0" 128 255 0
           eq_refl eq_refl eq_refl).
Defined.

(** * Further properties *)

Section LoadAndRender.

Context {F : Type} {arith : Arith F}.
#[local] Open Scope list_scope.

(** A figure that validates has a point, a line, and valid lines only. *)
Lemma validateFigure_None (figure : Figure F) :
  validateFigure figure = None ->
  figure.(Pontos) <> [] /\ figure.(Linhas) <> []
  /\ Forall (validLine (Z.of_nat (length figure.(Pontos)))) figure.(Linhas).
Proof.
  unfold validateFigure.
  destruct (Pontos figure) as [|p ps]; [discriminate|].
  destruct (Linhas figure) as [|l ls]; [discriminate|].
  rewrite (len_cons_nonzero p ps), (len_cons_nonzero l ls).
  pose proof (validateLinhas_spec (Z.of_nat (length (p :: ps))) (l :: ls) 0) as Hspec.
  destruct (validateLinhas _ 0 (l :: ls)); [discriminate|].
  intros _. repeat split; [discriminate | discriminate | exact Hspec].
Qed.

Lemma validLine_tolerated (n : Z) (linha : Line) :
  validLine n linha -> tolerated n linha.
Proof. unfold validLine, inRange, tolerated, nonNegative. intros; lia. Qed.

Lemma loaded_validates ReadFile Unmarshal filename (loaded : Figure F) :
  LoadFigureFromYAML ReadFile Unmarshal filename = (Some loaded, None) ->
  validateFigure loaded = None.
Proof.
  unfold LoadFigureFromYAML.
  destruct (ReadFile filename) as [data [e|]]; [discriminate|].
  destruct (Unmarshal data) as [figure [e|]]; [discriminate|].
  match goal with |- context [validateFigure ?f] =>
    destruct (validateFigure f) eqn:Hv end; [discriminate|].
  intros H. injection H as <-. exact Hv.
Qed.

(** X1. [LoadFigureFromYAML] returns a figure exactly when it returns no
    error, and its error is that of the first stage that fails, wrapped with
    the message of that stage: the error of [os.ReadFile] with "erro ao ler
    arquivo: "; else the error of [yaml.Unmarshal] with "erro ao parsear
    YAML: "; else the error of [validateFigure] on the parsed figure with
    "figura inválida: ".  When no stage fails a figure is returned, without
    error. *)
Theorem LoadFigureFromYAML_figure_xor_error ReadFile Unmarshal (filename : string) :
  let result := LoadFigureFromYAML (F := F) ReadFile Unmarshal filename in
  (fst result = None <-> snd result <> None)
  /\ match ReadFile filename with
     | (_, Some cause) =>
         result = (None, Some (Wrapf "erro ao ler arquivo: " cause))
     | (data, None) =>
         match Unmarshal data with
         | (_, Some cause) =>
             result = (None, Some (Wrapf "erro ao parsear YAML: " cause))
         | (figure, None) =>
             match validateFigure figure with
             | Some cause =>
                 result = (None, Some (Wrapf "figura inválida: " cause))
             | None => snd result = None /\ exists loaded, fst result = Some loaded
             end
         end
     end.
Proof.
  unfold LoadFigureFromYAML.
  destruct (ReadFile filename) as [data [e|]].
  { simpl. split; [split; congruence | reflexivity]. }
  destruct (Unmarshal data) as [figure [e|]].
  { simpl. split; [split; congruence | reflexivity]. }
  assert (Hsame : validateFigure
                    (if feqb figure.(figCamera).(Distance) (lit 0)
                     then withCamera figure DefaultCamera else figure)
                  = validateFigure figure)
    by (destruct (feqb _ _); [apply validateFigure_withCamera | reflexivity]).
  rewrite Hsame.
  destruct (validateFigure figure); simpl.
  - split; [split; congruence | reflexivity].
  - split; [split; [discriminate | congruence]|]. split; [reflexivity | eauto].
Qed.

(** X2. A figure that [LoadFigureFromYAML] returns has at least one point and
    one line, and every index of every line names one of its points. *)
Theorem LoadFigureFromYAML_loaded_is_valid ReadFile Unmarshal filename
    (loaded : Figure F)
    (Hload : LoadFigureFromYAML ReadFile Unmarshal filename = (Some loaded, None)) :
  loaded.(Pontos) <> [] /\ loaded.(Linhas) <> []
  /\ Forall (fun linha =>
               (0 <= linha.(P1) < Z.of_nat (length loaded.(Pontos)))%Z
               /\ (0 <= linha.(P2) < Z.of_nat (length loaded.(Pontos)))%Z)
       loaded.(Linhas).
Proof.
  apply loaded_validates, validateFigure_None in Hload as (HP & HL & Hall).
  repeat split; [exact HP | exact HL |].
  eapply Forall_impl; [exact Hall|].
  unfold validLine, inRange. intros linha. cbv beta. lia.
Qed.

(** X3. Loading and rendering compose: a figure that [LoadFigureFromYAML]
    returns never makes [RenderFigureWithConfig] panic on a slice index or on
    a nil pointer, on no renderer and with no configuration, and never makes
    it return an error; whenever the render returns, it returns nil and the
    surface has received the background, the edges and the markers. *)
Theorem load_then_render ReadFile Unmarshal filename (loaded : Figure F)
    (r : Renderer3D F) (cfg : RenderConfig F)
    (Hload : LoadFigureFromYAML ReadFile Unmarshal filename = (Some loaded, None)) :
  (forall i n ctx,
     RenderFigureWithConfig r (Some loaded) cfg <> Panicked (IndexOutOfRange i n) ctx)
  /\ (forall ctx,
        RenderFigureWithConfig r (Some loaded) cfg <> Panicked NilDereference ctx)
  /\ (forall result ctx,
        RenderFigureWithConfig r (Some loaded) cfg = Returned result ctx ->
        result = None /\ ctx = r.(context) ++ drawing r loaded cfg).
Proof.
  apply loaded_validates, validateFigure_None in Hload as (HP & _ & Hall).
  assert (Hrun : RenderFigureWithConfig r (Some loaded) cfg
                 = Returned None (r.(context) ++ drawing r loaded cfg)).
  { apply render_tolerated; [exact HP|].
    eapply Forall_impl; [exact Hall|]. apply validLine_tolerated. }
  rewrite Hrun. split; [|split].
  - discriminate.
  - discriminate.
  - intros result ctx H. injection H as <- <-. split; reflexivity.
Qed.

End LoadAndRender.

Section WhatARenderDraws.

Context {F : Type} {arith : Arith F}.
#[local] Open Scope list_scope.

Lemma countOp_app (kind : DrawOp F -> bool) (a b : list (DrawOp F)) :
  countOp kind (a ++ b) = (countOp kind a + countOp kind b)%nat.
Proof. unfold countOp. rewrite List.filter_app, length_app. reflexivity. Qed.

Lemma countOp_flat_map {A : Type} (kind : DrawOp F -> bool)
    (g : A -> list (DrawOp F)) (n : nat) (l : list A) :
  Forall (fun x => countOp kind (g x) = n) l ->
  countOp kind (flat_map g l) = (n * length l)%nat.
Proof.
  induction 1 as [|x l Hx _ IH]; simpl.
  - rewrite Nat.mul_0_r. reflexivity.
  - rewrite countOp_app, Hx, IH. lia.
Qed.

(** The strokes of a valid line: the segment between the projections of its
    two points. *)
Lemma edgeStrokes_valid (pontos2D : list (Point2D F)) (linha : Line) :
  validLine (Z.of_nat (length pontos2D)) linha ->
  exists p1 p2,
    pontos2D !! Z.to_nat linha.(P1) = Some p1
    /\ pontos2D !! Z.to_nat linha.(P2) = Some p2
    /\ edgeStrokes pontos2D linha
       = [MoveTo p1.(sX) p1.(sY); LineTo p2.(sX) p2.(sY); Stroke].
Proof.
  unfold validLine, inRange. intros [H1 H2].
  destruct (lookup_lt_is_Some_2 pontos2D (Z.to_nat (P1 linha))) as [p1 E1]; [lia|].
  destruct (lookup_lt_is_Some_2 pontos2D (Z.to_nat (P2 linha))) as [p2 E2]; [lia|].
  exists p1, p2. repeat split; [exact E1 | exact E2 |].
  unfold edgeStrokes. rewrite E1, E2.
  replace (0 <=? P1 linha)%Z with true by (symmetry; apply Z.leb_le; lia).
  replace (0 <=? P2 linha)%Z with true by (symmetry; apply Z.leb_le; lia).
  reflexivity.
Qed.

(** An edge adds a stroke or nothing, and never a disc or a text. *)
Lemma edgeStrokes_counts (pontos2D : list (Point2D F)) (linha : Line) :
  (countOp isStroke (edgeStrokes pontos2D linha) <= 1)%nat
  /\ countOp isCircle (edgeStrokes pontos2D linha) = 0%nat
  /\ countOp isText (edgeStrokes pontos2D linha) = 0%nat.
Proof.
  unfold edgeStrokes.
  destruct (pontos2D !! Z.to_nat (P1 linha)), (pontos2D !! Z.to_nat (P2 linha));
    try (cbn; repeat split; lia).
  destruct ((0 <=? P1 linha)%Z && (0 <=? P2 linha)%Z); cbn; repeat split; lia.
Qed.

(** What the markers of a figure count: no stroke; a disc per point when the
    vertices are shown; a text per named point when the labels are shown. *)
Lemma vertexMarkers_counts (cfg : RenderConfig F) (f : Point3D F -> Point2D F)
    (pontos : list (Point3D F)) :
  countOp isStroke (flat_map (vertexMarker cfg) (combine pontos (map f pontos))) = 0%nat
  /\ countOp isCircle (flat_map (vertexMarker cfg) (combine pontos (map f pontos)))
     = length pontos
  /\ countOp isText (flat_map (vertexMarker cfg) (combine pontos (map f pontos)))
     = if cfg.(ShowLabels)
       then length (List.filter (fun ponto => negb (String.eqb ponto.(Nome) "")) pontos)
       else 0%nat.
Proof.
  induction pontos as [|ponto rest (IH1 & IH2 & IH3)].
  - cbn. destruct (ShowLabels cfg); repeat split; reflexivity.
  - cbn [map combine flat_map]. rewrite !countOp_app, IH1, IH2, IH3.
    unfold vertexMarker. cbn [List.filter].
    destruct (ShowLabels cfg), (String.eqb (Nome ponto) ""); cbn; repeat split; lia.
Qed.

Lemma labelMarkers_counts (cfg : RenderConfig F) (f : Point3D F -> Point2D F)
    (pontos : list (Point3D F)) :
  countOp isStroke (flat_map (labelMarker cfg) (combine pontos (map f pontos))) = 0%nat
  /\ countOp isCircle (flat_map (labelMarker cfg) (combine pontos (map f pontos))) = 0%nat
  /\ countOp isText (flat_map (labelMarker cfg) (combine pontos (map f pontos)))
     = length (List.filter (fun ponto => negb (String.eqb ponto.(Nome) "")) pontos).
Proof.
  induction pontos as [|ponto rest (IH1 & IH2 & IH3)].
  - cbn. repeat split; reflexivity.
  - cbn [map combine flat_map]. rewrite !countOp_app, IH1, IH2, IH3.
    unfold labelMarker. cbn [List.filter].
    destruct (String.eqb (Nome ponto) ""); cbn; repeat split; lia.
Qed.

Lemma markers_counts (r : Renderer3D F) (figure : Figure F) (cfg : RenderConfig F) :
  countOp isStroke (markers r figure cfg) = 0%nat
  /\ countOp isCircle (markers r figure cfg)
     = (if cfg.(ShowVertices) then length figure.(Pontos) else 0%nat)
  /\ countOp isText (markers r figure cfg)
     = (if cfg.(ShowLabels) then length (namedPoints figure) else 0%nat).
Proof.
  unfold markers, namedPoints.
  destruct (vertexMarkers_counts cfg (ProjectPoint r) (Pontos figure)) as (V1 & V2 & V3).
  destruct (labelMarkers_counts cfg (ProjectPoint r) (Pontos figure)) as (L1 & L2 & L3).
  destruct (ShowVertices cfg).
  - rewrite !countOp_app, V1, V2, V3. cbn.
    destruct (ShowLabels cfg); repeat split; lia.
  - destruct (ShowLabels cfg).
    + rewrite !countOp_app, L1, L2, L3. cbn. repeat split; lia.
    + cbn. repeat split; reflexivity.
Qed.

Lemma edges_no_markers (pontos2D : list (Point2D F)) (linhas : list Line) :
  countOp isCircle (flat_map (edgeStrokes pontos2D) linhas) = 0%nat
  /\ countOp isText (flat_map (edgeStrokes pontos2D) linhas) = 0%nat.
Proof.
  split.
  - rewrite (countOp_flat_map _ _ 0); [lia|].
    apply Forall_forall. intros linha _. apply edgeStrokes_counts.
  - rewrite (countOp_flat_map _ _ 0); [lia|].
    apply Forall_forall. intros linha _. apply edgeStrokes_counts.
Qed.

(** X4. On a figure that validates, a render strokes every line, each as the
    segment between the projections of its two points: it does not panic on a
    slice index or on a nil pointer and returns no error, and whenever it
    returns the surface has received
    [drawing], in which the number of [Stroke] calls is the number of lines
    and the strokes of each line are [MoveTo] the first projected point,
    [LineTo] the second, [Stroke]. *)
Theorem render_strokes_every_valid_line (r : Renderer3D F) (figure : Figure F)
    (cfg : RenderConfig F) (Hvalid : validateFigure figure = None) :
  (forall i n ctx,
     RenderFigureWithConfig r (Some figure) cfg <> Panicked (IndexOutOfRange i n) ctx)
  /\ (forall ctx,
        RenderFigureWithConfig r (Some figure) cfg <> Panicked NilDereference ctx)
  /\ (forall result ctx,
        RenderFigureWithConfig r (Some figure) cfg = Returned result ctx ->
        result = None /\ ctx = r.(context) ++ drawing r figure cfg)
  /\ countOp isStroke (drawing r figure cfg) = length figure.(Linhas)
  /\ Forall (fun linha =>
               exists p1 p2,
                 figure.(Pontos) !! Z.to_nat linha.(P1) = Some p1
                 /\ figure.(Pontos) !! Z.to_nat linha.(P2) = Some p2
                 /\ edgeStrokes (map (ProjectPoint r) figure.(Pontos)) linha
                    = [MoveTo (ProjectPoint r p1).(sX) (ProjectPoint r p1).(sY);
                       LineTo (ProjectPoint r p2).(sX) (ProjectPoint r p2).(sY);
                       Stroke])
       figure.(Linhas).
Proof.
  apply validateFigure_None in Hvalid as (HP & _ & Hall).
  assert (Hsegments :
    Forall (fun linha =>
              exists p1 p2,
                figure.(Pontos) !! Z.to_nat linha.(P1) = Some p1
                /\ figure.(Pontos) !! Z.to_nat linha.(P2) = Some p2
                /\ edgeStrokes (map (ProjectPoint r) figure.(Pontos)) linha
                   = [MoveTo (ProjectPoint r p1).(sX) (ProjectPoint r p1).(sY);
                      LineTo (ProjectPoint r p2).(sX) (ProjectPoint r p2).(sY);
                      Stroke])
      figure.(Linhas)).
  { eapply Forall_impl; [exact Hall|]. intros linha Hl. cbv beta.
    rewrite <- (length_map (ProjectPoint r)) in Hl.
    destruct (edgeStrokes_valid _ _ Hl) as (q1 & q2 & E1 & E2 & Es).
    rewrite list_lookup_fmap in E1, E2.
    destruct (Pontos figure !! Z.to_nat (P1 linha)) as [p1|]; [|discriminate E1].
    destruct (Pontos figure !! Z.to_nat (P2 linha)) as [p2|]; [|discriminate E2].
    injection E1 as <-. injection E2 as <-.
    exists p1, p2. repeat split; exact Es. }
  assert (Hrun : RenderFigureWithConfig r (Some figure) cfg
                 = Returned None (r.(context) ++ drawing r figure cfg)).
  { apply render_tolerated; [exact HP|].
    eapply Forall_impl; [exact Hall|]. apply validLine_tolerated. }
  rewrite Hrun.
  do 2 (split; [discriminate|]).
  split; [intros result ctx H; injection H as <- <-; split; reflexivity|].
  split; [|exact Hsegments].
  - unfold drawing. rewrite !countOp_app.
    destruct (markers_counts r figure cfg) as (-> & _ & _).
    rewrite (countOp_flat_map _ _ 1).
    + cbn. lia.
    + eapply Forall_impl; [exact Hsegments|]. intros linha (p1 & p2 & _ & _ & ->).
      reflexivity.
Qed.

Lemma tolerated_dec (n : Z) (linha : Line) :
  {tolerated n linha} + {~ tolerated n linha}.
Proof.
  unfold tolerated, nonNegative.
  destruct (Z_le_dec n (P1 linha)); [left; lia|].
  destruct (Z_le_dec n (P2 linha)); [left; lia|].
  destruct (Z_le_dec 0 (P1 linha)), (Z_le_dec 0 (P2 linha));
    try (right; lia). left; lia.
Qed.

Lemma not_tolerated (n : Z) (linha : Line) :
  ~ tolerated n linha ->
  (linha.(P1) < n)%Z /\ (linha.(P2) < n)%Z /\ ~ nonNegative linha.
Proof. unfold tolerated. intros H. repeat split; try lia. tauto. Qed.

(** The loop over the edges returns on the tolerated lines only. *)
Lemma forEach_edges_returned (pontos2D : list (Point2D F)) (linhas : list Line) :
  forall (ctx ctx' : ggContext F) (u : unit),
    forEach linhas (drawEdge pontos2D) ctx = Returned u ctx' ->
    Forall (tolerated (Z.of_nat (length pontos2D))) linhas.
Proof.
  induction linhas as [|linha rest IH]; intros ctx ctx' u Hrun.
  - constructor.
  - rewrite forEach_cons in Hrun.
    destruct (tolerated_dec (Z.of_nat (length pontos2D)) linha) as [Ht|Ht].
    + rewrite (drawEdge_tolerated _ _ _ Ht) in Hrun.
      constructor; [exact Ht | exact (IH _ _ _ Hrun)].
    + apply not_tolerated in Ht as (G1 & G2 & Hneg).
      destruct (drawEdge_negative pontos2D linha ctx G1 G2 Hneg) as (i & _ & Hp).
      rewrite Hp in Hrun. discriminate Hrun.
Qed.

(** A render that returns nil went over tolerated lines only, and drew what
    [drawing] says. *)
Lemma render_returned (r : Renderer3D F) (figure : Figure F)
    (cfg : RenderConfig F) (ctx : ggContext F) :
  RenderFigureWithConfig r (Some figure) cfg = Returned None ctx ->
  figure.(Pontos) <> []
  /\ Forall (tolerated (Z.of_nat (length figure.(Pontos)))) figure.(Linhas)
  /\ ctx = r.(context) ++ drawing r figure cfg.
Proof.
  intros Hrun.
  assert (HP : Pontos figure <> []).
  { intros EP. rewrite (render_no_points _ _ _ EP) in Hrun. discriminate Hrun. }
  assert (Hall : Forall (tolerated (Z.of_nat (length figure.(Pontos)))) figure.(Linhas)).
  { rewrite (render_with_points _ _ _ HP) in Hrun.
    destruct (forEach (Linhas figure) _ _) as [u ctx1|] eqn:E; [|discriminate Hrun].
    apply forEach_edges_returned in E. rewrite length_map in E. exact E. }
  repeat split; [exact HP | exact Hall |].
  rewrite (render_tolerated _ _ _ HP Hall) in Hrun. injection Hrun as <-. reflexivity.
Qed.

(** X5. What a render draws besides the edges, whenever it returns: a disc for
    every point when [ShowVertices] is set and none otherwise; a text for
    every point with a name when [ShowLabels] is set, with or without the
    vertices, and none otherwise. *)
Theorem render_marker_counts (r : Renderer3D F) (figure : Figure F)
    (cfg : RenderConfig F) (ctx : ggContext F)
    (Hrun : RenderFigureWithConfig r (Some figure) cfg = Returned None ctx) :
  exists ops,
    ctx = r.(context) ++ ops
    /\ countOp isCircle ops
       = (if cfg.(ShowVertices) then length figure.(Pontos) else 0%nat)
    /\ countOp isText ops
       = (if cfg.(ShowLabels) then length (namedPoints figure) else 0%nat).
Proof.
  apply render_returned in Hrun as (_ & _ & ->).
  exists (drawing r figure cfg). split; [reflexivity|].
  unfold drawing. rewrite !countOp_app.
  destruct (markers_counts r figure cfg) as (_ & -> & ->).
  destruct (edges_no_markers (map (ProjectPoint r) (Pontos figure)) (Linhas figure))
    as (-> & ->).
  cbn. split; reflexivity.
Qed.

(** X6. A render returns the "no points" error without touching the surface,
    and this is the only error it returns. *)
Theorem render_error_leaves_surface (r : Renderer3D F) (figure : Figure F)
    (cfg : RenderConfig F) (err : error) (ctx : ggContext F)
    (Hrun : RenderFigureWithConfig r (Some figure) cfg = Returned (Some err) ctx) :
  figure.(Pontos) = [] /\ ctx = r.(context)
  /\ err = Errorf "figura não possui pontos".
Proof.
  destruct (Pontos figure) as [|p0 ps] eqn:EP.
  - rewrite (render_no_points _ _ _ EP) in Hrun. injection Hrun as <- <-.
    repeat split; reflexivity.
  - rewrite render_with_points in Hrun by (rewrite EP; discriminate).
    destruct (forEach _ _ _); discriminate Hrun.
Qed.

Lemma first_not_tolerated (n : Z) (linhas : list Line) :
  ~ Forall (tolerated n) linhas ->
  exists before linha after,
    linhas = before ++ linha :: after
    /\ Forall (tolerated n) before /\ ~ tolerated n linha.
Proof.
  induction linhas as [|linha rest IH]; intros Hnot.
  - exfalso. apply Hnot. constructor.
  - destruct (tolerated_dec n linha) as [Ht|Ht].
    + destruct IH as (before & bad & after & -> & Hb & Hbad).
      { intros Hrest. apply Hnot. constructor; assumption. }
      exists (linha :: before), bad, after. repeat split; [|exact Hbad].
      constructor; assumption.
    + exists [], linha, rest. repeat split; [constructor | exact Ht].
Qed.

(** X7. On a figure with a point, a render that returns has returned nil and
    has met no line with a negative index and both indices below the number
    of points; a render that panics on a slice index has met such a line, and
    the index is negative; no render panics on a nil pointer; this whatever
    the configuration. *)
Theorem render_outcome_by_lines (r : Renderer3D F) (figure : Figure F)
    (cfg : RenderConfig F) (Hpoints : figure.(Pontos) <> []) :
  let n := Z.of_nat (length figure.(Pontos)) in
  let skippedOrDrawn linha :=
    (n <= linha.(P1))%Z \/ (n <= linha.(P2))%Z
    \/ ((0 <= linha.(P1))%Z /\ (0 <= linha.(P2))%Z) in
  (forall result ctx,
     RenderFigureWithConfig r (Some figure) cfg = Returned result ctx ->
     result = None /\ Forall skippedOrDrawn figure.(Linhas))
  /\ (forall i m ctx,
        RenderFigureWithConfig r (Some figure) cfg = Panicked (IndexOutOfRange i m) ctx ->
        ~ Forall skippedOrDrawn figure.(Linhas) /\ (i < 0)%Z /\ m = n)
  /\ (forall ctx,
        RenderFigureWithConfig r (Some figure) cfg <> Panicked NilDereference ctx).
Proof.
  intros n skippedOrDrawn. subst n skippedOrDrawn.
  change (Forall _ (Linhas figure))
    with (Forall (tolerated (Z.of_nat (length (Pontos figure)))) (Linhas figure)).
  destruct (List.Forall_dec (tolerated (Z.of_nat (length (Pontos figure))))
              (tolerated_dec _) (Linhas figure)) as [Hall|Hnot].
  - rewrite (render_tolerated _ _ _ Hpoints Hall). split; [|split].
    + intros result ctx H. injection H as <- _. split; [reflexivity | exact Hall].
    + discriminate.
    + discriminate.
  - destruct (first_not_tolerated _ _ Hnot) as (before & linha & after & E & Hb & Hbad).
    destruct (render_negative_index r figure cfg before after linha Hpoints E Hb Hbad)
      as (i & ctx0 & Hi & Hrun).
    rewrite Hrun. split; [|split].
    + discriminate.
    + intros j m ctx H. injection H as <- <- _. repeat split; [exact Hnot | exact Hi].
    + discriminate.
Qed.

End WhatARenderDraws.

Section StyleAfterDrawing.

Context {F : Type} {arith : Arith F}.
#[local] Open Scope list_scope.

Lemma colorAfter_app (start : option (F * F * F)) (a b : list (DrawOp F)) :
  colorAfter start (a ++ b) = colorAfter (colorAfter start a) b.
Proof. unfold colorAfter. apply fold_left_app. Qed.

Lemma lineWidthAfter_app (start : option F) (a b : list (DrawOp F)) :
  lineWidthAfter start (a ++ b) = lineWidthAfter (lineWidthAfter start a) b.
Proof. unfold lineWidthAfter. apply fold_left_app. Qed.

(** Calls that set no colour leave the colour as it was; likewise for the
    line width. *)
Lemma colorAfter_kept (ops : list (DrawOp F)) :
  countOp setsColor ops = 0%nat ->
  forall start, colorAfter start ops = start.
Proof.
  induction ops as [|op ops IH]; intros Hnone start; [reflexivity|].
  destruct op; cbn in Hnone; try discriminate Hnone; cbn; apply IH; exact Hnone.
Qed.

Lemma lineWidthAfter_kept (ops : list (DrawOp F)) :
  countOp setsLineWidth ops = 0%nat ->
  forall start, lineWidthAfter start ops = start.
Proof.
  induction ops as [|op ops IH]; intros Hnone start; [reflexivity|].
  destruct op; cbn in Hnone; try discriminate Hnone; cbn; apply IH; exact Hnone.
Qed.

Lemma colorAfter_last (start : option (F * F * F)) (ops : list (DrawOp F))
    (r g b : F) :
  colorAfter start (ops ++ [SetRGB r g b]) = Some (r, g, b).
Proof. rewrite colorAfter_app. reflexivity. Qed.

Lemma edges_set_no_style (pontos2D : list (Point2D F)) (linhas : list Line) :
  countOp setsColor (flat_map (edgeStrokes pontos2D) linhas) = 0%nat
  /\ countOp setsLineWidth (flat_map (edgeStrokes pontos2D) linhas) = 0%nat.
Proof.
  assert (Hone : forall linha,
            countOp setsColor (edgeStrokes pontos2D linha) = 0%nat
            /\ countOp setsLineWidth (edgeStrokes pontos2D linha) = 0%nat).
  { intros linha. unfold edgeStrokes.
    destruct (pontos2D !! Z.to_nat (P1 linha)), (pontos2D !! Z.to_nat (P2 linha));
      try (split; reflexivity).
    destruct ((0 <=? P1 linha)%Z && (0 <=? P2 linha)%Z); split; reflexivity. }
  split.
  - rewrite (countOp_flat_map _ _ 0); [lia|].
    apply Forall_forall. intros linha _. apply Hone.
  - rewrite (countOp_flat_map _ _ 0); [lia|].
    apply Forall_forall. intros linha _. apply Hone.
Qed.

Lemma markers_set_no_width (r : Renderer3D F) (figure : Figure F)
    (cfg : RenderConfig F) :
  countOp setsLineWidth (markers r figure cfg) = 0%nat.
Proof.
  unfold markers. destruct (ShowVertices cfg); [|destruct (ShowLabels cfg)].
  - rewrite !countOp_app, (countOp_flat_map _ _ 0); [cbn; lia|].
    apply Forall_forall. intros [ponto p2D] _. unfold vertexMarker.
    destruct (ShowLabels cfg && negb (String.eqb (Nome ponto) "")); reflexivity.
  - rewrite !countOp_app, (countOp_flat_map _ _ 0); [cbn; lia|].
    apply Forall_forall. intros [ponto p2D] _. unfold labelMarker.
    destruct (String.eqb (Nome ponto) ""); reflexivity.
  - reflexivity.
Qed.

Lemma markers_end_in_line_color (r : Renderer3D F) (figure : Figure F)
    (cfg : RenderConfig F) :
  colorAfter (Some (cfg.(LineColor).(R), cfg.(LineColor).(G), cfg.(LineColor).(B)))
    (markers r figure cfg)
  = Some (cfg.(LineColor).(R), cfg.(LineColor).(G), cfg.(LineColor).(B)).
Proof.
  unfold markers. destruct (ShowVertices cfg); [|destruct (ShowLabels cfg)].
  - rewrite app_assoc. apply colorAfter_last.
  - apply colorAfter_last.
  - reflexivity.
Qed.

(** X8. A render that returns nil leaves the surface in the line style of the
    configuration, whatever markers it drew in between: the colour in force
    is [LineColor] and the line width is [LineWidth]. *)
Theorem render_leaves_line_style (r : Renderer3D F) (figure : Figure F)
    (cfg : RenderConfig F) (ctx : ggContext F)
    (Hrun : RenderFigureWithConfig r (Some figure) cfg = Returned None ctx) :
  currentColor ctx
  = Some (cfg.(LineColor).(R), cfg.(LineColor).(G), cfg.(LineColor).(B))
  /\ currentLineWidth ctx = Some cfg.(LineWidth).
Proof.
  apply render_returned in Hrun as (_ & _ & ->).
  unfold currentColor, currentLineWidth, drawing.
  destruct (edges_set_no_style (map (ProjectPoint r) (Pontos figure)) (Linhas figure))
    as (Hcolor & Hwidth).
  split.
  - rewrite !colorAfter_app, (colorAfter_kept _ Hcolor).
    apply markers_end_in_line_color.
  - rewrite !lineWidthAfter_app, (lineWidthAfter_kept _ Hwidth).
    apply (lineWidthAfter_kept _ (markers_set_no_width r figure cfg)).
Qed.

End StyleAfterDrawing.

Section Grid.

Context {F : Type} {arith : Arith F}.
#[local] Open Scope list_scope.

Lemma wrapInt_small (z : Z) : (- 2 ^ 63 <= z <= maxInt)%Z -> wrapInt z = z.
Proof.
  unfold wrapInt, maxInt. intros H.
  rewrite Z.mod_small by lia. lia.
Qed.

(** A counting loop whose body only draws, below the point where the
    counter would wrap: it makes [n] rounds, at [x], [x + 50], ..., where
    [n] is the number of multiples of 50 from [x] on that lie below the
    limit, and it ends on any fuel above [n]. *)
Lemma forStep50_draws (limit : Z) (body : Z -> Draw F unit)
    (g : Z -> list (DrawOp F)) :
  (limit <= maxInt - 7)%Z ->
  (forall x ctx, body x ctx = Returned tt (ctx ++ g x)) ->
  forall (n : nat) (k : Z) (ctx : ggContext F) (fuel : nat),
    (0 <= k)%Z ->
    Z.to_nat ((limit - 50 * k + 49) / 50) = n ->
    (n < fuel)%nat ->
    forStep50 fuel (50 * k) limit body ctx =
      Some (Returned tt
              (ctx ++ flat_map g
                        (map (fun j => (50 * k + 50 * Z.of_nat j)%Z) (seq 0 n)))).
Proof.
  intros Hlimit Hbody. induction n as [|n IH]; intros k ctx fuel Hk Hn Hfuel.
  - destruct fuel as [|fuel]; [lia|]. cbn [forStep50].
    destruct (Z.ltb_spec (50 * k) limit) as [Hlt|Hge].
    + exfalso. assert (1 <= (limit - 50 * k + 49) / 50)%Z
        by (apply Z.div_le_lower_bound; lia). lia.
    + cbn. rewrite app_nil_r. reflexivity.
  - destruct fuel as [|fuel]; [lia|]. cbn [forStep50].
    destruct (Z.ltb_spec (50 * k) limit) as [Hlt|Hge].
    + rewrite Hbody.
      rewrite wrapInt_small by (unfold maxInt in *; lia).
      replace (50 * k + 50)%Z with (50 * (k + 1))%Z by lia.
      rewrite (IH (k + 1)%Z) by
        (try lia;
         replace (limit - 50 * (k + 1) + 49)%Z
           with ((limit - 50 * k + 49) + (-1) * 50)%Z by lia;
         rewrite Z.div_add by lia; lia).
      rewrite <- app_assoc. do 3 f_equal.
      rewrite <- cons_seq, <- seq_shift. cbn [map flat_map].
      rewrite List.map_map.
      f_equal; [f_equal; lia|].
      f_equal. apply map_ext. intros j. lia.
    + exfalso. assert ((limit - 50 * k + 49) / 50 <= 0)%Z
        by (apply Z.lt_succ_r, Z.div_lt_upper_bound; lia). lia.
Qed.

(** At the largest width the counter never reaches the limit: it is even
    and the limit is odd, before the wrap and after it. *)
Lemma forStep50_never_ends (body : Z -> Draw F unit) :
  (forall x ctx, exists ctx', body x ctx = Returned tt ctx') ->
  forall (fuel : nat) (x : Z) (ctx : ggContext F),
    Z.even x = true -> (- 2 ^ 63 <= x <= maxInt)%Z ->
    forStep50 fuel x maxInt body ctx = None.
Proof.
  intros Hbody. induction fuel as [|fuel IH]; intros x ctx Heven Hrange;
    [reflexivity|].
  cbn [forStep50].
  assert (Hne : x <> maxInt) by (intros ->; discriminate Heven).
  destruct (Z.ltb_spec x maxInt) as [Hlt|Hge]; [|lia].
  destruct (Hbody x ctx) as [ctx' ->].
  apply IH.
  - unfold wrapInt. rewrite Z.mod_eq by lia.
    rewrite !Z.even_sub, Z.even_add, Z.even_add, Z.even_mul, Heven. reflexivity.
  - unfold wrapInt, maxInt.
    pose proof (Z.mod_pos_bound (x + 50 + 2 ^ 63) (2 ^ 64) ltac:(lia)). lia.
Qed.

(** The positions of the grid lines: the multiples of 50 from 0 on that lie
    below the limit, each once. *)
Lemma gridPositions_spec (limit x : Z) :
  In x (gridPositions limit) <-> (0 <= x < limit)%Z /\ (x mod 50 = 0)%Z.
Proof.
  unfold gridPositions. rewrite in_map_iff. split.
  - intros (k & <- & Hk). apply in_seq in Hk.
    split; [|rewrite Z.mul_comm; apply Z_mod_mult].
    split; [lia|].
    assert (Hq : (Z.of_nat k < (limit + 49) / 50)%Z) by lia.
    assert (Z.of_nat k + 1 <= (limit + 49) / 50)%Z by lia.
    pose proof (Z.mul_div_le (limit + 49) 50 ltac:(lia)). lia.
  - intros ([H0 Hlim] & Hmod).
    exists (Z.to_nat (x / 50)). split.
    + rewrite Z2Nat.id by (apply Z.div_pos; lia).
      pose proof (Z.div_mod x 50 ltac:(lia)). lia.
    + apply in_seq. split; [lia|]. cbn [Nat.add].
      apply Z2Nat.inj_lt; [apply Z.div_pos; lia | apply Z.div_pos; lia |].
      pose proof (Z.div_mod x 50 ltac:(lia)) as Hx. rewrite Hmod in Hx.
      apply Z.div_lt_upper_bound; [lia|].
      apply Z.lt_le_trans with (m := (x + 50)%Z); [lia|].
      replace (x + 50)%Z with (50 * (x / 50 + 1))%Z by lia.
      apply Z.mul_le_mono_nonneg_l; [lia|].
      assert (Hdiv : (x / 50 < (limit + 49) / 50)%Z).
      { apply Z.div_lt_upper_bound; [lia|].
        pose proof (Z.mul_succ_div_gt (limit + 49) 50 ltac:(lia)). lia. }
      lia.
Qed.

Lemma gridPositions_NoDup (limit : Z) : List.NoDup (gridPositions limit).
Proof.
  unfold gridPositions. apply Finite.Injective_map_NoDup; [|apply seq_NoDup].
  intros j k Hjk. lia.
Qed.

Lemma AddGrid_ops (r : Renderer3D F) :
  (r.(width) <= maxInt - 7)%Z -> (r.(height) <= maxInt - 7)%Z ->
  forall fuel,
    (Z.to_nat ((r.(width) + 49) / 50) < fuel)%nat ->
    (Z.to_nat ((r.(height) + 49) / 50) < fuel)%nat ->
    AddGrid fuel r =
      Some (Returned tt
              (r.(context)
               ++ [SetRGB (lit (9 # 10)) (lit (9 # 10)) (lit (9 # 10));
                   SetLineWidth (lit (5 # 10))]
               ++ flat_map (verticalLine r) (gridPositions r.(width))
               ++ flat_map (horizontalLine r) (gridPositions r.(height))
               ++ [SetRGB (lit 0) (lit 0) (lit 0); SetLineWidth (lit 1)])).
Proof.
  intros Hwidth Hheight fuel Hfw Hfh. unfold AddGrid. rewrite !bind_call.
  unfold call at 1.
  change 0%Z with (50 * 0)%Z at 1.
  rewrite (forStep50_draws (width r) _ (verticalLine r) Hwidth)
    with (n := Z.to_nat ((width r + 49) / 50)); try lia.
  2:{ intros x ctx. rewrite !bind_call. unfold call, verticalLine.
      rewrite <- !app_assoc. reflexivity. }
  2:{ f_equal. f_equal. lia. }
  change 0%Z with (50 * 0)%Z at 1.
  rewrite (forStep50_draws (height r) _ (horizontalLine r) Hheight)
    with (n := Z.to_nat ((height r + 49) / 50)); try lia.
  2:{ intros y ctx. rewrite !bind_call. unfold call, horizontalLine.
      rewrite <- !app_assoc. reflexivity. }
  2:{ f_equal. f_equal. lia. }
  rewrite !bind_call. unfold call, gridPositions. cbn [Z.mul Z.add].
  rewrite <- !app_assoc. reflexivity.
Qed.

(** X9. On a renderer whose width and height are at most the largest
    multiple of 50 an [int] holds, the loops of [AddGrid] end and the calls
    it makes on the surface are: the light grey style, a vertical line from
    top to bottom at every multiple of 50 below the width, a horizontal line
    from left to right at every multiple of 50 below the height, and the
    style black, 1.0.  The multiples are those from 0 on, each once.  Beyond
    that size the counter wraps around: at the largest width the loop does
    not end. *)
Theorem AddGrid_draws_the_grid (r : Renderer3D F)
    (Hwidth : (r.(width) <= maxInt - 7)%Z)
    (Hheight : (r.(height) <= maxInt - 7)%Z) :
  (exists enough, forall fuel, (enough <= fuel)%nat ->
     AddGrid fuel r =
       Some (Returned tt
               (r.(context)
                ++ [SetRGB (lit (9 # 10)) (lit (9 # 10)) (lit (9 # 10));
                    SetLineWidth (lit (5 # 10))]
                ++ flat_map (fun x => [MoveTo (of_int x) (lit 0);
                                       LineTo (of_int x) (of_int r.(height)); Stroke])
                     (gridPositions r.(width))
                ++ flat_map (fun y => [MoveTo (lit 0) (of_int y);
                                       LineTo (of_int r.(width)) (of_int y); Stroke])
                     (gridPositions r.(height))
                ++ [SetRGB (lit 0) (lit 0) (lit 0); SetLineWidth (lit 1)])))
  /\ (forall limit x,
        In x (gridPositions limit) <-> (0 <= x < limit)%Z /\ (x mod 50 = 0)%Z)
  /\ (forall limit, List.NoDup (gridPositions limit))
  /\ (forall (wide : Renderer3D F) fuel,
        wide.(width) = maxInt -> AddGrid fuel wide = None).
Proof.
  split.
  { exists (S (Nat.max (Z.to_nat ((r.(width) + 49) / 50))
                       (Z.to_nat ((r.(height) + 49) / 50)))).
    intros fuel Hfuel. apply AddGrid_ops; try assumption; lia. }
  split; [apply gridPositions_spec|].
  split; [apply gridPositions_NoDup|].
  intros wide fuel Hwide. unfold AddGrid. rewrite !bind_call. unfold call at 1.
  rewrite Hwide, forStep50_never_ends; [reflexivity | | reflexivity | unfold maxInt; lia].
  intros x ctx. rewrite !bind_call. unfold call. eauto.
Qed.

(** X10. What [AddGrid] adds to a surface, on a renderer whose width and
    height are at most the largest multiple of 50 an [int] holds: as many
    strokes as there are multiples of 50 below the width and below the
    height, none when a dimension is not positive; and it leaves the surface
    in the style [New] starts with, black and 1.0, whatever was in force
    before. *)
Theorem AddGrid_strokes_and_style (r : Renderer3D F)
    (Hwidth : (r.(width) <= maxInt - 7)%Z)
    (Hheight : (r.(height) <= maxInt - 7)%Z) :
  exists ops enough,
    (forall fuel, (enough <= fuel)%nat ->
       AddGrid fuel r = Some (Returned tt (r.(context) ++ ops)))
    /\ countOp isStroke ops
       = (Z.to_nat ((r.(width) + 49) / 50) + Z.to_nat ((r.(height) + 49) / 50))%nat
    /\ currentColor (r.(context) ++ ops) = currentColor (New (F := F) 0 0).(context)
    /\ currentLineWidth (r.(context) ++ ops)
       = currentLineWidth (New (F := F) 0 0).(context).
Proof.
  eexists. exists (S (Nat.max (Z.to_nat ((r.(width) + 49) / 50))
                             (Z.to_nat ((r.(height) + 49) / 50)))).
  split; [intros fuel Hfuel; apply AddGrid_ops; try assumption; lia|].
  split; [|split].
  - rewrite !countOp_app.
    rewrite (countOp_flat_map _ _ 1), (countOp_flat_map _ _ 1);
      try (apply Forall_forall; intros; reflexivity).
    unfold gridPositions. rewrite !length_map, !length_seq. cbn. lia.
  - unfold currentColor. rewrite !app_assoc, colorAfter_app. reflexivity.
  - unfold currentLineWidth. rewrite !app_assoc, lineWidthAfter_app. reflexivity.
Qed.

End Grid.

(** X9 and X10 at the 800 x 600 renderer: 16 and 12 grid lines. *)
Lemma AddGrid_draws_the_grid_witness :
  (renderer800.(width) <= maxInt - 7)%Z /\ (renderer800.(height) <= maxInt - 7)%Z
  /\ exists enough, forall fuel, (enough <= fuel)%nat ->
       exists image, AddGrid fuel renderer800 = Some (Returned tt image).
Proof.
  assert (Hwidth : (renderer800.(width) <= maxInt - 7)%Z) by (vm_compute; discriminate).
  assert (Hheight : (renderer800.(height) <= maxInt - 7)%Z) by (vm_compute; discriminate).
  split; [exact Hwidth|]. split; [exact Hheight|].
  destruct (AddGrid_draws_the_grid renderer800 Hwidth Hheight) as [[enough Hrun] _].
  exists enough. intros fuel Hfuel. eexists. exact (Hrun fuel Hfuel).
Defined.

Lemma AddGrid_strokes_and_style_witness :
  (renderer800.(width) <= maxInt - 7)%Z /\ (renderer800.(height) <= maxInt - 7)%Z
  /\ exists ops enough,
       (forall fuel, (enough <= fuel)%nat ->
          AddGrid fuel renderer800
          = Some (Returned tt (renderer800.(context) ++ ops)%list))
       /\ countOp isStroke ops = 28%nat.
Proof.
  assert (Hwidth : (renderer800.(width) <= maxInt - 7)%Z) by (vm_compute; discriminate).
  assert (Hheight : (renderer800.(height) <= maxInt - 7)%Z) by (vm_compute; discriminate).
  split; [exact Hwidth|]. split; [exact Hheight|].
  destruct (AddGrid_strokes_and_style renderer800 Hwidth Hheight)
    as (ops & enough & Hrun & Hcount & _).
  exists ops, enough. split; [exact Hrun | exact Hcount].
Defined.

Section Pipeline.

Context {F : Type} {arith : Arith F} {lib : Strings}.
#[local] Open Scope list_scope.

Variable ReadFile : string -> string * option error.
Variable Unmarshal : string -> Figure F * option error.
Variable NewContext : Z -> Z -> bool.
Variable SavePNG : ggContext F -> string -> option error.

Lemma load_figure_or_error (filename : string) :
  LoadFigureFromYAML ReadFile Unmarshal filename <> (None, None).
Proof.
  unfold LoadFigureFromYAML.
  destruct (ReadFile filename) as [data [e|]]; [discriminate|].
  destruct (Unmarshal data) as [figure [e|]]; [discriminate|].
  match goal with |- context [validateFigure ?f] =>
    destruct (validateFigure f) end; discriminate.
Qed.

(** A loaded figure renders, on any renderer and with any configuration. *)
Lemma loaded_renders (filename : string) (figura : Figure F)
    (r : Renderer3D F) (cfg : RenderConfig F) (e : option error) :
  LoadFigureFromYAML ReadFile Unmarshal filename = (Some figura, e) ->
  RenderFigureWithConfig r (Some figura) cfg
  = Returned None (r.(context) ++ drawing r figura cfg).
Proof.
  intros Hload.
  assert (e = None) as ->.
  { revert Hload. unfold LoadFigureFromYAML.
    destruct (ReadFile filename) as [data [e1|]]; [discriminate|].
    destruct (Unmarshal data) as [figure [e1|]]; [discriminate|].
    match goal with |- context [validateFigure ?f] =>
      destruct (validateFigure f) end; congruence. }
  apply loaded_validates, validateFigure_None in Hload as (HP & _ & Hall).
  apply render_tolerated; [exact HP|].
  eapply Forall_impl; [exact Hall|]. apply validLine_tolerated.
Qed.


(** How [generatePNG] ends, by cases. *)
Lemma generatePNG_cases (yamlFile : string) :
  match generatePNG ReadFile Unmarshal NewContext SavePNG yamlFile with
  | Saved _ _ _ => True
  | Fatal _ msg err =>
      (msg = "Erro ao carregar arquivo YAML: "
       /\ snd (LoadFigureFromYAML ReadFile Unmarshal yamlFile) = Some err)
      \/ (msg = "Erro na configuração de renderização: "
          /\ exists figura,
               LoadFigureFromYAML ReadFile Unmarshal yamlFile = (Some figura, None)
               /\ snd (ConfigFromFigure (Some figura)) = Some err)
      \/ (msg = "Erro ao salvar imagem: "
          /\ exists image outputFile, SavePNG image outputFile = Some err)
  | Crashed _ p =>
      p = LibraryPanic "gg.NewContext"
      /\ exists figura,
           LoadFigureFromYAML ReadFile Unmarshal yamlFile = (Some figura, None)
           /\ snd (ConfigFromFigure (Some figura)) = None
           /\ NewContext (fst (canvasSize figura)) (snd (canvasSize figura)) = false
  end.
Proof.
  unfold generatePNG.
  destruct (LoadFigureFromYAML ReadFile Unmarshal yamlFile)
    as [[figura|] [e|]] eqn:Hload.
  - left. split; reflexivity.
  - destruct (canvasSize figura) as [w h] eqn:Hsize.
    destruct (ConfigFromFigure (Some figura)) as [cfg [e|]] eqn:Hcfg.
    { right; left. split; [reflexivity|]. exists figura.
      split; [reflexivity | rewrite Hcfg; reflexivity]. }
    destruct (NewContext w h) eqn:Hnew; cbn [negb].
    2:{ split; [reflexivity|]. exists figura.
        rewrite ?Hcfg, ?Hsize. cbn [fst snd].
        repeat split; try reflexivity; assumption. }
    rewrite (loaded_renders yamlFile figura _ cfg None Hload).
    destruct (SavePNG _ _) as [e|] eqn:Hsave; [|exact I].
    right; right. split; [reflexivity|]. eauto.
  - left. split; reflexivity.
  - destruct (load_figure_or_error yamlFile Hload).
Qed.

(** X11. The validation of the loader makes the render of [generatePNG]
    safe: whatever the file holds, [generatePNG] does not end on a render
    error and does not panic on a slice index or on a nil pointer.  When it
    ends fatally, it is with the message and the error of loading, of the
    render configuration or of saving.  When [gg.NewContext] panics on the
    canvas size of a figure that was loaded and configured, [generatePNG]
    ends with that panic. *)
Theorem generatePNG_endings (yamlFile : string) :
  let ending := generatePNG ReadFile Unmarshal NewContext SavePNG yamlFile in
  (forall out msg err,
     ending = Fatal out msg err ->
     (msg = "Erro ao carregar arquivo YAML: "
      /\ snd (LoadFigureFromYAML ReadFile Unmarshal yamlFile) = Some err)
     \/ (msg = "Erro na configuração de renderização: "
         /\ exists figura,
              LoadFigureFromYAML ReadFile Unmarshal yamlFile = (Some figura, None)
              /\ snd (ConfigFromFigure (Some figura)) = Some err)
     \/ (msg = "Erro ao salvar imagem: "
         /\ exists image outputFile, SavePNG image outputFile = Some err))
  /\ (forall out i n, ending <> Crashed out (IndexOutOfRange i n))
  /\ (forall out, ending <> Crashed out NilDereference)
  /\ (forall figura,
        LoadFigureFromYAML ReadFile Unmarshal yamlFile = (Some figura, None) ->
        snd (ConfigFromFigure (Some figura)) = None ->
        NewContext (fst (canvasSize figura)) (snd (canvasSize figura)) = false ->
        exists out, ending = Crashed out (LibraryPanic "gg.NewContext")).
Proof.
  intros ending. pose proof (generatePNG_cases yamlFile) as H. fold ending in H.
  split; [|split; [|split]].
  - intros out msg err E. rewrite E in H. exact H.
  - intros out i n E. rewrite E in H. destruct H as [H _]. discriminate H.
  - intros out E. rewrite E in H. destruct H as [H _]. discriminate H.
  - intros figura Hload Hcfg Hnew. subst ending. clear H. unfold generatePNG.
    rewrite Hload. destruct (canvasSize figura) as [w h].
    destruct (ConfigFromFigure (Some figura)) as [cfg [e|]]; [discriminate Hcfg|].
    cbn [fst snd] in Hnew. rewrite Hnew. cbn [negb]. eexists. reflexivity.
Qed.


End Pipeline.


Section ConfigProperties.

Context {F : Type} {arith : Arith F} {lib : Strings}.
#[local] Open Scope list_scope.

Lemma colorStep_cases (setting msg : string)
    (assign : RenderConfig F -> colorRGB F -> RenderConfig F)
    (cfg : RenderConfig F)
    (next : RenderConfig F -> RenderConfig F * option error) :
  colorStep setting msg assign cfg next =
    if String.eqb setting "" then next cfg
    else match snd (parseColor setting) with
         | Some err => (cfg, Some (Wrapf msg err))
         | None => next (assign cfg (fst (parseColor setting)))
         end.
Proof.
  unfold colorStep. destruct (String.eqb setting ""); [reflexivity|].
  destruct (parseColor setting) as [col [err|]]; reflexivity.
Qed.

(** X13. The colours of a configuration that [ConfigFromFigure] returns
    without error, for a figure with render settings: each is the default
    (white background, black lines, vertices (0.8, 0, 0)) when its setting is
    empty and the parsed setting otherwise, and every setting that is not
    empty did parse. *)
Theorem ConfigFromFigure_colors (fig : option (Figure F))
    (settings : RenderSettings F) (cfg : RenderConfig F)
    (Hsettings : settingsOf fig = Some settings)
    (Hrun : ConfigFromFigure fig = (cfg, None)) :
  cfg.(Background)
  = (if String.eqb settings.(rsBackground) ""
     then {| R := lit 1; G := lit 1; B := lit 1 |}
     else fst (parseColor settings.(rsBackground)))
  /\ cfg.(LineColor)
     = (if String.eqb settings.(rsLineColor) ""
        then {| R := lit 0; G := lit 0; B := lit 0 |}
        else fst (parseColor settings.(rsLineColor)))
  /\ cfg.(VertexColor)
     = (if String.eqb settings.(rsVertexColor) ""
        then {| R := lit (8 # 10); G := lit 0; B := lit 0 |}
        else fst (parseColor settings.(rsVertexColor)))
  /\ Forall (fun setting => setting <> "" -> snd (parseColor (F := F) setting) = None)
       [settings.(rsBackground); settings.(rsLineColor); settings.(rsVertexColor)].
Proof.
  destruct fig as [f|]; [|discriminate Hsettings].
  cbn in Hsettings. unfold ConfigFromFigure in Hrun. rewrite Hsettings in Hrun.
  rewrite !colorStep_cases in Hrun.
  destruct (String.eqb_spec (rsBackground settings) "") as [E1|E1];
    [|destruct (snd (parseColor (rsBackground settings))) eqn:P1;
      [discriminate Hrun|]];
  (destruct (String.eqb_spec (rsLineColor settings) "") as [E2|E2];
    [|destruct (snd (parseColor (rsLineColor settings))) eqn:P2;
      [discriminate Hrun|]]);
  (destruct (String.eqb_spec (rsVertexColor settings) "") as [E3|E3];
    [|destruct (snd (parseColor (rsVertexColor settings))) eqn:P3;
      [discriminate Hrun|]]);
  injection Hrun as <-;
  (split; [|split; [|split]];
   [ destruct (rsShowLabels settings), (rsShowVertices settings),
       (fltb (lit 0) (rsLineWidth settings)); reflexivity ..
   | repeat constructor; intros; congruence ]).
Qed.

(** One colour block that ends in an error: the setting itself does not
    parse, or it is taken and a later block fails. *)
Lemma colorStep_error (setting msg : string)
    (assign : RenderConfig F -> colorRGB F -> RenderConfig F)
    (default : colorRGB F) (cfg : RenderConfig F)
    (next : RenderConfig F -> RenderConfig F * option error)
    (cfg' : RenderConfig F) (err : error) :
  assign cfg default = cfg ->
  colorStep setting msg assign cfg next = (cfg', Some err) ->
  (setting <> ""
   /\ exists cause, snd (parseColor (F := F) setting) = Some cause
                    /\ err = Wrapf msg cause /\ cfg' = cfg)
  \/ ((setting = "" \/ snd (parseColor (F := F) setting) = None)
      /\ next (assign cfg (colorOr setting default)) = (cfg', Some err)).
Proof.
  intros Hdefault. rewrite colorStep_cases. unfold colorOr.
  destruct (String.eqb_spec setting "") as [E|E].
  - intros H. right. rewrite Hdefault. split; [left; exact E | exact H].
  - destruct (snd (parseColor setting)) as [cause|].
    + intros H. injection H as <- <-. left. split; [exact E|].
      exists cause. repeat split.
    + intros H. right. split; [right; reflexivity | exact H].
Qed.

(** X14. An error of [ConfigFromFigure] is the error of the first colour
    setting, in the order background, line, vertices, that is not empty and
    does not parse, wrapped with the message of that setting.  The
    configuration that comes with it is partial: it holds the colours of the
    settings before the failing one, and neither the line width nor the two
    flags of the settings. *)
Theorem ConfigFromFigure_error (fig : option (Figure F)) (cfg : RenderConfig F)
    (err : error) (Hrun : ConfigFromFigure fig = (cfg, Some err)) :
  exists (settings : RenderSettings F) (cause : error),
    let parses setting :=
      setting = "" \/ snd (parseColor (F := F) setting) = None in
    settingsOf fig = Some settings
    /\ cfg.(LineWidth) = lit 1
    /\ cfg.(ShowVertices) = false /\ cfg.(ShowLabels) = false
    /\ ((settings.(rsBackground) <> ""
         /\ snd (parseColor (F := F) settings.(rsBackground)) = Some cause
         /\ err = Wrapf "cor de fundo inválida: " cause
         /\ cfg = DefaultRenderConfig)
        \/ (parses settings.(rsBackground)
            /\ settings.(rsLineColor) <> ""
            /\ snd (parseColor (F := F) settings.(rsLineColor)) = Some cause
            /\ err = Wrapf "cor da linha inválida: " cause
            /\ cfg = withBackground DefaultRenderConfig
                       (colorOr settings.(rsBackground)
                          DefaultRenderConfig.(Background)))
        \/ (parses settings.(rsBackground) /\ parses settings.(rsLineColor)
            /\ settings.(rsVertexColor) <> ""
            /\ snd (parseColor (F := F) settings.(rsVertexColor)) = Some cause
            /\ err = Wrapf "cor dos vértices inválida: " cause
            /\ cfg = withLineColor
                       (withBackground DefaultRenderConfig
                          (colorOr settings.(rsBackground)
                             DefaultRenderConfig.(Background)))
                       (colorOr settings.(rsLineColor)
                          DefaultRenderConfig.(LineColor)))).
Proof.
  destruct fig as [f|]; [|discriminate Hrun].
  unfold ConfigFromFigure in Hrun.
  destruct (Render f) as [settings|] eqn:Hsettings; [|discriminate Hrun].
  apply (colorStep_error _ _ _ DefaultRenderConfig.(Background)) in Hrun
    as [(E1 & c & P1 & -> & ->) | (OK1 & Hrun)]; [| |reflexivity].
  { exists settings, c. cbn zeta.
    repeat split; try exact Hsettings. left. repeat split; assumption. }
  apply (colorStep_error _ _ _ DefaultRenderConfig.(LineColor)) in Hrun
    as [(E2 & c & P2 & -> & ->) | (OK2 & Hrun)]; [| |reflexivity].
  { exists settings, c. cbn zeta.
    repeat split; try exact Hsettings. right; left. repeat split; assumption. }
  apply (colorStep_error _ _ _ DefaultRenderConfig.(VertexColor)) in Hrun
    as [(E3 & c & P3 & -> & ->) | (OK3 & Hrun)]; [| |reflexivity].
  { exists settings, c. cbn zeta.
    repeat split; try exact Hsettings. right; right. repeat split; assumption. }
  cbv zeta in Hrun. discriminate Hrun.
Qed.

End ConfigProperties.

(** X13 at [figureWithSettings]: black background, red lines, blue vertices. *)
Lemma ConfigFromFigure_colors_witness :
  settingsOf (Some figureWithSettings) = figureWithSettings.(Render)
  /\ ConfigFromFigure (Some figureWithSettings)
     = (fst (ConfigFromFigure (Some figureWithSettings)), None)
  /\ (fst (ConfigFromFigure (Some figureWithSettings))).(Background)
     = {| R := lit 0; G := lit 0; B := lit 0 |}
  /\ (fst (ConfigFromFigure (Some figureWithSettings))).(LineColor)
     = {| R := lit 1; G := lit 0; B := lit 0 |}
  /\ (fst (ConfigFromFigure (Some figureWithSettings))).(VertexColor)
     = {| R := lit 0; G := lit 0; B := lit 1 |}.
Proof.
  assert (Hrun : ConfigFromFigure (Some figureWithSettings)
                 = (fst (ConfigFromFigure (Some figureWithSettings)), None))
    by (vm_compute; reflexivity).
  split; [reflexivity|]. split; [exact Hrun|].
  destruct (ConfigFromFigure_colors (Some figureWithSettings) _ _ eq_refl Hrun)
    as (Hb & Hl & Hv & _).
  rewrite Hb, Hl, Hv. vm_compute. repeat split; reflexivity.
Defined.

(** X14 at [figureBadLineColor]: the line colour [#12345] fails; the
    configuration holds the black background, and neither the width 3 nor
    the flags. *)
Lemma ConfigFromFigure_error_witness :
  ConfigFromFigure (Some figureBadLineColor)
  = (withBackground DefaultRenderConfig {| R := lit 0; G := lit 0; B := lit 0 |},
     Some (Wrapf "cor da linha inválida: "
             (Errorf "formato de cor inválido: #12345")))
  /\ exists (settings : RenderSettings B64.float64) (cause : error),
       settingsOf (Some figureBadLineColor) = Some settings
       /\ (withBackground DefaultRenderConfig
             {| R := lit 0; G := lit 0; B := lit 0 |}).(LineWidth) = lit 1.
Proof.
  assert (Hrun :
    ConfigFromFigure (Some figureBadLineColor)
    = (withBackground DefaultRenderConfig {| R := lit 0; G := lit 0; B := lit 0 |},
       Some (Wrapf "cor da linha inválida: "
               (Errorf "formato de cor inválido: #12345"))))
    by (vm_compute; reflexivity).
  split; [exact Hrun|].
  destruct (ConfigFromFigure_error (Some figureBadLineColor) _ _ Hrun)
    as (settings & cause & Hs & Hw & _).
  exists settings, cause. split; [exact Hs | exact Hw].
Defined.

Section HexForms.

Context {F : Type} {arith : Arith F} {lib : Strings}.

Lemma isSpace_lowerByte (c : ascii) : isSpace (lowerByte c) = isSpace c.
Proof. destruct c as [[] [] [] [] [] [] [] []]; reflexivity. Qed.

Lemma lowerASCII_trimLeft (s : string) :
  lowerASCII (trimLeft s) = trimLeft (lowerASCII s).
Proof.
  induction s as [|c s IH]; [reflexivity|].
  cbn [trimLeft lowerASCII]. rewrite isSpace_lowerByte.
  destruct (isSpace c); [exact IH | reflexivity].
Qed.

Lemma lowerASCII_trimRight (s : string) :
  lowerASCII (trimRight s) = trimRight (lowerASCII s).
Proof.
  induction s as [|c s IH]; [reflexivity|].
  cbn [trimRight lowerASCII]. rewrite <- IH, isSpace_lowerByte.
  destruct (trimRight s); cbn [lowerASCII]; [destruct (isSpace c)|]; reflexivity.
Qed.

Lemma lowerASCII_trimASCII (s : string) :
  lowerASCII (trimASCII s) = trimASCII (lowerASCII s).
Proof.
  unfold trimASCII. rewrite lowerASCII_trimRight, lowerASCII_trimLeft. reflexivity.
Qed.

Lemma isASCII_trimLeft (s : string) : isASCII s = true -> isASCII (trimLeft s) = true.
Proof.
  induction s as [|c s IH]; [reflexivity|]. intros H. cbn [trimLeft].
  destruct (isSpace c); [|exact H].
  cbn [isASCII] in H. apply andb_prop in H as [_ H]. exact (IH H).
Qed.

Lemma isASCII_trimRight (s : string) : isASCII s = true -> isASCII (trimRight s) = true.
Proof.
  induction s as [|c s IH]; [reflexivity|]. intros H. cbn [trimRight].
  cbn [isASCII] in H. apply andb_prop in H as [Hc H]. specialize (IH H).
  destruct (trimRight s).
  - destruct (isSpace c); [reflexivity|]. cbn [isASCII]. rewrite Hc. reflexivity.
  - cbn [isASCII] in IH |- *. rewrite Hc. exact IH.
Qed.

Lemma allHex_ascii (s : string) : allHex s = true -> isASCII s = true.
Proof.
  induction s as [|c s IH]; [reflexivity|]. cbn [allHex isASCII].
  destruct (hexDigitValue c) eqn:Hc; [|discriminate].
  intros H. rewrite (hex_ascii _ _ Hc), (IH H). reflexivity.
Qed.

(** Lowercased hexadecimal digits have nothing to trim. *)
Lemma trimRight_hex (s : string) :
  allHex s = true -> trimRight (lowerASCII s) = lowerASCII s.
Proof.
  induction s as [|c s IH]; [reflexivity|]. intros Hhex.
  cbn in Hhex. destruct (hexDigitValue c) eqn:Hc; [|discriminate Hhex].
  cbn [lowerASCII trimRight]. rewrite (IH Hhex), (hex_not_space _ _ Hc).
  destruct (lowerASCII s); reflexivity.
Qed.

Lemma TrimSpace_hex (s : string) :
  allHex s = true -> TrimSpace (ToLower s) = lowerASCII s.
Proof.
  intros Hhex. rewrite (normalForm_ascii _ (allHex_ascii _ Hhex)). unfold trimASCII.
  assert (Hleft : trimLeft (lowerASCII s) = lowerASCII s).
  { destruct s as [|c s]; [reflexivity|]. cbn in Hhex |- *.
    destruct (hexDigitValue c) eqn:Hc; [|discriminate Hhex].
    rewrite (hex_not_space _ _ Hc). reflexivity. }
  rewrite Hleft. apply trimRight_hex, Hhex.
Qed.

Lemma TrimSpace_hash_hex (s : string) :
  allHex s = true -> TrimSpace (ToLower (String "#" s)) = String "#" (lowerASCII s).
Proof.
  intros Hhex. rewrite normalForm_ascii
    by (cbn [isASCII]; rewrite (allHex_ascii _ Hhex); reflexivity).
  unfold trimASCII. cbn [lowerASCII]. change (lowerByte "#") with "#"%char.
  change (trimLeft (String "#" ?t)) with (String "#" t).
  cbn [trimRight]. rewrite (trimRight_hex _ Hhex). destruct (lowerASCII s); reflexivity.
Qed.

Lemma allHex_lowerASCII (s : string) : allHex (lowerASCII s) = allHex s.
Proof.
  induction s as [|c s IH]; [reflexivity|].
  cbn. rewrite hexDigitValue_lowerByte, IH. reflexivity.
Qed.

Lemma len_lowerASCII (s : string) : len (lowerASCII s) = len s.
Proof.
  unfold len. f_equal. induction s as [|c s IH]; [reflexivity|].
  cbn. rewrite IH. reflexivity.
Qed.

(** A text of hexadecimal digits does not start with [#]. *)
Lemma stripHash_hex (s : string) : allHex s = true -> stripHash s = s.
Proof.
  destruct s as [|c s]; [reflexivity|]. cbn.
  destruct c as [[] [] [] [] [] [] [] []]; try discriminate; reflexivity.
Qed.

(** The eight names have 4, 5, 8 or 9 letters. *)
Lemma namedColors_len (v : string) :
  len v = 3%Z \/ len v = 6%Z -> namedColors (F := F) !! v = None.
Proof.
  intros Hlen. destruct (namedColors !! v) as [col|] eqn:Hv; [|reflexivity].
  apply namedColors_domain in Hv.
  repeat (apply elem_of_cons in Hv as [Hv|Hv];
          [injection Hv as -> _; vm_compute in Hlen; destruct Hlen; discriminate|]).
  inversion Hv.
Qed.

(** *** Ranging over ASCII text and over other bytes *)

Lemma runeTail_ascii (b : ascii) (rest : string) :
  (nat_of_ascii b <? 128)%nat = true -> runeTail b rest = Some 0%nat.
Proof.
  destruct b as [[] [] [] [] [] [] [] []]; intros H; try discriminate H; reflexivity.
Qed.

Lemma not_ascii_not_hex (b : ascii) :
  (nat_of_ascii b <? 128)%nat = false -> hexDigitValue b = None.
Proof.
  intros H. destruct (hexDigitValue b) as [d|] eqn:Hb; [|reflexivity].
  rewrite (hex_ascii _ _ Hb) in H. discriminate H.
Qed.

(** On ASCII text the runes are the bytes. *)
Lemma duplicateRunes_ascii_head (b : ascii) (rest : string) :
  (nat_of_ascii b <? 128)%nat = true ->
  duplicateRunes 0 (String b rest) = String b (String b (duplicateRunes 0 rest)).
Proof.
  intros Hb. cbn [duplicateRunes]. rewrite (runeTail_ascii _ _ Hb). cbv zeta.
  replace (substring 0 0 rest) with EmptyString by (destruct rest; reflexivity).
  reflexivity.
Qed.

Lemma duplicateRunes_other_head (b : ascii) (rest : string) :
  (nat_of_ascii b <? 128)%nat = false ->
  exists c out, duplicateRunes 0 (String b rest) = String c out
                /\ hexDigitValue c = None.
Proof.
  intros Hb. cbn [duplicateRunes]. destruct (runeTail b rest) as [k|].
  - cbv zeta. eexists b, _. split; [reflexivity | exact (not_ascii_not_hex _ Hb)].
  - eexists (ascii_of_nat 239), _. split; reflexivity.
Qed.

(** On ASCII text the runes are the bytes. *)
Lemma duplicateRunes_ascii (v : string) :
  isASCII v = true -> duplicateRunes 0 v = doubled v.
Proof.
  induction v as [|b rest IH]; [reflexivity|]. cbn [isASCII].
  intros H. apply andb_prop in H as [Hb Hrest].
  rewrite (duplicateRunes_ascii_head _ _ Hb), (IH Hrest). reflexivity.
Qed.

(** A doubled text of hexadecimal digits comes from hexadecimal digits, read
    byte by byte: any other rune leaves a byte above 127. *)
Lemma duplicateRunes_hex (v : string) :
  allHex (duplicateRunes 0 v) = true ->
  allHex v = true /\ duplicateRunes 0 v = doubled v.
Proof.
  induction v as [|b rest IH]; [split; reflexivity|].
  destruct (nat_of_ascii b <? 128)%nat eqn:Hb.
  - rewrite (duplicateRunes_ascii_head _ _ Hb). cbn [allHex doubled].
    destruct (hexDigitValue b); [|intros H; discriminate H].
    intros H. destruct (IH H) as [Hrest ->]. split; [exact Hrest | reflexivity].
  - destruct (duplicateRunes_other_head b rest Hb) as (c & out & -> & Hc).
    cbn [allHex]. rewrite Hc. intros H. discriminate H.
Qed.

Lemma doubled_hex (v : string) : allHex (doubled v) = allHex v.
Proof.
  induction v as [|c v IH]; [reflexivity|]. cbn [doubled allHex].
  destruct (hexDigitValue c); [exact IH | reflexivity].
Qed.

(** The hexadecimal form the function computes is the one of the
    specification whenever either is made of hexadecimal digits, and
    whenever the latter has not six characters. *)
Lemma hexForm_expandShort (v : string) :
  (allHex (hexForm v) = true -> hexForm v = expandShort (stripHash v))
  /\ (allHex (expandShort (stripHash v)) = true ->
      hexForm v = expandShort (stripHash v))
  /\ (len (expandShort (stripHash v)) <> 6%Z ->
      hexForm v = expandShort (stripHash v)).
Proof.
  unfold hexForm, expandShort, duplicateEach.
  destruct (Z.eqb_spec (len (stripHash v)) 3) as [H3|H3];
    [|repeat split; reflexivity].
  split; [|split].
  - intros H. apply duplicateRunes_hex in H as [_ ->]. reflexivity.
  - intros H. rewrite doubled_hex in H.
    apply duplicateRunes_ascii, allHex_ascii, H.
  - intros H. exfalso. apply H.
    destruct (stripHash v) as [|a [|b [|c [|d u]]]]; try discriminate H3.
    + reflexivity.
    + unfold len in H3. cbn [String.length] in H3. lia.
Qed.

(** The colour of a text of three or six hexadecimal digits, with or without
    a leading [#]: that of its lowercased hexadecimal form. *)
Lemma parseColor_digits (s : string) (a b c d e f : ascii) :
  allHex s = true ->
  hexForm (lowerASCII s)
  = String a (String b (String c (String d (String e (String f ""))))) ->
  forall value, value = s \/ value = String "#" s ->
  match hexByte a b, hexByte c d, hexByte e f with
  | Some r, Some g, Some bl =>
      parseColor value =
        ({| R := normalized r; G := normalized g; B := normalized bl |}, None)
  | _, _, _ => exists err, parseColor value = (zeroColor, Some err)
  end.
Proof.
  intros Hhex Hform value Hvalue.
  assert (Hlower : allHex (lowerASCII s) = true)
    by (rewrite allHex_lowerASCII; exact Hhex).
  assert (Hlen : len (lowerASCII s) = 3%Z \/ len (lowerASCII s) = 6%Z).
  { revert Hform. unfold hexForm. rewrite (stripHash_hex _ Hlower).
    destruct (Z.eqb_spec (len (lowerASCII s)) 3); [auto|].
    intros ->. right. reflexivity. }
  apply parseColor_six.
  - destruct Hvalue as [-> | ->].
    + rewrite (TrimSpace_hex _ Hhex). intros E. rewrite E in Hlen.
      vm_compute in Hlen. destruct Hlen; discriminate.
    + rewrite (TrimSpace_hash_hex _ Hhex). discriminate.
  - destruct Hvalue as [-> | ->].
    + rewrite (TrimSpace_hex _ Hhex). apply namedColors_len. exact Hlen.
    + rewrite (TrimSpace_hash_hex _ Hhex). apply namedColors_hash.
  - destruct Hvalue as [-> | ->].
    + rewrite (TrimSpace_hex _ Hhex). exact Hform.
    + rewrite (TrimSpace_hash_hex _ Hhex). revert Hform. unfold hexForm.
      rewrite (stripHash_hex _ Hlower).
      intros Hform. exact Hform.
Qed.

Lemma len_three (h : string) :
  len h = 3%Z -> exists a b c, h = String a (String b (String c "")).
Proof.
  unfold len. intros H.
  do 3 (destruct h as [|? h]; [simpl in H; lia|]).
  destruct h; [|simpl in H; lia].
  repeat eexists.
Qed.

(** The hexadecimal form of hexadecimal digits: the digits, doubled when
    there are three. *)
Lemma hexForm_hex (s : string) :
  allHex s = true -> hexForm s = expandShort s /\ allHex (hexForm s) = allHex (expandShort s).
Proof.
  intros Hhex.
  assert (Hform : hexForm s = expandShort s).
  { destruct (hexForm_expandShort s) as (_ & Hspec & _).
    rewrite (stripHash_hex _ Hhex) in Hspec. apply Hspec.
    unfold expandShort. destruct (len s =? 3)%Z; [rewrite doubled_hex|]; exact Hhex. }
  rewrite Hform. split; reflexivity.
Qed.

(** C7. With [v] the input trimmed and lowercased and [h] its hexadecimal
    form, that is [v] without its leading [#] if it has one and, when three
    characters are left, with each character doubled:
    - an empty [v] is the error "valor vazio";
    - when [v] is no colour name, a form [h] whose length is not 6 is the
      error "formato de cor inválido" with the input, a form of six
      characters that are not all hexadecimal digits is an error, and a form
      of six hexadecimal digits is the colour of its three bytes, without
      error;
    - every error comes with the zero colour, never with a partial one, and
      there is no error in any other case;
    - the empty text, [#12345] and [#xyz] are errors, and [f0a], also written
      [  #F0A ], is the colour of [ff00aa]. *)
Theorem parseColor_errors (value : string) :
  let v := TrimSpace (ToLower value) in
  let h := expandShort (stripHash v) in
  (v = "" -> parseColor value = (zeroColor, Some (Errorf "valor vazio")))
  /\ (v <> "" -> namedColors (F := F) !! v = None -> len h <> 6%Z ->
      parseColor value =
        (zeroColor, Some (Errorf ("formato de cor inválido: " ++ value))))
  /\ (v <> "" -> namedColors (F := F) !! v = None -> len h = 6%Z ->
      allHex h = false ->
      exists err, parseColor value = (zeroColor, Some err))
  /\ (v <> "" -> namedColors (F := F) !! v = None ->
      forall (a b c d e f : ascii) (r g bl : Z),
        h = String a (String b (String c (String d (String e (String f ""))))) ->
        hexByte a b = Some r -> hexByte c d = Some g -> hexByte e f = Some bl ->
        parseColor value =
          ({| R := normalized r; G := normalized g; B := normalized bl |}, None))
  /\ (snd (parseColor value) <> None ->
      fst (parseColor value) = zeroColor
      /\ (v = "" \/ (namedColors (F := F) !! v = None
                     /\ (len h <> 6%Z \/ allHex h = false))))
  /\ parseColor (F := F) "" = (zeroColor, Some (Errorf "valor vazio"))
  /\ parseColor (F := F) "#12345"
     = (zeroColor, Some (Errorf "formato de cor inválido: #12345"))
  /\ (exists err, parseColor (F := F) "#xyz" = (zeroColor, Some err))
  /\ parseColor (F := F) "f0a"
     = ({| R := normalized 255; G := normalized 0; B := normalized 170 |}, None)
  /\ parseColor (F := F) "  #F0A " = parseColor "ff00aa".
Proof.
  intros v h. subst v h.
  destruct (parseColor_errors_by_form value) as (Hempty & Hlength & Hdigits & Hconverse).
  cbv zeta in Hempty, Hlength, Hdigits, Hconverse.
  destruct (hexForm_expandShort (TrimSpace (ToLower value)))
    as (Hcode & Hspec & Hother).
  split; [exact Hempty|].
  split.
  { intros Hv Hnamed Hlen. apply (Hlength Hv Hnamed).
    rewrite (Hother Hlen). exact Hlen. }
  split.
  { intros Hv Hnamed Hlen Hhex.
    destruct (Z.eq_dec (len (hexForm (TrimSpace (ToLower value)))) 6) as [H6|H6].
    - apply (Hdigits Hv Hnamed H6).
      destruct (allHex (hexForm (TrimSpace (ToLower value)))) eqn:Hall; [|reflexivity].
      rewrite (Hcode eq_refl) in Hall. congruence.
    - eexists. exact (Hlength Hv Hnamed H6). }
  split.
  { intros Hv Hnamed a b c d e f r g bl Hform Hr Hg Hb.
    assert (Hall : allHex (expandShort (stripHash (TrimSpace (ToLower value)))) = true)
      by (rewrite Hform, allHex_six, Hr, Hg, Hb; reflexivity).
    pose proof (parseColor_six value a b c d e f Hv Hnamed) as Hsix.
    rewrite (Hspec Hall), Hr, Hg, Hb in Hsix. exact (Hsix Hform). }
  split.
  { intros Herr. destruct (Hconverse Herr) as [Hzero Hcases].
    split; [exact Hzero|].
    destruct Hcases as [Hv | [Hnamed Hform]]; [left; exact Hv|]. right.
    split; [exact Hnamed|].
    destruct (Z.eq_dec (len (expandShort (stripHash (TrimSpace (ToLower value))))) 6)
      as [H6|H6]; [|left; exact H6].
    destruct (allHex (expandShort (stripHash (TrimSpace (ToLower value))))) eqn:Hall;
      [|right; reflexivity].
    rewrite (Hspec eq_refl) in Hform. destruct Hform; congruence. }
  rewrite !(parseColor_ascii "") by reflexivity.
  rewrite !(parseColor_ascii "#12345") by reflexivity.
  rewrite !(parseColor_ascii "#xyz") by reflexivity.
  rewrite !(parseColor_ascii "f0a") by reflexivity.
  rewrite !(parseColor_ascii "  #F0A ") by reflexivity.
  rewrite !(parseColor_ascii "ff00aa") by reflexivity.
  split; [vm_compute; reflexivity|].
  split; [vm_compute; reflexivity|].
  split; [eexists; vm_compute; reflexivity|].
  split; vm_compute; reflexivity.
Qed.

(** X15. For hexadecimal forms the leading [#] is optional: a text of three
    or of six hexadecimal digits, of either case, parses to a colour, and
    with a [#] before it to the same colour. *)
Theorem parseColor_hash_optional (s : string)
    (Hhex : allHex s = true) (Hlen : len s = 3%Z \/ len s = 6%Z) :
  snd (parseColor (F := F) s) = None
  /\ parseColor (F := F) (String "#" s) = parseColor s.
Proof.
  assert (Hlower : allHex (lowerASCII s) = true)
    by (rewrite allHex_lowerASCII; exact Hhex).
  assert (Hform :
    (exists a b c d e f,
       hexForm (lowerASCII s)
       = String a (String b (String c (String d (String e (String f ""))))))
    /\ allHex (hexForm (lowerASCII s)) = true).
  { destruct (hexForm_hex _ Hlower) as [-> _]. unfold expandShort.
    rewrite len_lowerASCII.
    destruct Hlen as [H3|H6].
    - rewrite H3. cbn [Z.eqb Pos.eqb]. rewrite <- len_lowerASCII in H3.
      destruct (len_three _ H3) as (a & b & c & E). rewrite E in Hlower |- *.
      split; [repeat eexists|]. rewrite doubled_hex. exact Hlower.
    - rewrite H6. cbn [Z.eqb Pos.eqb]. rewrite <- len_lowerASCII in H6.
      destruct (len_six _ H6) as (a & b & c & d & e & f & E).
      split; [rewrite E; repeat eexists | exact Hlower]. }
  destruct Hform as ((a & b & c & d & e & f & Hform) & Hall).
  pose proof (parseColor_digits s a b c d e f Hhex Hform) as Hparse.
  rewrite Hform, allHex_six in Hall.
  destruct (hexByte a b), (hexByte c d), (hexByte e f); try discriminate Hall.
  rewrite (Hparse s) by (left; reflexivity).
  rewrite (Hparse (String "#" s)) by (right; reflexivity).
  split; reflexivity.
Qed.

(** X16. The short form stands for the doubled digits: three hexadecimal
    digits [abc] parse to the colour of [aabbcc], whose bytes are 17 times
    the digits, with and without the leading [#]. *)
Theorem parseColor_short_form (a b c : ascii) (x y z : Z)
    (Ha : hexDigitValue a = Some x) (Hb : hexDigitValue b = Some y)
    (Hc : hexDigitValue c = Some z) :
  let col := {| R := normalized (17 * x); G := normalized (17 * y);
                B := normalized (17 * z) |} in
  parseColor (String a (String b (String c ""))) = (col, None)
  /\ parseColor (String "#" (String a (String b (String c "")))) = (col, None)
  /\ parseColor (String a (String a (String b (String b (String c (String c ""))))))
     = (col, None)
  /\ parseColor
       (String "#" (String a (String a (String b (String b (String c (String c "")))))))
     = (col, None).
Proof.
  intros col.
  assert (Hbyte : forall p q, hexDigitValue p = Some q ->
            hexByte (lowerByte p) (lowerByte p) = Some (17 * q)%Z).
  { intros p q Hp. rewrite hexByte_lowerByte. unfold hexByte. rewrite Hp.
    f_equal. lia. }
  assert (Hshort : allHex (String a (String b (String c ""))) = true)
    by (cbn; rewrite Ha, Hb, Hc; reflexivity).
  assert (Hlong : allHex (String a (String a (String b (String b
                            (String c (String c "")))))) = true)
    by (cbn; rewrite Ha, Hb, Hc; reflexivity).
  assert (Fs : hexForm (lowerASCII (String a (String b (String c ""))))
               = String (lowerByte a) (String (lowerByte a) (String (lowerByte b)
                   (String (lowerByte b) (String (lowerByte c)
                      (String (lowerByte c) "")))))).
  { apply hexForm_hex. rewrite allHex_lowerASCII. exact Hshort. }
  assert (Fl : hexForm (lowerASCII (String a (String a (String b (String b
                                      (String c (String c "")))))))
               = String (lowerByte a) (String (lowerByte a) (String (lowerByte b)
                   (String (lowerByte b) (String (lowerByte c)
                      (String (lowerByte c) "")))))).
  { apply hexForm_hex. rewrite allHex_lowerASCII. exact Hlong. }
  pose proof (parseColor_digits _ _ _ _ _ _ _ Hshort Fs) as Hs.
  pose proof (parseColor_digits _ _ _ _ _ _ _ Hlong Fl) as Hl.
  rewrite (Hbyte _ _ Ha), (Hbyte _ _ Hb), (Hbyte _ _ Hc) in Hs, Hl.
  split; [apply Hs; left; reflexivity|].
  split; [apply Hs; right; reflexivity|].
  split; [apply Hl; left; reflexivity | apply Hl; right; reflexivity].
Qed.

(** Two texts with the same normal form parse alike. *)
Lemma parseColor_same_normal_form (v w : string) :
  TrimSpace (ToLower v) = TrimSpace (ToLower w) ->
  fst (parseColor (F := F) v) = fst (parseColor w)
  /\ (snd (parseColor (F := F) v) = None <-> snd (parseColor (F := F) w) = None).
Proof.
  intros Hsame. rewrite !parseColor_steps. cbv zeta. rewrite Hsame.
  destruct (String.eqb _ ""); [split; [reflexivity | split; discriminate]|].
  destruct (namedColors !! _); [split; reflexivity|].
  destruct (negb _); [split; [reflexivity | split; discriminate]|].
  destruct (parseHexComponent (substring 0 2 _)) as [r [e|]];
    [split; [reflexivity | split; intros H; exact H]|].
  destruct (parseHexComponent (substring 2 2 _)) as [g [e|]];
    [split; [reflexivity | split; intros H; exact H]|].
  destruct (parseHexComponent (substring 4 2 _)) as [b [e|]];
    split; try reflexivity; split; intros H; exact H.
Qed.

(** X17. [parseColor] ignores letter case and surrounding white space: two
    ASCII texts that are equal once lowercased, or equal once trimmed, parse
    to the same colour, and one is an error exactly when the other is. *)
Theorem parseColor_ignores_case_and_spaces (v w : string)
    (Hv : isASCII v = true) (Hw : isASCII w = true)
    (Halike : ToLower v = ToLower w \/ TrimSpace v = TrimSpace w) :
  fst (parseColor (F := F) v) = fst (parseColor w)
  /\ (snd (parseColor (F := F) v) = None <-> snd (parseColor (F := F) w) = None).
Proof.
  apply parseColor_same_normal_form.
  destruct Halike as [Hcase|Htrim].
  - rewrite Hcase. reflexivity.
  - rewrite (normalForm_ascii _ Hv), (normalForm_ascii _ Hw).
    rewrite (TrimSpace_ascii _ Hv), (TrimSpace_ascii _ Hw) in Htrim.
    rewrite <- !lowerASCII_trimASCII, Htrim. reflexivity.
Qed.

End HexForms.

Lemma sameFloat_eq (x y : B64.float64) : sameFloat x y = true -> x = y.
Proof.
  destruct x as [s|s| |s m e], y as [t|t| |t n f]; cbn; try discriminate.
  - intros H. apply Bool.eqb_prop in H. congruence.
  - intros H. apply Bool.eqb_prop in H. congruence.
  - reflexivity.
  - intros H. apply andb_prop in H as [H He]. apply andb_prop in H as [Hs Hm].
    apply Bool.eqb_prop in Hs. apply Pos.eqb_eq in Hm. apply Z.eqb_eq in He.
    congruence.
Qed.

Lemma byte_check (P : Z -> bool) :
  forallb P (map Z.of_nat (seq 0 256)) = true ->
  forall v, (0 <= v <= 255)%Z -> P v = true.
Proof.
  intros Hall v Hv. rewrite forallb_forall in Hall. apply Hall.
  replace v with (Z.of_nat (Z.to_nat v)) by lia.
  apply in_map, in_seq. lia.
Qed.

Lemma threeDecimals_close (v : Z) :
  ((v # 255) - (1 # 2000) <= threeDecimals v)%Q
  /\ (threeDecimals v <= (v # 255) + (1 # 2000))%Q.
Proof.
  unfold threeDecimals.
  pose proof (Z.div_mod (2000 * v + 255) 510 ltac:(lia)) as Hdiv.
  pose proof (Z.mod_pos_bound (2000 * v + 255) 510 ltac:(lia)) as Hmod.
  set (k := ((2000 * v + 255) / 510)%Z) in *.
  unfold Qle, Qminus, Qplus, Qopp. cbn. lia.
Qed.

(** X18. In binary64, the component [parseHexComponent] returns for two
    hexadecimal digits that denote the byte [v] is the double nearest to
    [v/255] rounded to three decimals: the rounding to three places the
    source aims at is reached for every byte, and the decimal is within
    0.0005 of [v/255]. *)
Theorem parseHexComponent_three_decimals (a b : ascii) (v : Z)
    (Hv : hexByte a b = Some v) :
  parseHexComponent (F := B64.float64) (String a (String b ""))
  = (lit (threeDecimals v), None)
  /\ ((v # 255) - (1 # 2000) <= threeDecimals v)%Q
  /\ (threeDecimals v <= (v # 255) + (1 # 2000))%Q.
Proof.
  split; [|apply threeDecimals_close].
  rewrite parseHexComponent_two, Hv. f_equal.
  apply sameFloat_eq.
  apply (byte_check (fun v => sameFloat (normalized v) (lit (threeDecimals v))));
    [vm_compute; reflexivity|].
  apply (hexByte_digits _ _ _ Hv).
Qed.

(** X19. In binary64, every colour [parseColor] returns without error, for a
    name or a hexadecimal form, has its three components between 0 and 1. *)
Theorem parseColor_components_in_range {lib : Strings}
    (value : string) (col : colorRGB B64.float64)
    (Hparse : parseColor value = (col, None)) :
  inUnitRange col.(R) = true /\ inUnitRange col.(G) = true
  /\ inUnitRange col.(B) = true.
Proof.
  assert (Hunit : forall v, (0 <= v <= 255)%Z ->
            inUnitRange (normalized (F := B64.float64) v) = true).
  { apply (byte_check (fun v => inUnitRange (normalized v))).
    vm_compute. reflexivity. }
  destruct (string_dec (TrimSpace (ToLower value)) "") as [Hv|Hv].
  { rewrite parseColor_steps in Hparse. cbv zeta in Hparse.
    rewrite Hv in Hparse. discriminate Hparse. }
  destruct (namedColors (F := B64.float64) !! TrimSpace (ToLower value))
    as [named|] eqn:Hnamed.
  { rewrite parseColor_steps in Hparse. cbv zeta in Hparse.
    rewrite (proj2 (String.eqb_neq _ _) Hv), Hnamed in Hparse.
    injection Hparse as <-. apply namedColors_domain in Hnamed.
    repeat (apply elem_of_cons in Hnamed as [Hnamed|Hnamed];
            [injection Hnamed as _ ->; vm_compute; repeat split; reflexivity|]).
    inversion Hnamed. }
  destruct (Z.eq_dec (len (hexForm (TrimSpace (ToLower value)))) 6) as [Hlen|Hlen].
  2:{ rewrite parseColor_steps in Hparse. cbv zeta in Hparse.
      rewrite (proj2 (String.eqb_neq _ _) Hv), Hnamed in Hparse.
      rewrite (proj2 (Z.eqb_neq _ _) Hlen) in Hparse. discriminate Hparse. }
  destruct (len_six _ Hlen) as (a & b & c & d & e & f & Hform).
  pose proof (parseColor_six value a b c d e f Hv Hnamed Hform) as Hsix.
  destruct (hexByte a b) as [r|] eqn:Hr; [|destruct Hsix as [err Herr]; congruence].
  destruct (hexByte c d) as [g|] eqn:Hg; [|destruct Hsix as [err Herr]; congruence].
  destruct (hexByte e f) as [bl|] eqn:Hb; [|destruct Hsix as [err Herr]; congruence].
  rewrite Hsix in Hparse. injection Hparse as <-. cbn [R G B].
  repeat split; apply Hunit; eapply hexByte_digits; eassumption.
Qed.

(** ** The optical axis, in binary64 *)

Lemma fsub_diag (x : B64.float64) :
  isFinite x = true -> exists s, fsub x x = S754_zero s.
Proof.
  destruct x as [s|s| |s m e]; try discriminate; intros _.
  - destruct s; eexists; reflexivity.
  - exists false. cbn [fsub binary64 SFsub]. cbv zeta. rewrite Z.sub_diag. reflexivity.
Qed.

Lemma fmul_zero_l (s : bool) (x : B64.float64) :
  isFinite x = true -> exists t, fmul (F := B64.float64) (S754_zero s) x = S754_zero t.
Proof. destruct x; try discriminate; intros _; eexists; reflexivity. Qed.

(** The clamped depth is never zero: a zero numerator gives a zero. *)
Lemma fdiv_zero_clamped (s : bool) (pz : B64.float64) :
  isNumber pz = true ->
  exists t,
    fdiv (F := B64.float64) (S754_zero s)
      (if fleb pz (lit (1 # 10)) then lit (1 # 10) else pz)
    = S754_zero t.
Proof.
  destruct pz as [u|u| |u m e]; try discriminate; intros _.
  - eexists. vm_compute. reflexivity.
  - destruct u; eexists; vm_compute; reflexivity.
  - match goal with |- context [if ?c then _ else _] => destruct c end.
    + exists (xorb s false). reflexivity.
    + eexists. reflexivity.
Qed.

Lemma feqb_refl (c : B64.float64) : isNumber c = true -> feqb c c = true.
Proof.
  destruct c as [s|s| |s m e]; try discriminate; intros _.
  - reflexivity.
  - destruct s; reflexivity.
  - cbn [feqb binary64]. unfold SFeqb, SFcompare.
    rewrite Z.compare_refl, Pos.compare_cont_refl. destruct s; reflexivity.
Qed.

Lemma fadd_zero_r (c : B64.float64) (s : bool) :
  isNumber c = true -> feqb (fadd c (S754_zero s)) c = true.
Proof.
  intros Hc. destruct c as [t|t| |t m e]; try discriminate.
  - destruct t, s; reflexivity.
  - destruct t; reflexivity.
  - change (fadd (S754_finite t m e) (S754_zero s)) with (S754_finite t m e).
    apply feqb_refl. reflexivity.
Qed.

Lemma fsub_zero_r (c : B64.float64) (s : bool) :
  isNumber c = true -> feqb (fsub c (S754_zero s)) c = true.
Proof.
  intros Hc. destruct c as [t|t| |t m e]; try discriminate.
  - destruct t, s; reflexivity.
  - destruct t; reflexivity.
  - change (fsub (S754_finite t m e) (S754_zero s)) with (S754_finite t m e).
    apply feqb_refl. reflexivity.
Qed.

Lemma offset_of_zero (coord distance pz scale : B64.float64) :
  (exists s, coord = S754_zero s) ->
  isFinite distance = true -> isNumber pz = true -> isFinite scale = true ->
  exists t,
    scaledOffset coord distance
      (if fleb pz (lit (1 # 10)) then lit (1 # 10) else pz) scale
    = S754_zero t.
Proof.
  intros [s ->] Hd Hpz Hs. unfold scaledOffset.
  destruct (fmul_zero_l s distance Hd) as [t1 ->].
  destruct (fdiv_zero_clamped t1 pz Hpz) as [t2 ->].
  exact (fmul_zero_l t2 scale Hs).
Qed.

(** X20. In binary64, a point straight ahead of the observer, with the
    observer's X and Z, is projected onto the centre of the screen, whatever
    its depth, in front of the observer or behind: the two screen coordinates
    compare equal to [centerX] and [centerY].  The coordinates, the distance
    and the two scales are finite, and the depth and the centre are
    numbers. *)
Theorem ProjectPoint_on_axis_binary64 (r : Renderer3D B64.float64)
    (p : Point3D B64.float64)
    (Hx : p.(pX) = r.(camera).(Observer).(pX)) (Hxfin : isFinite p.(pX) = true)
    (Hz : p.(pZ) = r.(camera).(Observer).(pZ)) (Hzfin : isFinite p.(pZ) = true)
    (Hdepth : isNumber (fsub p.(pY) r.(camera).(Observer).(pY)) = true)
    (Hdistance : isFinite r.(camera).(Distance) = true)
    (HscaleX : isFinite (fdiv (of_int r.(width)) r.(camera).(Width)) = true)
    (HscaleY : isFinite (fdiv (of_int r.(height)) r.(camera).(Height)) = true)
    (HcenterX : isNumber r.(centerX) = true)
    (HcenterY : isNumber r.(centerY) = true) :
  feqb (ProjectPoint r p).(sX) r.(centerX) = true
  /\ feqb (ProjectPoint r p).(sY) r.(centerY) = true.
Proof.
  rewrite ProjectPoint_offsets. cbn [sX sY]. unfold offsetX, offsetY, clampedDepth.
  rewrite <- Hx, <- Hz.
  destruct (offset_of_zero _ _ _ _ (fsub_diag _ Hxfin) Hdistance Hdepth HscaleX)
    as [tx ->].
  destruct (offset_of_zero _ _ _ _ (fsub_diag _ Hzfin) Hdistance Hdepth HscaleY)
    as [ty ->].
  split; [apply fadd_zero_r | apply fsub_zero_r]; assumption.
Qed.

(** X20 at the point (0, 5, 0) seen from the origin. *)
Lemma ProjectPoint_on_axis_binary64_witness :
  feqb (ProjectPoint renderer800 (point64 0 5 0 "")).(sX) renderer800.(centerX) = true
  /\ feqb (ProjectPoint renderer800 (point64 0 5 0 "")).(sY) renderer800.(centerY)
     = true.
Proof.
  apply (ProjectPoint_on_axis_binary64 renderer800 (point64 0 5 0 ""));
    vm_compute; reflexivity.
Defined.

(** ** The further properties at sample inputs *)

(** X2 at the sample file. *)
Lemma LoadFigureFromYAML_loaded_is_valid_witness :
  LoadFigureFromYAML sampleReadFile sampleUnmarshal "simple.yaml"
    = (Some (withCamera figureNoCamera DefaultCamera), None)
  /\ (withCamera figureNoCamera DefaultCamera).(Pontos) <> []
  /\ (withCamera figureNoCamera DefaultCamera).(Linhas) <> []
  /\ Forall (fun linha =>
               (0 <= linha.(P1)
                < Z.of_nat (length (withCamera figureNoCamera DefaultCamera).(Pontos)))%Z
               /\ (0 <= linha.(P2)
                   < Z.of_nat (length (withCamera figureNoCamera DefaultCamera).(Pontos)))%Z)
       (withCamera figureNoCamera DefaultCamera).(Linhas).
Proof.
  assert (Hload : LoadFigureFromYAML sampleReadFile sampleUnmarshal "simple.yaml"
                  = (Some (withCamera figureNoCamera DefaultCamera), None))
    by (vm_compute; reflexivity).
  split; [exact Hload|].
  exact (LoadFigureFromYAML_loaded_is_valid sampleReadFile sampleUnmarshal
           "simple.yaml" _ Hload).
Defined.

(** X3 at the sample file, on the 800 x 600 renderer with the markers on. *)
Lemma load_then_render_witness :
  LoadFigureFromYAML sampleReadFile sampleUnmarshal "simple.yaml"
    = (Some (withCamera figureNoCamera DefaultCamera), None)
  /\ forall result ctx,
       RenderFigureWithConfig renderer800
         (Some (withCamera figureNoCamera DefaultCamera)) configWithMarkers
       = Returned result ctx ->
       result = None
       /\ ctx = (renderer800.(context)
                 ++ drawing renderer800 (withCamera figureNoCamera DefaultCamera)
                      configWithMarkers)%list.
Proof.
  assert (Hload : LoadFigureFromYAML sampleReadFile sampleUnmarshal "simple.yaml"
                  = (Some (withCamera figureNoCamera DefaultCamera), None))
    by (vm_compute; reflexivity).
  split; [exact Hload|].
  exact (proj2 (proj2 (load_then_render sampleReadFile sampleUnmarshal "simple.yaml" _
                         renderer800 configWithMarkers Hload))).
Defined.

(** X4 at the single point with its loop edge: one stroke. *)
Lemma render_strokes_every_valid_line_witness :
  validateFigure figureNoCamera = None
  /\ (forall i n ctx,
        RenderFigureWithConfig renderer800 (Some figureNoCamera) DefaultRenderConfig
        <> Panicked (IndexOutOfRange i n) ctx)
  /\ countOp isStroke (drawing renderer800 figureNoCamera DefaultRenderConfig)
     = 1%nat.
Proof.
  assert (Hvalid : validateFigure figureNoCamera = None) by (vm_compute; reflexivity).
  split; [exact Hvalid|].
  pose proof (render_strokes_every_valid_line renderer800 figureNoCamera
                DefaultRenderConfig Hvalid) as (Hsafe & _ & _ & Hcount & _).
  split; [exact Hsafe | exact Hcount].
Defined.

(** X5 at the square, markers on: four discs and the two names. *)
Lemma render_marker_counts_witness :
  RenderFigureWithConfig renderer800 (Some figureSquare) configWithMarkers
  = Returned None
      (renderer800.(context) ++ drawing renderer800 figureSquare configWithMarkers)%list
  /\ exists ops,
       (renderer800.(context) ++ drawing renderer800 figureSquare configWithMarkers)%list
       = (renderer800.(context) ++ ops)%list
       /\ countOp isCircle ops = 4%nat /\ countOp isText ops = 2%nat.
Proof.
  assert (Hrun :
    RenderFigureWithConfig renderer800 (Some figureSquare) configWithMarkers
    = Returned None
        (renderer800.(context)
         ++ drawing renderer800 figureSquare configWithMarkers)%list)
    by (vm_compute; reflexivity).
  split; [exact Hrun|].
  exact (render_marker_counts renderer800 figureSquare configWithMarkers _ Hrun).
Defined.

(** X6 at a figure without points. *)
Lemma render_error_leaves_surface_witness :
  RenderFigureWithConfig renderer800 (Some figureWithSettings) DefaultRenderConfig
  = Returned (Some (Errorf "figura não possui pontos")) renderer800.(context)
  /\ figureWithSettings.(Pontos) = []
  /\ renderer800.(context) = renderer800.(context)
  /\ Errorf "figura não possui pontos" = Errorf "figura não possui pontos".
Proof.
  assert (Hrun :
    RenderFigureWithConfig renderer800 (Some figureWithSettings) DefaultRenderConfig
    = Returned (Some (Errorf "figura não possui pontos")) renderer800.(context))
    by (vm_compute; reflexivity).
  split; [exact Hrun|].
  exact (render_error_leaves_surface renderer800 figureWithSettings
           DefaultRenderConfig _ _ Hrun).
Defined.

(** X7 at the figure whose second edge ends at -1: the render panics there,
    on the index -1. *)
Lemma render_outcome_by_lines_witness :
  figureNegativeP2.(Pontos) <> []
  /\ exists ctx,
       RenderFigureWithConfig renderer800 (Some figureNegativeP2) DefaultRenderConfig
       = Panicked (IndexOutOfRange (-1) 2) ctx
       /\ ~ Forall (fun linha =>
                      (2 <= linha.(P1))%Z \/ (2 <= linha.(P2))%Z
                      \/ ((0 <= linha.(P1))%Z /\ (0 <= linha.(P2))%Z))
              figureNegativeP2.(Linhas).
Proof.
  assert (Hpoints : figureNegativeP2.(Pontos) <> []) by discriminate.
  split; [exact Hpoints|].
  eexists. split; [vm_compute; reflexivity|].
  eapply (proj1 (proj2 (render_outcome_by_lines renderer800 figureNegativeP2
                          DefaultRenderConfig Hpoints))).
  vm_compute. reflexivity.
Defined.

(** X8 at the square, markers on: the colour is back to the line colour. *)
Lemma render_leaves_line_style_witness :
  RenderFigureWithConfig renderer800 (Some figureSquare) configWithMarkers
  = Returned None
      (renderer800.(context) ++ drawing renderer800 figureSquare configWithMarkers)%list
  /\ currentColor
       (renderer800.(context) ++ drawing renderer800 figureSquare configWithMarkers)%list
     = Some (lit 0, lit 0, lit 0)
  /\ currentLineWidth
       (renderer800.(context) ++ drawing renderer800 figureSquare configWithMarkers)%list
     = Some (lit 1).
Proof.
  assert (Hrun :
    RenderFigureWithConfig renderer800 (Some figureSquare) configWithMarkers
    = Returned None
        (renderer800.(context)
         ++ drawing renderer800 figureSquare configWithMarkers)%list)
    by (vm_compute; reflexivity).
  split; [exact Hrun|].
  exact (render_leaves_line_style renderer800 figureSquare configWithMarkers _ Hrun).
Defined.

(** X15 at [ff8800]. *)
Lemma parseColor_hash_optional_witness :
  allHex "ff8800" = true
  /\ snd (parseColor (F := B64.float64) "ff8800") = None
  /\ parseColor (F := B64.float64) "#ff8800" = parseColor "ff8800".
Proof.
  split; [reflexivity|].
  apply (parseColor_hash_optional (F := B64.float64) "ff8800");
    [reflexivity | right; reflexivity].
Defined.

(** X16 at [f0A]: the bytes 255, 0 and 170. *)
Lemma parseColor_short_form_witness :
  hexDigitValue "f" = Some 15%Z /\ hexDigitValue "0" = Some 0%Z
  /\ hexDigitValue "A" = Some 10%Z
  /\ parseColor (F := B64.float64) "#f0A"
     = ({| R := normalized 255; G := normalized 0; B := normalized 170 |}, None)
  /\ parseColor (F := B64.float64) "#ff00AA"
     = ({| R := normalized 255; G := normalized 0; B := normalized 170 |}, None).
Proof.
  do 3 (split; [reflexivity|]).
  pose proof (parseColor_short_form (F := B64.float64) "f" "0" "A" 15 0 10
                eq_refl eq_refl eq_refl) as (_ & Hshort & _ & Hlong).
  split; [exact Hshort | exact Hlong].
Defined.

(** X17 at a red written in capitals between spaces. *)
Lemma parseColor_ignores_case_and_spaces_witness :
  isASCII "  #FF0000 " = true /\ isASCII "#FF0000" = true
  /\ TrimSpace "  #FF0000 " = TrimSpace "#FF0000"
  /\ fst (parseColor (F := B64.float64) "  #FF0000 ") = fst (parseColor "#FF0000")
  /\ (snd (parseColor (F := B64.float64) "  #FF0000 ") = None
      <-> snd (parseColor (F := B64.float64) "#FF0000") = None).
Proof.
  do 3 (split; [reflexivity|]).
  apply (parseColor_ignores_case_and_spaces (F := B64.float64)
           "  #FF0000 " "#FF0000"); [reflexivity | reflexivity | right; reflexivity].
Defined.

(** X18 at [80], the byte 128: the component is 0.502. *)
Lemma parseHexComponent_three_decimals_witness :
  hexByte "8" "0" = Some 128%Z
  /\ parseHexComponent (F := B64.float64) "80" = (lit (502 # 1000), None).
Proof.
  split; [reflexivity|].
  exact (proj1 (parseHexComponent_three_decimals "8" "0" 128 eq_refl)).
Defined.

(** X19 at the name [lightgray]. *)
Lemma parseColor_components_in_range_witness :
  parseColor (F := B64.float64) "lightgray" = (gray (82 # 100), None)
  /\ inUnitRange (lit (82 # 100)) = true.
Proof.
  assert (Hparse : parseColor (F := B64.float64) "lightgray" = (gray (82 # 100), None))
    by (vm_compute; reflexivity).
  split; [exact Hparse|].
  exact (proj1 (parseColor_components_in_range "lightgray" _ Hparse)).
Defined.
